(** * Nested cross-validation baselines (labrador, [scripts/evaluations])

    A shallow embedding of the two evaluation scripts
    - [cancer_diagnosis_logistic_regression_baseline.py]
    - [sepsis_mortality_random_forest_baseline.py]
    and the properties of their nested evaluation protocol.

    Modelling conventions.
    - A Python float (numpy float64) is modelled by an exact rational [Q];
      rounding, infinities and NaN are outside the model.  Where the
      rounding of one expression matters, the expression is also evaluated
      in binary64, with the Standard Library's [SpecFloat] (see
      [subsample_size_binary64]).
    - A 2-D numpy array is a list of rows ([list (list Q)]); every array
      object lives in a heap and is referred to by its address, so that the
      in-place writes of the scripts ([A[:, C] = ...], [mask[ix] = False])
      are writes to a shared store.  Index arrays ([test_ix], [train_ix], the
      fold indices) are never written to and are plain lists of naturals.
    - The libraries the scripts call (numpy's generator, scikit-learn's
      shuffle, estimators, the loss objects) are the fields of [Externals];
      what the scripts rely on is collected in [ExternalsOk]. *)

From Stdlib Require Import QArith Qround.
From Stdlib Require SpecFloat.
From stdpp Require Import base list strings gmap sorting.

Local Open Scope nat_scope.

(** ** Exceptions and the error monad *)

Inductive exn :=
  | ValueError | IndexError | TypeError
  | OSError | FileNotFoundError | FileExistsError | NotADirectoryError | IsADirectoryError
  | InvalidConfiguration | UpstreamModelError.

Inductive result (A : Type) :=
  | Ok (a : A)
  | Err (e : exn).
Arguments Ok {A} a.
Arguments Err {A} e.

Global Instance result_ret : MRet result := λ A a, Ok a.
Global Instance result_bind : MBind result := λ A B f m,
  match m with Ok a => f a | Err e => Err e end.
Global Instance result_fmap : FMap result := λ A B f m,
  match m with Ok a => Ok (f a) | Err e => Err e end.

(** [o] or raise [e]. *)
Definition or_raise {A} (e : exn) (o : option A) : result A :=
  match o with Some a => Ok a | None => Err e end.

(** ** Numbers *)

(** Python's [int(x)] on a float: truncation towards zero. *)
Definition py_int (x : Q) : Z := Z.quot (Qnum x) (Zpos (Qden x)).

Definition Qltb (a b : Q) : bool := negb (Qle_bool b a).

(** *** binary64

    IEEE 754 double precision as [SpecFloat] specifies it (53 bits of
    precision, exponents below 1024, rounding to nearest even): the
    arithmetic the scripts' floats run in. *)

Definition binary64 := SpecFloat.spec_float.

(** The float of an integer. *)
Definition b64_of_Z (z : Z) : binary64 := SpecFloat.binary_normalize 53 1024 z 0 false.

Definition b64_mul : binary64 → binary64 → binary64 := SpecFloat.SFmul 53 1024.

Definition b64_div : binary64 → binary64 → binary64 := SpecFloat.SFdiv 53 1024.

(** Python's [int(x)] on a float: truncation towards zero; an infinity or a
    NaN raises. *)
Definition b64_int (x : binary64) : option Z :=
  match x with
  | SpecFloat.S754_zero _ => Some 0%Z
  | SpecFloat.S754_finite sign m e => Some (SpecFloat.cond_Zopp sign (Z.shiftl (Z.pos m) e))
  | _ => None
  end.

(** Line 83 (cancer), 60 (sepsis): [int(fraction * X_dev.shape[0])] in
    binary64, [fraction] being entry [i - 1] of
    [np.arange(1, num_subsamples + 1) / num_subsamples]. *)
Definition subsample_size_binary64 (i num_subsamples n_dev : Z) : option Z :=
  b64_int (b64_mul (b64_div (b64_of_Z i) (b64_of_Z num_subsamples)) (b64_of_Z n_dev)).

(** Line 71 (cancer), 48 (sepsis): [int(0.1 * X.shape[0])] in binary64; the
    literal [0.1] is the float nearest to one tenth. *)
Definition holdout_size_binary64 (n : Z) : option Z :=
  b64_int (b64_mul (b64_div (b64_of_Z 1) (b64_of_Z 10)) (b64_of_Z n)).

Definition Qsum (l : list Q) : Q := foldr Qplus 0%Q l.

(** [np.mean] of a 1-D sequence. *)
Definition np_mean (l : list Q) : Q := (Qsum l / inject_Z (Z.of_nat (length l)))%Q.

(** ** Arrays as values *)

Abbreviation Matrix := (list (list Q)).

(** [A[ix]] for an integer index array [ix]: the rows at [ix], in order. *)
Definition take_rows {A} (X : list A) (ix : list nat) : result (list A) :=
  or_raise IndexError (mapM (X !!.) ix).

(** [A[mask]] for a boolean array [mask] of the length of [A]. *)
Definition select_mask {A} (X : list A) (mask : list bool) : result (list A) :=
  if decide (length mask = length X)
  then Ok (fst <$> filter (λ p, snd p = true) (zip X mask))
  else Err IndexError.

(** [A[:, C]]: the columns at [C], in order. *)
Definition take_cols (X : Matrix) (C : list nat) : result Matrix :=
  or_raise IndexError (mapM (λ row : list Q, mapM (row !!.) C) X).

(** One row of [A[:, C] = T]: the entries at [C] are overwritten, in order,
    by the entries of the row of [T]. *)
Fixpoint assign_at (row : list Q) (C : list nat) (t : list Q) : option (list Q) :=
  match C, t with
  | [], [] => Some row
  | c :: C', x :: t' =>
      if decide (c < length row) then assign_at (<[c := x]> row) C' t' else None
  | _, _ => None
  end.

(** [A[:, C] = T]: [T] has the shape of [A[:, C]]. *)
Definition assign_cols (X : Matrix) (C : list nat) (T : Matrix) : result Matrix :=
  if decide (length T = length X)
  then if decide (Forall (λ t, length t = length C) T)
       then or_raise IndexError (mapM (λ p, assign_at (fst p) C (snd p)) (zip X T))
       else Err ValueError
  else Err ValueError.

(** The positions a boolean mask selects. *)
Definition flatnonzero (mask : list bool) : list nat :=
  filter (λ i, mask !! i = Some true) (seq 0 (length mask)).

(** [mask[ix] = False]. *)
Fixpoint clear_at (mask : list bool) (ix : list nat) : option (list bool) :=
  match ix with
  | [] => Some mask
  | i :: ix' =>
      if decide (i < length mask) then clear_at (<[i := false]> mask) ix' else None
  end.

Definition ncols (X : Matrix) : nat := length (default [] (head X)).

(** Column [j] of a matrix, and all its columns. *)
Definition column (j : nat) (X : Matrix) : list Q :=
  (λ row : list Q, default 0%Q (row !! j)) <$> X.

Definition columns (X : Matrix) : list (list Q) :=
  (λ j, column j X) <$> seq 0 (ncols X).

(** ** scikit-learn's StandardScaler *)

Record StandardScaler := { mean_ : list Q; scale_ : list Q }.

Definition standardize (x m s : Q) : Q := ((x - m) / s)%Q.

Definition scale_row (sc : StandardScaler) (row : list Q) : list Q :=
  zip_with (λ x ms, standardize x (fst ms) (snd ms)) row (zip (mean_ sc) (scale_ sc)).

(** ** Hyperparameter configurations *)

Inductive hp_value := HNum (q : Q) | HStr (s : string) | HNone.

Definition Config := list (string * hp_value).
Definition SearchSpace := list (string * list hp_value).

(** Modelled from the spec: [lab_transformers.utils.gen_combinations] is not
    among the sources.  Section 4.1: every combination, one value per key,
    the full Cartesian product in an order consistent with the key order;
    an empty candidate list is an [InvalidConfiguration] error. *)
Fixpoint gen_combinations (space : SearchSpace) : result (list Config) :=
  match space with
  | [] => Ok [[]]
  | (name, values) :: rest =>
      match values with
      | [] => Err InvalidConfiguration
      | _ =>
          tails ← gen_combinations rest;
          Ok (v ← values; (λ t, (name, v) :: t) <$> tails)
      end
  end.

(** ** The two scripts and the libraries they call *)

Inductive script := Cancer | Sepsis.

Record Externals := {
  (** [numpy.random.Generator] *)
  BitGenerator : Type;
  (** [np.random.default_rng(seed)], for a seed that numpy accepts (a
      non-negative integer; a negative one is refused before the loops) *)
  default_rng : Z → BitGenerator;
  (** [rng.choice(n, size=k, replace=False)], for [k ≤ n]: sample and next state *)
  choice : BitGenerator → nat → nat → list nat * BitGenerator;
  (** the order in which [KFold(shuffle=True, random_state=seed)] visits [arange(R)] *)
  shuffled : Z → nat → list nat;
  (** the [scale_] of one column: its standard deviation, zero replaced by one *)
  column_scale : list Q → Q;
  (** [LogisticRegression] or [RandomForestClassifier] with [random_state=seed] *)
  Model : Type;
  clf_fit : script → Config → Z → Matrix → list Q → result Model;
  clf_predict_proba : Model → Matrix → result Matrix;
  (** [SparseCategoricalCrossentropy], [BinaryCrossentropy], [F1Score] *)
  scce : list Q → Matrix → Q;
  bce : list Q → list Q → Q;
  f1_micro : nat → list Q → Matrix → Q;
}.

(** What the scripts rely on: a sample without replacement is a duplicate-free
    list of [k] indices below [n]; a shuffle is a permutation. *)
Record ExternalsOk (E : Externals) : Prop := {
  choice_length : ∀ g n k, k ≤ n → length (choice E g n k).1 = k;
  choice_NoDup : ∀ g n k, k ≤ n → NoDup (choice E g n k).1;
  choice_bound : ∀ g n k i, k ≤ n → i ∈ (choice E g n k).1 → i < n;
  shuffled_perm : ∀ seed R, shuffled E seed R ≡ₚ seq 0 R;
}.

(** ** The heap of array objects *)

Inductive ndarray :=
  | FloatMat (X : Matrix)
  | FloatVec (y : list Q)
  | BoolVec (b : list bool).

Definition loc := nat.
Abbreviation store := (list ndarray).

Definition Heap (A : Type) : Type := store → result (A * store).

Global Instance heap_ret : MRet Heap := λ A a h, Ok (a, h).
Global Instance heap_bind : MBind Heap := λ A B f m h,
  match m h with Ok (a, h') => f a h' | Err e => Err e end.

Definition heap_lift {A} (r : result A) : Heap A := λ h,
  match r with Ok a => Ok (a, h) | Err e => Err e end.

(** A new array object: its address is the next free one. *)
Definition alloc (v : ndarray) : Heap loc := λ h, Ok (length h, h ++ [v]).

Definition load (a : loc) : Heap ndarray := λ h,
  match h !! a with Some v => Ok (v, h) | None => Err TypeError end.

(** An in-place write to the object at [a]. *)
Definition write (a : loc) (v : ndarray) : Heap unit := λ h, Ok (tt, <[a := v]> h).

Definition as_matrix (v : ndarray) : result Matrix :=
  match v with FloatMat X => Ok X | _ => Err TypeError end.
Definition as_vector (v : ndarray) : result (list Q) :=
  match v with FloatVec y => Ok y | _ => Err TypeError end.
Definition as_mask (v : ndarray) : result (list bool) :=
  match v with BoolVec b => Ok b | _ => Err TypeError end.

Definition load_matrix (a : loc) : Heap Matrix := v ← load a; heap_lift (as_matrix v).
Definition load_vector (a : loc) : Heap (list Q) := v ← load a; heap_lift (as_vector v).
Definition load_mask (a : loc) : Heap (list bool) := v ← load a; heap_lift (as_mask v).

Definition nd_len (v : ndarray) : nat :=
  match v with FloatMat X => length X | FloatVec y => length y | BoolVec b => length b end.

Definition nd_take (v : ndarray) (ix : list nat) : result ndarray :=
  match v with
  | FloatMat X => FloatMat <$> take_rows X ix
  | FloatVec y => FloatVec <$> take_rows y ix
  | BoolVec b => BoolVec <$> take_rows b ix
  end.

Definition nd_select (v : ndarray) (mask : list bool) : result ndarray :=
  match v with
  | FloatMat X => FloatMat <$> select_mask X mask
  | FloatVec y => FloatVec <$> select_mask y mask
  | BoolVec b => BoolVec <$> select_mask b mask
  end.

(** [A.shape[0]] *)
Definition np_len (a : loc) : Heap nat := v ← load a; mret (nd_len v).

(** [A[ix]] with an integer index array: a new array (a copy, never a view). *)
Definition np_take (a : loc) (ix : list nat) : Heap loc :=
  v ← load a; v' ← heap_lift (nd_take v ix); alloc v'.

(** [A[mask]] with a boolean array: a new array. *)
Definition np_select (a mask : loc) : Heap loc :=
  v ← load a; b ← load_mask mask; v' ← heap_lift (nd_select v b); alloc v'.

(** [A[:, C]] on the right of an assignment or as an argument: a new array. *)
Definition np_cols (a : loc) (C : list nat) : Heap loc :=
  X ← load_matrix a; X' ← heap_lift (take_cols X C); alloc (FloatMat X').

(** [A[:, C] = T]: writes into the object [A]. *)
Definition np_assign_cols (a : loc) (C : list nat) (t : loc) : Heap unit :=
  X ← load_matrix a; T ← load_matrix t;
  X' ← heap_lift (assign_cols X C T); write a (FloatMat X').

(** [A.copy()] *)
Definition np_copy (a : loc) : Heap loc := v ← load a; alloc v.

(** [np.ones(n, dtype=bool)] *)
Definition np_ones (n : nat) : Heap loc := alloc (BoolVec (replicate n true)).

(** [mask[ix] = False]: writes into the object [mask]. *)
Definition np_clear (mask : loc) (ix : list nat) : Heap unit :=
  b ← load_mask mask; b' ← heap_lift (or_raise IndexError (clear_at b ix));
  write mask (BoolVec b').

(** A loop that threads an accumulator. *)
Fixpoint foldM `{MBind M, MRet M} {A B} (f : B → A → M B) (b : B) (l : list A) : M B :=
  match l with
  | [] => mret b
  | x :: l' => b' ← f b x; foldM f b' l'
  end.

(** Modelled from the spec: the block sizes of [sklearn.model_selection.KFold],
    a library class that is not among the sources.  Section 4.3: [k]
    contiguous blocks of nearly equal size; the first [R mod k] blocks have
    one row more. *)
Definition fold_sizes (k R : nat) : list nat :=
  (λ i, if decide (i < R `mod` k) then S (R `div` k) else R `div` k) <$> seq 0 k.

(** Modelled from the spec: [KFold(n_splits, shuffle=True, random_state).split]
    on [R] rows, a library method that is not among the sources.  Section
    4.3: shuffle the row order once with the seed, split it into [n_splits]
    contiguous blocks, each block serving once as validation and the rest as
    training.  Fewer than two splits, or more splits than rows, is a
    [ValueError]; both index arrays of a fold come out in increasing order. *)
Definition KFold_split (E : Externals) (n_splits random_state : Z) (R : nat)
    : result (list (list nat * list nat)) :=
  if decide (n_splits ≤ 1)%Z then Err ValueError
  else if decide (R < Z.to_nat n_splits) then Err ValueError
  else Ok ((λ block, (filter (.∉ block) (seq 0 R), filter (.∈ block) (seq 0 R)))
             <$> reshape (fold_sizes (Z.to_nat n_splits) R) (shuffled E random_state R)).

(** ** One run of a script *)

Record EvaluationRecord := {
  rec_rep : nat;
  rec_fraction : Q;
  rec_method : string;
  rec_metric : string;
  rec_value : Q;
}.

(** One call of [rng.choice]: population, size, and the sample returned
    (a log kept beside the program state, not a variable of the scripts). *)
Record Draw := { draw_population : nat; draw_size : nat; draw_sample : list nat }.

Section Script.

Context (E : Externals).

(** The module-level names of a script. *)
Variable s : script.
Variables k_inner k_outer random_seed num_subsamples : Z.
Variable continuous_col_ixs : list nat.
Variable num_classes : nat.
Variable search_space : SearchSpace.

(** *** Library calls on array objects *)

(** Modelled from the spec: [StandardScaler().fit], a library method that is
    not among the sources.  Section 4.2: per-column mean and scale over the
    given rows; an array without rows or without columns is a [ValueError]. *)
Definition StandardScaler_fit (X : Matrix) : result StandardScaler :=
  if decide (length X = 0 ∨ ncols X = 0) then Err ValueError
  else Ok {| mean_ := np_mean <$> columns X; scale_ := column_scale E <$> columns X |}.

(** Modelled from the spec: [scaler.transform], a library method that is not
    among the sources.  Section 4.2: every entry becomes [(x - mean) / scale]
    of its column; an array without rows, or with another number of columns
    than the scaler was fit on, is a [ValueError]. *)
Definition StandardScaler_transform (sc : StandardScaler) (X : Matrix) : result Matrix :=
  if decide (length X = 0) then Err ValueError
  else if decide (Forall (λ row, length row = length (mean_ sc)) X)
       then Ok (scale_row sc <$> X)
       else Err ValueError.

Definition scaler_fit (a : loc) : Heap StandardScaler :=
  X ← load_matrix a; heap_lift (StandardScaler_fit X).

Definition scaler_transform (sc : StandardScaler) (a : loc) : Heap loc :=
  X ← load_matrix a; T ← heap_lift (StandardScaler_transform sc X); alloc (FloatMat T).

(** The classifier built from the keywords [cfg] and [random_state=random_seed],
    then [clf.fit(X, y)]. *)
Definition classifier_fit (cfg : Config) (aX ay : loc) : Heap (Model E) :=
  X ← load_matrix aX; y ← load_vector ay; heap_lift (clf_fit E s cfg random_seed X y).

Definition predict_proba (m : Model E) (aX : loc) : Heap loc :=
  X ← load_matrix aX; P ← heap_lift (clf_predict_proba E m X); alloc (FloatMat P).

(** [P[:, -1]] *)
Definition last_col (P : Matrix) : result (list Q) :=
  or_raise IndexError (mapM (λ row : list Q, last row) P).

(** [scce(y, P)] in the cancer script, [bce(y, P[:, -1])] in the sepsis one. *)
Definition cross_entropy_of (y : list Q) (P : Matrix) : result Q :=
  match s with
  | Cancer => Ok (scce E y P)
  | Sepsis => p ← last_col P; Ok (bce E y p)
  end.

Definition cross_entropy (ay aP : loc) : Heap Q :=
  y ← load_vector ay; P ← load_matrix aP; heap_lift (cross_entropy_of y P).

(** [f1_score(one_hot(y, num_classes), P)], scored on the arguments of this
    call alone.  The cancer script creates its [F1Score] object once (line
    67) and calls it at every fraction without a reset, so from the second
    call on the value it records also depends on the earlier calls.  That
    history is not modelled: the theorems on the result table state the key
    of an [f1] record and nothing of its value. *)
Definition f1 (ay aP : loc) : Heap Q :=
  y ← load_vector ay; P ← load_matrix aP; mret (f1_micro E num_classes y P).

(** [A[:, C] = scaler.transform(B[:, C])] with [C = continuous_col_ixs]:
    the right-hand side is a new array, the assignment writes into [A]. *)
Definition assign_scaled (sc : StandardScaler) (A B : loc) : Heap unit :=
  sel ← np_cols B continuous_col_ixs;
  scaled ← scaler_transform sc sel;
  np_assign_cols A continuous_col_ixs scaled.

(** *** The inner model-selection loop *)

(** Cancer script, lines 92-112: one fold. *)
Definition cancer_fold (cfg : Config) (X_train y_train : loc)
    (fold : list nat * list nat) : Heap Q :=
  let '(ktrain_index, kval_index) := fold in
  X_ktrain ← np_take X_train ktrain_index;
  X_kval ← np_take X_train kval_index;
  y_ktrain ← np_take y_train ktrain_index;
  y_kval ← np_take y_train kval_index;
  sel ← np_cols X_ktrain continuous_col_ixs;
  scaler ← scaler_fit sel;
  assign_scaled scaler X_ktrain X_ktrain;;
  lr ← classifier_fit cfg X_ktrain y_ktrain;
  assign_scaled scaler X_kval X_kval;;
  y_kpred ← predict_proba lr X_kval;
  cross_entropy y_kval y_kpred.

(** Sepsis script, lines 69-83: one fold. *)
Definition sepsis_fold (cfg : Config) (X_train y_train : loc)
    (fold : list nat * list nat) : Heap Q :=
  let '(ktrain_index, kval_index) := fold in
  X_ktrain ← np_take X_train ktrain_index;
  X_kval ← np_take X_train kval_index;
  y_ktrain ← np_take y_train ktrain_index;
  y_kval ← np_take y_train kval_index;
  scaler ← scaler_fit X_ktrain;
  X_ktrain ← scaler_transform scaler X_ktrain;
  rf ← classifier_fit cfg X_ktrain y_ktrain;
  X_kval ← scaler_transform scaler X_kval;
  y_kpred ← predict_proba rf X_kval;
  cross_entropy y_kval y_kpred.

Definition fold_body : Config → loc → loc → list nat * list nat → Heap Q :=
  match s with Cancer => cancer_fold | Sepsis => sepsis_fold end.

(** The fold loop of one configuration: the list of cross-entropies. *)
Definition crossentropies (cfg : Config) (X_train y_train : loc) : Heap (list Q) :=
  R ← np_len X_train;
  folds ← heap_lift (KFold_split E k_inner random_seed R);
  mapM (fold_body cfg X_train y_train) folds.

(** [if best_ce is None or np.mean(crossentropies) < best_ce: ...] *)
Definition update_best (best : option Q * option Config) (cfg : Config) (ces : list Q)
    : option Q * option Config :=
  let '(best_ce, best_hps) := best in
  if match best_ce with None => true | Some b => Qltb (np_mean ces) b end
  then (Some (np_mean ces), Some cfg)
  else (best_ce, best_hps).

Definition select_step (X_train y_train : loc) (best : option Q * option Config)
    (cfg : Config) : Heap (option Q * option Config) :=
  ces ← crossentropies cfg X_train y_train;
  mret (update_best best cfg ces).

(** Lines 86-116 (cancer), 63-87 (sepsis): the value of [best_hps] after the loop. *)
Definition select_best (X_train y_train : loc) : Heap (option Config) :=
  combos ← heap_lift (gen_combinations search_space);
  best ← foldM (select_step X_train y_train) (None, None) combos;
  mret (snd best).

(** *** The final refit and the score on the test holdout *)

(** Cancer script, lines 118-131. *)
Definition cancer_refit (best_hps : option Config) (X_train y_train X_test y_test : loc)
    : Heap (list (string * Q)) :=
  cfg ← heap_lift (or_raise TypeError best_hps);
  sel ← np_cols X_train continuous_col_ixs;
  scaler ← scaler_fit sel;
  X_train_scaled ← np_copy X_train;
  assign_scaled scaler X_train_scaled X_train;;
  lr ← classifier_fit cfg X_train_scaled y_train;
  X_test_scaled ← np_copy X_test;
  assign_scaled scaler X_test_scaled X_test_scaled;;
  y_pred ← predict_proba lr X_test_scaled;
  lr_ce ← cross_entropy y_test y_pred;
  lr_f1 ← f1 y_test y_pred;
  mret [("cross_entropy"%string, lr_ce); ("f1"%string, lr_f1)].

(** Sepsis script, lines 89-97. *)
Definition sepsis_refit (best_hps : option Config) (X_train y_train X_test y_test : loc)
    : Heap (list (string * Q)) :=
  cfg ← heap_lift (or_raise TypeError best_hps);
  scaler ← scaler_fit X_train;
  X_train_scaled ← np_copy X_train;
  X_train_scaled ← scaler_transform scaler X_train;
  rf ← classifier_fit cfg X_train_scaled y_train;
  X_test_scaled ← np_copy X_test;
  X_test_scaled ← scaler_transform scaler X_test;
  y_pred ← predict_proba rf X_test_scaled;
  rf_ce ← cross_entropy y_test y_pred;
  mret [("cross_entropy"%string, rf_ce)].

Definition refit_and_score
    : option Config → loc → loc → loc → loc → Heap (list (string * Q)) :=
  match s with Cancer => cancer_refit | Sepsis => sepsis_refit end.

(** The metrics a script records for one (repetition, fraction), in order. *)
Definition metric_names : list string :=
  match s with Cancer => ["cross_entropy"; "f1"] | Sepsis => ["cross_entropy"] end.

Definition method_name : string :=
  match s with Cancer => "logistic_regression" | Sepsis => "random_forest" end.

(** *** The outer evaluation loop *)

Record State := {
  heap : store;
  rng : BitGenerator E;
  results : list EvaluationRecord;
  draws : list Draw;
}.

Definition M (A : Type) : Type := State → result (A * State).

Global Instance M_ret : MRet M := λ A a σ, Ok (a, σ).
Global Instance M_bind : MBind M := λ A B f m σ,
  match m σ with Ok (a, σ') => f a σ' | Err e => Err e end.

(** A computation on the array objects only. *)
Definition in_heap {A} (c : Heap A) : M A := λ σ,
  match c (heap σ) with
  | Ok (a, h) => Ok (a, {| heap := h; rng := rng σ; results := results σ; draws := draws σ |})
  | Err e => Err e
  end.

(** [rng.choice(n, size=k, replace=False)] on the shared generator. *)
Definition rng_choice (n k : nat) : M (list nat) := λ σ,
  if decide (k ≤ n)
  then let '(ix, g) := choice E (rng σ) n k in
       Ok (ix, {| heap := heap σ; rng := g; results := results σ;
                  draws := draws σ ++ [{| draw_population := n; draw_size := k;
                                         draw_sample := ix |}] |})
  else Err ValueError.

(** [results.extend(recs)] *)
Definition results_extend (recs : list EvaluationRecord) : M unit := λ σ,
  Ok (tt, {| heap := heap σ; rng := rng σ; results := results σ ++ recs; draws := draws σ |}).

(** [int(f * n)] as a sample size, the product taken exactly.  The scripts
    take it in binary64 ([holdout_size_binary64], [subsample_size_binary64]),
    where a product can fall just below an integer that the exact one
    reaches; the truncation is then one less. *)
Definition sample_size (f : Q) (n : nat) : nat :=
  Z.to_nat (py_int (f * inject_Z (Z.of_nat n))).

(** [np.arange(1, num_subsamples + 1) / num_subsamples] *)
Definition fractions : list Q :=
  (λ i, inject_Z i / inject_Z num_subsamples)%Q <$> seqZ 1 num_subsamples.

Definition records_of (rep : nat) (fraction : Q) (metrics : list (string * Q))
    : list EvaluationRecord :=
  (λ m, {| rec_rep := rep; rec_fraction := fraction; rec_method := method_name;
           rec_metric := fst m; rec_value := snd m |}) <$> metrics.

(** Lines 80-83 (cancer), 57-60 (sepsis): the training subsample. *)
Definition draw_subsample (X_dev y_dev : loc) (fraction : Q) : M (list nat * loc * loc) :=
  n_dev ← in_heap (np_len X_dev);
  train_ix ← rng_choice n_dev (sample_size fraction n_dev);
  X_train ← in_heap (np_take X_dev train_ix);
  y_train ← in_heap (np_take y_dev train_ix);
  mret (train_ix, X_train, y_train).

(** Lines 80-150 (cancer), 57-107 (sepsis): one subsample fraction. *)
Definition fraction_body (rep : nat) (X_dev y_dev X_test y_test : loc) (fraction : Q)
    : M unit :=
  '(_, X_train, y_train) ← draw_subsample X_dev y_dev fraction;
  best_hps ← in_heap (select_best X_train y_train);
  metrics ← in_heap (refit_and_score best_hps X_train y_train X_test y_test);
  results_extend (records_of rep fraction metrics).

(** Lines 71-77 (cancer), 48-54 (sepsis): the test holdout and the
    development pool of one repetition. *)
Definition holdout_split (X y : loc) : M (list nat * loc * (loc * loc) * (loc * loc)) :=
  n ← in_heap (np_len X);
  test_ix ← rng_choice n (sample_size (1 # 10) n);
  X_test ← in_heap (np_take X test_ix);
  y_test ← in_heap (np_take y test_ix);
  mask ← in_heap (np_ones n);
  in_heap (np_clear mask test_ix);;
  X_dev ← in_heap (np_select X mask);
  y_dev ← in_heap (np_select y mask);
  mret (test_ix, mask, (X_test, y_test), (X_dev, y_dev)).

(** One iteration of [for rep in range(k_outer)]. *)
Definition repetition (X y : loc) (rep : nat) : M unit :=
  '(_, _, (X_test, y_test), (X_dev, y_dev)) ← holdout_split X y;
  foldM (λ _ fraction, fraction_body rep X_dev y_dev X_test y_test fraction) tt fractions.

Definition outer_loop (X y : loc) : M unit :=
  foldM (λ _ rep, repetition X y rep) tt (seq 0 (Z.to_nat k_outer)).

End Script.

Arguments heap {E} _.
Arguments rng {E} _.
Arguments results {E} _.
Arguments draws {E} _.

(** What identifies a record: everything but the metric value. *)
Definition record_key (r : EvaluationRecord) : nat * Q * string * string :=
  (rec_rep r, rec_fraction r, rec_method r, rec_metric r).

(** ** The scripts as programs *)

Record DataFrame := { df_columns : list string; df_rows : list (list Q) }.

Definition path := list string.

Inductive file :=
  | DatasetCsv (df : DataFrame)
  | ResultsCsv (rows : list EvaluationRecord).

(** The directories and the regular files, by path; the empty path is the
    directory that relative paths start from. *)
Record FileSystem := { dirs : gset path; files : gmap path file }.

(** [sys.argv[1..6]], parsed. *)
Record Args := {
  arg_results_dir : path;
  arg_data_dir : path;
  arg_k_inner : Z;
  arg_k_outer : Z;
  arg_random_seed : Z;
  arg_num_subsamples : Z;
}.

Definition label_column (s : script) : string :=
  match s with Cancer => "Disease" | Sepsis => "mortality_indicator" end.

Definition dataset_name (s : script) : string :=
  match s with
  | Cancer => "cancer_diagnosis_baselines_data.csv"
  | Sepsis => "sepsis_mortality_baselines_data.csv"
  end.

Definition task_dir (s : script) : string :=
  match s with Cancer => "cancer_diagnosis" | Sepsis => "sepsis_mortality" end.

Definition outfile_prefix (s : script) : string :=
  match s with
  | Cancer => "cancer_diagnosis_logistic_regression_baseline_"
  | Sepsis => "sepsis_mortality_random_forest_baseline_"
  end.

Definition categorical_variables : list string :=
  ["FamilyHistory"; "BetelNut"; "Drinking"; "Smoking"; "Diabetes"; "Hypertension";
   "gender"; "Nitrite"; "Urine Bilirubin"; "Disease"].

Definition logreg_config : SearchSpace :=
  [("C", [HNum (1 # 10000); HNum (1 # 1000); HNum (1 # 100); HNum (1 # 10)]);
   ("multi_class", [HStr "multinomial"]);
   ("penalty", [HStr "l2"]);
   ("solver", [HStr "lbfgs"]);
   ("max_iter", [HNum 200])].

Definition randomforest_config : SearchSpace :=
  [("n_estimators", [HNum 30; HNum 100; HNum 200]);
   ("max_depth", [HNum 3; HNum 5; HNum 10]);
   ("max_features", [HNone; HStr "sqrt"])].

Definition config_of (s : script) : SearchSpace :=
  match s with Cancer => logreg_config | Sepsis => randomforest_config end.

(** [df.columns.get_loc(col)], column names being distinct. *)
Definition get_loc (cols : list string) (col : string) : option nat :=
  fst <$> list_find (λ c, c = col) cols.

(** Lines 41-44: [feature_cols.remove(label_column)] raises when the label
    is absent; [X] is the table without the label column, [y] the label column. *)
Definition features_and_labels (s : script) (df : DataFrame) : result (Matrix * list Q) :=
  p ← or_raise ValueError (get_loc (df_columns df) (label_column s));
  Ok (delete p <$> df_rows df, (λ row : list Q, default 0%Q (row !! p)) <$> df_rows df).

(** Lines 60-62 of the cancer script: positions, in [df.columns], of the
    columns that are not categorical. *)
Definition continuous_columns (df : DataFrame) : list nat :=
  omap (get_loc (df_columns df)) (filter (.∉ categorical_variables) (df_columns df)).

Global Instance Q_eq_dec : EqDecision Q.
Proof. solve_decision. Defined.

(** [len(np.unique(y))] *)
Definition count_classes (y : list Q) : nat := length (remove_dups y).

(** Everything up to the end of the outer loop: the final program state. *)
Definition run_loops (E : Externals) (s : script) (argv : Args) (df : DataFrame)
    : result (State E) :=
  '(X, y) ← features_and_labels s df;
  let continuous_col_ixs := match s with Cancer => continuous_columns df | Sepsis => [] end in
  match outer_loop E s (arg_k_inner argv) (arg_k_outer argv) (arg_random_seed argv)
          (arg_num_subsamples argv) continuous_col_ixs (count_classes y) (config_of s) 0 1
          {| heap := [FloatMat X; FloatVec y];
             rng := default_rng E (arg_random_seed argv);
             results := []; draws := [] |}
  with
  | Ok (_, σ) => Ok σ
  | Err e => Err e
  end.

(** [pd.read_csv(dataset_path)] *)
Definition read_csv (p : path) (fs : FileSystem) : result DataFrame :=
  match files fs !! p with
  | Some (DatasetCsv df) => Ok df
  | _ => Err FileNotFoundError
  end.

(** [op.exists(p)] for a path written with a trailing separator, as
    [results_path] is (line 24 joins ["cancer_diagnosis/"], line 23
    ["sepsis_mortality/"]): such a path exists only as a directory. *)
Definition op_exists (p : path) (fs : FileSystem) : bool := bool_decide (p ∈ dirs fs).

Definition parent (p : path) : path := take (length p - 1) p.

(** The proper prefixes of a path below the starting directory: what a system
    call walks through before it reaches the parent. *)
Definition ancestors (p : path) : list path := (λ k, take k p) <$> seq 1 (length p - 1).

(** [os.mkdir(p)], one level only.  The walk to the parent stops at a regular
    file with [NotADirectoryError] and at a missing directory with
    [FileNotFoundError]; a path that is there already, as a directory or as a
    regular file, gives [FileExistsError]. *)
Definition os_mkdir (p : path) (fs : FileSystem) : result FileSystem :=
  if decide (parent p ∈ dirs fs)
  then if decide (p ∈ dirs fs ∨ is_Some (files fs !! p)) then Err FileExistsError
       else Ok {| dirs := {[p]} ∪ dirs fs; files := files fs |}
  else if decide (Exists (λ q, is_Some (files fs !! q)) (ancestors p))
       then Err NotADirectoryError
       else Err FileNotFoundError.

(** [df.to_csv(op.join(d, name))]: pandas refuses a parent that is not a
    directory with an [OSError]; opening a directory for writing gives
    [IsADirectoryError]; a regular file at the path is overwritten. *)
Definition to_csv (rows : list EvaluationRecord) (d : path) (name : string) (fs : FileSystem)
    : result FileSystem :=
  if decide (d ∈ dirs fs)
  then if decide (d ++ [name] ∈ dirs fs) then Err IsADirectoryError
       else Ok {| dirs := dirs fs; files := <[d ++ [name] := ResultsCsv rows]> (files fs) |}
  else Err OSError.

(** Lines 152-159 (cancer), 109-116 (sepsis). *)
Definition save_results (rows : list EvaluationRecord) (results_path : path)
    (outfile_name : string) (fs : FileSystem) : result unit * FileSystem :=
  match (if op_exists results_path fs then Ok fs else os_mkdir results_path fs) with
  | Err e => (Err e, fs)
  | Ok fs1 =>
      match to_csv rows results_path (outfile_name +:+ ".csv") fs1 with
      | Err e => (Err e, fs1)
      | Ok fs2 => (Ok tt, fs2)
      end
  end.

(** A whole run: the outcome and the file system it leaves.  [time_string]
    is what [time.strftime] returned when the script started. *)
Definition main (E : Externals) (s : script) (time_string : string) (argv : Args)
    (fs : FileSystem) : result unit * FileSystem :=
  let outfile_name := outfile_prefix s +:+ time_string in
  let results_path := arg_results_dir argv ++ [task_dir s] in
  let dataset_path := arg_data_dir argv ++ [dataset_name s] in
  match df ← read_csv dataset_path fs; run_loops E s argv df with
  | Err e => (Err e, fs)
  | Ok σ => save_results (results σ) results_path outfile_name fs
  end.

(** Where a run with start time [time_string] writes its table. *)
Definition outfile_path (s : script) (time_string : string) (argv : Args) : path :=
  (arg_results_dir argv ++ [task_dir s]) ++ [(outfile_prefix s +:+ time_string) +:+ ".csv"].

Definition dataset_path (s : script) (argv : Args) : path :=
  arg_data_dir argv ++ [dataset_name s].

(** ** Reference definitions

    The scaling transform and the held-out cross-entropy as the specification
    words them, on array values; the programs above are compared with these. *)

Section Reference.

Context (E : Externals).
Variable s : script.
Variables k_inner random_seed : Z.
Variable continuous_col_ixs : list nat.

(** [fit(partition, continuous_column_indices)]: the cancer script fits on the
    continuous columns, the sepsis script on all columns. *)
Definition fit_scaler (P : Matrix) : result StandardScaler :=
  match s with
  | Cancer => sel ← take_cols P continuous_col_ixs; StandardScaler_fit E sel
  | Sepsis => StandardScaler_fit E P
  end.

(** [transform(partition, transform, continuous_column_indices)] *)
Definition apply_scaler (sc : StandardScaler) (P : Matrix) : result Matrix :=
  match s with
  | Cancer =>
      sel ← take_cols P continuous_col_ixs;
      T ← StandardScaler_transform sc sel;
      assign_cols P continuous_col_ixs T
  | Sepsis => StandardScaler_transform sc P
  end.

(** The cross-entropy of configuration [cfg] on the validation rows of one
    fold, the classifier and the scaler being fit on its training rows. *)
Definition heldout_ce (cfg : Config) (X : Matrix) (y : list Q) (fold : list nat * list nat)
    : result Q :=
  X_ktrain ← take_rows X fold.1;
  X_kval ← take_rows X fold.2;
  y_ktrain ← take_rows y fold.1;
  y_kval ← take_rows y fold.2;
  sc ← fit_scaler X_ktrain;
  X_ktrain' ← apply_scaler sc X_ktrain;
  m ← clf_fit E s cfg random_seed X_ktrain' y_ktrain;
  X_kval' ← apply_scaler sc X_kval;
  P ← clf_predict_proba E m X_kval';
  cross_entropy_of E s y_kval P.

(** The held-out cross-entropies of [cfg], one per fold. *)
Definition heldout_ces (cfg : Config) (X : Matrix) (y : list Q) : result (list Q) :=
  folds ← KFold_split E k_inner random_seed (length X);
  mapM (heldout_ce cfg X y) folds.

(** The mean held-out cross-entropy of [cfg] across the [k_inner] folds. *)
Definition mean_heldout_ce (cfg : Config) (X : Matrix) (y : list Q) : result Q :=
  np_mean <$> heldout_ces cfg X y.

(** The metrics of the final refit: scaler and classifier fit on the training
    subsample, scored on the test holdout (the [f1] entry as [f1] has it, on
    this holdout alone). *)
Definition test_metrics (num_classes : nat) (best_hps : option Config)
    (X_train : Matrix) (y_train : list Q) (X_test : Matrix) (y_test : list Q)
    : result (list (string * Q)) :=
  cfg ← or_raise TypeError best_hps;
  sc ← fit_scaler X_train;
  X_train' ← apply_scaler sc X_train;
  m ← clf_fit E s cfg random_seed X_train' y_train;
  X_test' ← apply_scaler sc X_test;
  P ← clf_predict_proba E m X_test';
  ce ← cross_entropy_of E s y_test P;
  Ok match s with
     | Cancer => [("cross_entropy"%string, ce); ("f1"%string, f1_micro E num_classes y_test P)]
     | Sepsis => [("cross_entropy"%string, ce)]
     end.

(** The selection loop on array values. *)
Definition select_on_values (space : SearchSpace) (X : Matrix) (y : list Q)
    : result (option Config) :=
  combos ← gen_combinations space;
  best ← foldM (λ best cfg, ces ← heldout_ces cfg X y; Ok (update_best best cfg ces))
               (None, None) combos;
  Ok best.2.

End Reference.

(** ** Auxiliary notions of the proofs *)

(** The two arrays a selection works on are at [aX] and [ay]. *)
Definition holds (aX ay : loc) (X : Matrix) (y : list Q) (h : store) : Prop :=
  h !! aX = Some (FloatMat X) ∧ h !! ay = Some (FloatVec y).

(** [b], at position [i] of [l], has the least score of [l] and is the first
    configuration of [l] with that score. *)
Definition first_min (score : Config → Q) (l : list Config) (b : Config) (i : nat) : Prop :=
  l !! i = Some b
  ∧ (∀ c, c ∈ l → (score b <= score c)%Q)
  ∧ (∀ j c, j < i → l !! j = Some c → (score b < score c)%Q).

(** The loop state is empty before the first configuration and the first
    minimum of the configurations seen so far afterwards. *)
Definition tracks (score : Config → Q) (pre : list Config) (st : option Q * option Config)
    : Prop :=
  (pre = [] ∧ st = (None, None))
  ∨ (∃ b i, st = (Some (score b), Some b) ∧ first_min score pre b i).

Definition count_true (m : list bool) : nat := length (filter (λ b, b = true) m).

Definition fraction_of (i n : Z) : Q := (inject_Z i / inject_Z n)%Q.

(** The record keys of one fraction, one repetition, and a whole run, in the
    order of the loop nesting: by repetition, then by fraction, then by
    metric. *)
Definition fraction_keys (s : script) (rep : nat) (f : Q) : list (nat * Q * string * string) :=
  (λ name, (rep, f, method_name s, name)) <$> metric_names s.

Definition repetition_keys (s : script) (num_subsamples : Z) (rep : nat)
    : list (nat * Q * string * string) :=
  fractions num_subsamples ≫= fraction_keys s rep.

Definition expected_keys (s : script) (k_outer num_subsamples : Z)
    : list (nat * Q * string * string) :=
  seq 0 (Z.to_nat k_outer) ≫= repetition_keys s num_subsamples.

(** The calls of [rng.choice] of a whole run on [N] rows, as (population,
    size) pairs in the order of the loop nesting: per repetition the test
    holdout, then one training subsample per fraction. *)
Definition draw_shape (d : Draw) : nat * nat := (draw_population d, draw_size d).

Definition repetition_draws (N : nat) (num_subsamples : Z) : list (nat * nat) :=
  let n_test := sample_size (1 # 10) N in
  (N, n_test) :: ((λ f, (N - n_test, sample_size f (N - n_test))) <$> fractions num_subsamples).

Definition expected_draws (N : nat) (k_outer num_subsamples : Z) : list (nat * nat) :=
  seq 0 (Z.to_nat k_outer) ≫= λ _, repetition_draws N num_subsamples.

(** ** A small instance of the libraries, with data, to run the programs on *)

Module Toy.

(** Sampling without replacement: a rotation of [0 .. n-1], cut to [k]. *)
Definition toy_choice (g n k : nat) : list nat * nat := (take k (rotate g (seq 0 n)), S g).

Definition toy_shuffled (seed : Z) (R : nat) : list nat :=
  rotate (Z.to_nat (Z.abs seed)) (seq 0 R).

(** A scale that is never zero: the variance, or one. *)
Definition toy_scale (col : list Q) : Q :=
  let v := Qred (np_mean ((λ x, (x - np_mean col) * (x - np_mean col))%Q <$> col)) in
  if Qeq_bool v 0 then 1%Q else v.

(** The first numeric hyperparameter of a configuration. *)
Fixpoint strength (cfg : Config) : Q :=
  match cfg with
  | (_, HNum q) :: _ => q
  | _ :: cfg' => strength cfg'
  | [] => 0%Q
  end.

(** A classifier with two parameters: the strength of its configuration and
    the mean training label; it predicts from the first feature. *)
Definition toy_fit (_ : script) (cfg : Config) (_ : Z) (X : Matrix) (y : list Q)
    : result (Q * Q) :=
  if decide (X = []) then Err UpstreamModelError else Ok (strength cfg, Qred (np_mean y)).

Definition toy_predict (m : Q * Q) (X : Matrix) : result Matrix :=
  Ok ((λ row : list Q,
         let p := Qred (m.2 + m.1 * default 0%Q (head row)) in [Qred (1 - p); p]) <$> X).

Definition sq_err (y p : Q) : Q := ((y - p) * (y - p))%Q.

(** Losses: mean squared error against the last probability column. *)
Definition toy_bce (y p : list Q) : Q := Qred (np_mean (zip_with sq_err y p)).

Definition toy_scce (y : list Q) (P : Matrix) : Q :=
  toy_bce y ((λ row : list Q, default 0%Q (last row)) <$> P).

Definition toy_f1 (_ : nat) (y : list Q) (P : Matrix) : Q :=
  Qred (np_mean (zip_with (λ yi (row : list Q),
                             if Qle_bool (sq_err yi (default 0%Q (last row))) (1 # 4)
                             then 1%Q else 0%Q) y P)).

Definition toy : Externals := {|
  BitGenerator := nat;
  default_rng := λ seed, Z.to_nat (Z.abs seed);
  choice := toy_choice;
  shuffled := toy_shuffled;
  column_scale := toy_scale;
  Model := (Q * Q)%type;
  clf_fit := toy_fit;
  clf_predict_proba := toy_predict;
  scce := toy_scce;
  bce := toy_bce;
  f1_micro := toy_f1;
|}.

(** Six rows, two features: the first is continuous, the second a flag. *)
Definition X6 : Matrix :=
  [[1; 0]; [2; 1]; [3; 0]; [4; 1]; [5; 0]; [6; 1]]%Q.
Definition y6 : list Q := [0; 0; 1; 0; 1; 1]%Q.

(** A heap that holds them at addresses 0 and 1. *)
Definition h6 : store := [FloatMat X6; FloatVec y6].

(** The program state a run starts the loops from, with these arrays. *)
Definition sigma6 : State toy :=
  {| heap := h6; rng := (3 : BitGenerator toy); results := []; draws := [] |}.

(** A search space of three configurations, the last two of equal strength. *)
Definition space3 : SearchSpace :=
  [("C", [HNum (1 # 100); HNum (1 # 10); HNum (2 # 20)]); ("penalty", [HStr "l2"])].

Definition combos3 : list Config :=
  [[("C", HNum (1 # 100)); ("penalty", HStr "l2")];
   [("C", HNum (1 # 10)); ("penalty", HStr "l2")];
   [("C", HNum (2 # 20)); ("penalty", HStr "l2")]].

(** The mean held-out cross-entropy of a configuration on the six rows, with
    two folds, seed 42 and the first column continuous. *)
Definition score6 (s : script) (c : Config) : Q :=
  match mean_heldout_ce toy s 2 42 [0] c X6 y6 with Ok q => q | Err _ => 0%Q end.

(** The scaler fit on the first column of the six rows, and the heap after
    scaling that column of the array at address 0 in place. *)
Definition sc6 : StandardScaler :=
  match fit_scaler toy Cancer [0] X6 with Ok sc => sc | Err _ => {| mean_ := []; scale_ := [] |} end.

Definition h6_scaled : store :=
  match assign_scaled [0] sc6 0 0 h6 with Ok (_, h) => h | Err _ => [] end.

(** Twenty rows of a table with the label of either script in the last column. *)
Definition rows20 : list (list Q) :=
  (λ i : nat, [inject_Z (Z.of_nat (i * 7 `mod` 11)); inject_Z (Z.of_nat (i `mod` 2));
              inject_Z (Z.of_nat ((i `div` 3) `mod` 2))]) <$> seq 0 20.

Definition cancer_df : DataFrame :=
  {| df_columns := ["age"; "gender"; "Disease"]; df_rows := rows20 |}.

Definition sepsis_df : DataFrame :=
  {| df_columns := ["lactate"; "age"; "mortality_indicator"]; df_rows := rows20 |}.

Definition df_of (s : script) : DataFrame :=
  match s with Cancer => cancer_df | Sepsis => sepsis_df end.

(** The arrays the cancer script makes of its table, and a state holding them. *)
Definition X20 : Matrix :=
  match features_and_labels Cancer cancer_df with Ok Xy => Xy.1 | Err _ => [] end.
Definition y20 : list Q :=
  match features_and_labels Cancer cancer_df with Ok Xy => Xy.2 | Err _ => [] end.

Definition sigma20 : State toy :=
  {| heap := [FloatMat X20; FloatVec y20]; rng := (3 : BitGenerator toy);
     results := []; draws := [] |}.

Definition argv2 : Args := {|
  arg_results_dir := ["results"];
  arg_data_dir := ["data"];
  arg_k_inner := 2;
  arg_k_outer := 2;
  arg_random_seed := 42;
  arg_num_subsamples := 2;
|}.

(** A file system with the dataset of [s] and an empty results directory. *)
Definition fs_of (s : script) : FileSystem := {|
  dirs := {[ ["results"] ]} ∪ {[ ["data"] ]};
  files := {[ dataset_path s argv2 := DatasetCsv (df_of s) ]};
|}.

(** The same, the task's results directory being there already. *)
Definition fs_again (s : script) : FileSystem := {|
  dirs := {[ ["results"] ]} ∪ {[ ["data"] ]} ∪ {[ ["results"; task_dir s] ]};
  files := {[ dataset_path s argv2 := DatasetCsv (df_of s) ]};
|}.

(** The first repetition on the twenty rows, after its split: the test
    holdout is at addresses 2 and 3, the mask at 4, the development pool at
    5 and 6. *)
Definition sigma20_split : State toy :=
  match holdout_split toy 0 1 sigma20 with Ok (_, σ) => σ | Err _ => sigma20 end.

Definition matrix_at (h : store) (a : loc) : Matrix :=
  match h !! a with Some (FloatMat X) => X | _ => [] end.
Definition vector_at (h : store) (a : loc) : list Q :=
  match h !! a with Some (FloatVec y) => y | _ => [] end.

Definition Xt20 : Matrix := matrix_at (heap sigma20_split) 2.
Definition yt20 : list Q := vector_at (heap sigma20_split) 3.
Definition Xd20 : Matrix := matrix_at (heap sigma20_split) 5.
Definition yd20 : list Q := vector_at (heap sigma20_split) 6.

(** The state after the fraction 1/2 of that repetition, cancer script. *)
Definition sigma20_half : State toy :=
  match fraction_body toy Cancer 2 42 [0] 2 space3 0 5 6 2 3 (1 # 2) sigma20_split with
  | Ok (_, σ) => σ
  | Err _ => sigma20_split
  end.

(** The heap after the selection loop on the six rows. *)
Definition h6_selected : store :=
  match select_best toy Cancer 2 42 [0] space3 0 1 h6 with Ok (_, h) => h | Err _ => [] end.

(** Tables: six rows only; the label in the first column and a continuous
    column in the last; categorical columns only. *)
Definition small_df : DataFrame :=
  {| df_columns := ["age"; "gender"; "Disease"]; df_rows := take 6 rows20 |}.

Definition label_first_df : DataFrame :=
  {| df_columns := ["Disease"; "gender"; "age"]; df_rows := rows20 |}.

Definition flags_df : DataFrame :=
  {| df_columns := ["gender"; "Smoking"; "Disease"]; df_rows := rows20 |}.

(** Arguments asking for twenty inner folds, and for no repetition. *)
Definition argv_many_folds : Args := {|
  arg_results_dir := ["results"];
  arg_data_dir := ["data"];
  arg_k_inner := 20;
  arg_k_outer := 2;
  arg_random_seed := 42;
  arg_num_subsamples := 2;
|}.

Definition argv_no_repetition : Args := {|
  arg_results_dir := ["results"];
  arg_data_dir := ["data"];
  arg_k_inner := 2;
  arg_k_outer := 0;
  arg_random_seed := 42;
  arg_num_subsamples := 2;
|}.

End Toy.

(** * Properties *)

(** ** K-fold partitioning *)

Lemma sum_fold_sizes_aux (q r k : nat) :
  sum_list ((λ i, if decide (i < r) then S q else q) <$> seq 0 k) = k * q + (r `min` k).
Proof.
  induction k as [|k IH]; [simpl; lia|].
  rewrite seq_S, fmap_app, sum_list_with_app, IH. simpl.
  case_decide; lia.
Qed.

Lemma sum_fold_sizes (k R : nat) : 0 < k → sum_list (fold_sizes k R) = R.
Proof.
  intros Hk. unfold fold_sizes. rewrite sum_fold_sizes_aux.
  pose proof (Nat.mod_upper_bound R k ltac:(lia)).
  pose proof (Nat.div_mod_eq R k). lia.
Qed.

Lemma fold_sizes_near (k R n m : nat) :
  n ∈ fold_sizes k R → m ∈ fold_sizes k R → n ≤ S m.
Proof.
  unfold fold_sizes. intros (i & -> & _)%list_elem_of_fmap (j & -> & _)%list_elem_of_fmap.
  repeat case_decide; lia.
Qed.

Lemma reshape_lengths {A} (szs : list nat) (l : list A) :
  sum_list szs ≤ length l → length <$> reshape szs l = szs.
Proof.
  revert l. induction szs as [|n szs IH]; intros l Hl; simpl in *; [done|].
  rewrite length_take, IH by (rewrite length_drop; lia). f_equal. lia.
Qed.

Lemma join_NoDup_lookup {A} (ls : list (list A)) j1 j2 b1 b2 x :
  NoDup (mjoin ls) → ls !! j1 = Some b1 → ls !! j2 = Some b2 →
  x ∈ b1 → x ∈ b2 → j1 = j2.
Proof.
  revert j1 j2. induction ls as [|b ls IH]; intros j1 j2 Hnd H1 H2 Hx1 Hx2; [done|].
  simpl in Hnd. apply NoDup_app in Hnd as (_ & Hdisj & Hnd).
  destruct j1 as [|j1], j2 as [|j2]; simpl in *; simplify_eq; try done.
  - exfalso. eapply Hdisj; [done|]. apply list_elem_of_join. eauto using list_elem_of_lookup_2.
  - exfalso. eapply Hdisj; [done|]. apply list_elem_of_join. eauto using list_elem_of_lookup_2.
  - f_equal. eauto.
Qed.

Lemma filter_elem_of_Permutation (b : list nat) (R : nat) :
  NoDup b → (∀ i, i ∈ b → i < R) → filter (.∈ b) (seq 0 R) ≡ₚ b.
Proof.
  intros Hnd Hb. apply NoDup_Permutation; [apply NoDup_filter, NoDup_seq|done|].
  intros i. rewrite list_elem_of_filter, elem_of_seq.
  split; [by intros [? _]|]. intros Hi. pose proof (Hb i Hi). split; [done|lia].
Qed.

Section KFold.

Context (E : Externals) (HE : ExternalsOk E).
Variables (k seed : Z) (R : nat).
Hypothesis Hk : (2 ≤ k)%Z.
Hypothesis HR : Z.to_nat k ≤ R.

Let blocks := reshape (fold_sizes (Z.to_nat k) R) (shuffled E seed R).

Lemma blocks_join : mjoin blocks = shuffled E seed R.
Proof.
  apply join_reshape. rewrite sum_fold_sizes by lia.
  by rewrite (shuffled_perm E HE seed R), length_seq.
Qed.

Lemma blocks_elem b i : b ∈ blocks → i ∈ b → i < R.
Proof.
  intros Hb Hi. assert (i ∈ mjoin blocks) as Hj by (apply list_elem_of_join; eauto).
  rewrite blocks_join, (shuffled_perm E HE seed R), elem_of_seq in Hj. lia.
Qed.

Lemma blocks_NoDup b : b ∈ blocks → NoDup b.
Proof.
  intros Hb. assert (NoDup (mjoin blocks)) as Hnd.
  { rewrite blocks_join, (shuffled_perm E HE seed R). apply NoDup_seq. }
  clear -Hb Hnd. induction blocks as [|b' ls IH]; [by apply elem_of_nil in Hb|].
  simpl in Hnd. apply NoDup_app in Hnd as (? & _ & ?).
  apply elem_of_cons in Hb as [->|Hb]; auto.
Qed.

Lemma KFold_split_eq :
  KFold_split E k seed R
  = Ok ((λ block, (filter (.∉ block) (seq 0 R), filter (.∈ block) (seq 0 R))) <$> blocks).
Proof. unfold KFold_split. rewrite !decide_False by lia. done. Qed.

End KFold.

(** C4.  For [k_inner ≥ 2] and [R ≥ k_inner] rows, the split succeeds and
    yields [k_inner] folds whose validation index sets are mutually disjoint,
    cover exactly [0 .. R-1], and differ in size by at most one row; the
    training indices of a fold are the rows outside its validation block. *)
Theorem kfold_partition (E : Externals) (HE : ExternalsOk E) (k_inner seed : Z) (R : nat) :
  (2 ≤ k_inner)%Z → Z.to_nat k_inner ≤ R →
  ∃ folds, KFold_split E k_inner seed R = Ok folds
    ∧ length folds = Z.to_nat k_inner
    ∧ (∀ j1 j2 f1 f2 i, folds !! j1 = Some f1 → folds !! j2 = Some f2 →
         i ∈ f1.2 → i ∈ f2.2 → j1 = j2)
    ∧ (∀ i, i < R ↔ ∃ f, f ∈ folds ∧ i ∈ f.2)
    ∧ (∀ f1 f2, f1 ∈ folds → f2 ∈ folds → length f1.2 ≤ S (length f2.2))
    ∧ (∀ f i, f ∈ folds → (i ∈ f.1 ↔ i < R ∧ i ∉ f.2)).
Proof.
  intros Hk HR. eexists. split; [by apply KFold_split_eq|].
  set (blocks := reshape (fold_sizes (Z.to_nat k_inner) R) (shuffled E seed R)).
  assert (Hin : ∀ b i, b ∈ blocks → (i ∈ filter (.∈ b) (seq 0 R) ↔ i ∈ b)).
  { intros b i Hb. rewrite list_elem_of_filter, elem_of_seq. split; [by intros [? _]|].
    intros Hi. pose proof (blocks_elem E HE k_inner seed R Hk HR b i Hb Hi). split; [done|lia]. }
  assert (Hlen : ∀ b, b ∈ blocks → length (filter (.∈ b) (seq 0 R)) = length b).
  { intros b Hb. apply Permutation_length, filter_elem_of_Permutation.
    - exact (blocks_NoDup E HE k_inner seed R Hk HR b Hb).
    - intros i. exact (blocks_elem E HE k_inner seed R Hk HR b i Hb). }
  split_and!.
  - rewrite length_fmap. unfold blocks, fold_sizes.
    by rewrite length_reshape, length_fmap, length_seq.
  - intros j1 j2 f1 f2 i H1 H2.
    apply list_lookup_fmap_Some in H1 as (b1 & -> & Hb1).
    apply list_lookup_fmap_Some in H2 as (b2 & -> & Hb2). simpl.
    rewrite !Hin by eauto using list_elem_of_lookup_2.
    intros Hi1 Hi2. eapply (join_NoDup_lookup blocks); [|done..].
    unfold blocks. rewrite (blocks_join E HE k_inner seed R Hk HR), (shuffled_perm E HE seed R).
    apply NoDup_seq.
  - intros i. split.
    + intros Hi.
    assert (i ∈ mjoin blocks) as (b & Hb & Hib)%list_elem_of_join.
    { unfold blocks. rewrite (blocks_join E HE k_inner seed R Hk HR), (shuffled_perm E HE seed R).
      apply elem_of_seq. lia. }
    eexists (_, _). split; [apply list_elem_of_fmap; exists b; split; [reflexivity|done]|].
    simpl. by apply Hin.
    + intros (f & (b & -> & Hb)%list_elem_of_fmap & Hi). simpl in Hi.
    apply list_elem_of_filter in Hi as [_ Hi%elem_of_seq]. lia.
  - intros f1 f2 (b1 & -> & Hb1)%list_elem_of_fmap (b2 & -> & Hb2)%list_elem_of_fmap.
    simpl. rewrite !Hlen by done.
    assert (Hsz : ∀ b, b ∈ blocks → length b ∈ fold_sizes (Z.to_nat k_inner) R).
    { intros b Hb. rewrite <-(reshape_lengths (fold_sizes (Z.to_nat k_inner) R)
                                 (shuffled E seed R)).
      - by apply list_elem_of_fmap_2.
      - rewrite sum_fold_sizes by lia.
        by rewrite (shuffled_perm E HE seed R), length_seq. }
    eapply fold_sizes_near; eauto.
  - intros f i (b & -> & Hb)%list_elem_of_fmap. simpl.
    rewrite list_elem_of_filter, elem_of_seq, Hin by done. split; intros [? ?]; split; (done || lia).
Qed.

(** ** Running array operations on a heap [h ++ l]

    [h] is the heap a block of code starts from and [l] the objects the block
    has allocated so far: the block's own addresses are [length h + i]. *)

Lemma heap_bind_eq {A B} (m : Heap A) (f : A → Heap B) (h : store) :
  (m ≫= f) h = match m h with Ok (a, h') => f a h' | Err e => Err e end.
Proof. reflexivity. Qed.

Lemma heap_bind_assoc {A B C} (m : Heap A) (f : A → Heap B) (g : B → Heap C) (h : store) :
  ((m ≫= f) ≫= g) h = (m ≫= λ a, f a ≫= g) h.
Proof. rewrite !heap_bind_eq. by destruct (m h) as [[a h']|]. Qed.

Lemma heap_ret_eq {A} (a : A) (h : store) : (mret a : Heap A) h = Ok (a, h).
Proof. reflexivity. Qed.

Lemma heap_lift_eq {A} (r : result A) (h : store) :
  heap_lift r h = match r with Ok a => Ok (a, h) | Err e => Err e end.
Proof. reflexivity. Qed.

Lemma lookup_own (h l : store) (i : nat) : (h ++ l) !! (length h + i) = l !! i.
Proof. by rewrite lookup_app_r, Nat.add_comm, Nat.add_sub by lia. Qed.

Lemma insert_own (h l : store) (i : nat) (v : ndarray) :
  <[length h + i := v]> (h ++ l) = h ++ <[i := v]> l.
Proof. by rewrite insert_app_r. Qed.

Lemma alloc_run (h l : store) (v : ndarray) :
  alloc v (h ++ l) = Ok (length h + length l, h ++ (l ++ [v])).
Proof. unfold alloc. by rewrite length_app, (assoc_L (++)). Qed.

Lemma load_run (h : store) (a : loc) (v : ndarray) :
  h !! a = Some v → load a h = Ok (v, h).
Proof. unfold load. by intros ->. Qed.

Lemma load_matrix_run (h : store) (a : loc) (X : Matrix) :
  h !! a = Some (FloatMat X) → load_matrix a h = Ok (X, h).
Proof. intros Ha. unfold load_matrix. by rewrite heap_bind_eq, (load_run _ _ _ Ha). Qed.

Lemma load_vector_run (h : store) (a : loc) (y : list Q) :
  h !! a = Some (FloatVec y) → load_vector a h = Ok (y, h).
Proof. intros Ha. unfold load_vector. by rewrite heap_bind_eq, (load_run _ _ _ Ha). Qed.

Lemma load_mask_run (h : store) (a : loc) (b : list bool) :
  h !! a = Some (BoolVec b) → load_mask a h = Ok (b, h).
Proof. intros Ha. unfold load_mask. by rewrite heap_bind_eq, (load_run _ _ _ Ha). Qed.

Lemma np_len_run (h : store) (a : loc) (v : ndarray) :
  h !! a = Some v → np_len a h = Ok (nd_len v, h).
Proof. intros Ha. unfold np_len. by rewrite heap_bind_eq, (load_run _ _ _ Ha). Qed.

Lemma np_take_run (h l : store) (a : loc) (ix : list nat) (v : ndarray) :
  (h ++ l) !! a = Some v →
  np_take a ix (h ++ l)
  = match nd_take v ix with
    | Ok v' => Ok (length h + length l, h ++ (l ++ [v']))
    | Err e => Err e
    end.
Proof.
  intros Ha. unfold np_take. rewrite heap_bind_eq, (load_run _ _ _ Ha), heap_bind_eq, heap_lift_eq.
  destruct (nd_take v ix); [apply alloc_run|done].
Qed.

Lemma np_take_matrix_run (h l : store) (a : loc) (ix : list nat) (X : Matrix) :
  (h ++ l) !! a = Some (FloatMat X) →
  np_take a ix (h ++ l)
  = match take_rows X ix with
    | Ok X' => Ok (length h + length l, h ++ (l ++ [FloatMat X']))
    | Err e => Err e
    end.
Proof. intros Ha. rewrite (np_take_run _ _ _ _ _ Ha). simpl. by destruct (take_rows X ix). Qed.

Lemma np_take_vector_run (h l : store) (a : loc) (ix : list nat) (y : list Q) :
  (h ++ l) !! a = Some (FloatVec y) →
  np_take a ix (h ++ l)
  = match take_rows y ix with
    | Ok y' => Ok (length h + length l, h ++ (l ++ [FloatVec y']))
    | Err e => Err e
    end.
Proof. intros Ha. rewrite (np_take_run _ _ _ _ _ Ha). simpl. by destruct (take_rows y ix). Qed.

Lemma np_select_run (h l : store) (a m : loc) (v : ndarray) (b : list bool) :
  (h ++ l) !! a = Some v → (h ++ l) !! m = Some (BoolVec b) →
  np_select a m (h ++ l)
  = match nd_select v b with
    | Ok v' => Ok (length h + length l, h ++ (l ++ [v']))
    | Err e => Err e
    end.
Proof.
  intros Ha Hm. unfold np_select.
  rewrite heap_bind_eq, (load_run _ _ _ Ha), heap_bind_eq, (load_mask_run _ _ _ Hm),
    heap_bind_eq, heap_lift_eq.
  destruct (nd_select v b); [apply alloc_run|done].
Qed.

Lemma np_cols_run (h l : store) (a : loc) (C : list nat) (X : Matrix) :
  (h ++ l) !! a = Some (FloatMat X) →
  np_cols a C (h ++ l)
  = match take_cols X C with
    | Ok X' => Ok (length h + length l, h ++ (l ++ [FloatMat X']))
    | Err e => Err e
    end.
Proof.
  intros Ha. unfold np_cols.
  rewrite heap_bind_eq, (load_matrix_run _ _ _ Ha), heap_bind_eq, heap_lift_eq.
  destruct (take_cols X C); [apply alloc_run|done].
Qed.

Lemma np_assign_cols_run (h : store) (a t : loc) (C : list nat) (X T : Matrix) :
  h !! a = Some (FloatMat X) → h !! t = Some (FloatMat T) →
  np_assign_cols a C t h
  = match assign_cols X C T with
    | Ok X' => Ok (tt, <[a := FloatMat X']> h)
    | Err e => Err e
    end.
Proof.
  intros Ha Ht. unfold np_assign_cols.
  rewrite heap_bind_eq, (load_matrix_run _ _ _ Ha), heap_bind_eq, (load_matrix_run _ _ _ Ht),
    heap_bind_eq, heap_lift_eq.
  by destruct (assign_cols X C T).
Qed.

Lemma np_copy_run (h l : store) (a : loc) (v : ndarray) :
  (h ++ l) !! a = Some v →
  np_copy a (h ++ l) = Ok (length h + length l, h ++ (l ++ [v])).
Proof.
  intros Ha. unfold np_copy. rewrite heap_bind_eq, (load_run _ _ _ Ha). apply alloc_run.
Qed.

Lemma np_ones_run (h l : store) (n : nat) :
  np_ones n (h ++ l) = Ok (length h + length l, h ++ (l ++ [BoolVec (replicate n true)])).
Proof. apply alloc_run. Qed.

Lemma np_clear_run (h l : store) (i : nat) (ix : list nat) (b : list bool) :
  l !! i = Some (BoolVec b) →
  np_clear (length h + i) ix (h ++ l)
  = match clear_at b ix with
    | Some b' => Ok (tt, h ++ <[i := BoolVec b']> l)
    | None => Err IndexError
    end.
Proof.
  intros Ha. unfold np_clear.
  rewrite heap_bind_eq, (load_mask_run _ _ b), heap_bind_eq, heap_lift_eq
    by (by rewrite lookup_own).
  destruct (clear_at b ix); simpl; [|done]. unfold write. by rewrite insert_own.
Qed.

Section LibraryRuns.

Context (E : Externals) (s : script) (random_seed : Z) (num_classes : nat).

Lemma scaler_fit_run (h : store) (a : loc) (X : Matrix) :
  h !! a = Some (FloatMat X) →
  scaler_fit E a h
  = match StandardScaler_fit E X with Ok sc => Ok (sc, h) | Err e => Err e end.
Proof.
  intros Ha. unfold scaler_fit. by rewrite heap_bind_eq, (load_matrix_run _ _ _ Ha).
Qed.

Lemma scaler_transform_run (h l : store) (sc : StandardScaler) (a : loc) (X : Matrix) :
  (h ++ l) !! a = Some (FloatMat X) →
  scaler_transform sc a (h ++ l)
  = match StandardScaler_transform sc X with
    | Ok T => Ok (length h + length l, h ++ (l ++ [FloatMat T]))
    | Err e => Err e
    end.
Proof.
  intros Ha. unfold scaler_transform.
  rewrite heap_bind_eq, (load_matrix_run _ _ _ Ha), heap_bind_eq, heap_lift_eq.
  destruct (StandardScaler_transform sc X); [apply alloc_run|done].
Qed.

Lemma classifier_fit_run (h : store) (cfg : Config) (aX ay : loc) (X : Matrix) (y : list Q) :
  h !! aX = Some (FloatMat X) → h !! ay = Some (FloatVec y) →
  classifier_fit E s random_seed cfg aX ay h
  = match clf_fit E s cfg random_seed X y with Ok m => Ok (m, h) | Err e => Err e end.
Proof.
  intros HX Hy. unfold classifier_fit.
  by rewrite heap_bind_eq, (load_matrix_run _ _ _ HX), heap_bind_eq, (load_vector_run _ _ _ Hy).
Qed.

Lemma predict_proba_run (h l : store) (m : Model E) (a : loc) (X : Matrix) :
  (h ++ l) !! a = Some (FloatMat X) →
  predict_proba E m a (h ++ l)
  = match clf_predict_proba E m X with
    | Ok P => Ok (length h + length l, h ++ (l ++ [FloatMat P]))
    | Err e => Err e
    end.
Proof.
  intros Ha. unfold predict_proba.
  rewrite heap_bind_eq, (load_matrix_run _ _ _ Ha), heap_bind_eq, heap_lift_eq.
  destruct (clf_predict_proba E m X); [apply alloc_run|done].
Qed.

Lemma cross_entropy_run (h : store) (ay aP : loc) (y : list Q) (P : Matrix) :
  h !! ay = Some (FloatVec y) → h !! aP = Some (FloatMat P) →
  cross_entropy E s ay aP h
  = match cross_entropy_of E s y P with Ok q => Ok (q, h) | Err e => Err e end.
Proof.
  intros Hy HP. unfold cross_entropy.
  by rewrite heap_bind_eq, (load_vector_run _ _ _ Hy), heap_bind_eq, (load_matrix_run _ _ _ HP).
Qed.

Lemma f1_run (h : store) (ay aP : loc) (y : list Q) (P : Matrix) :
  h !! ay = Some (FloatVec y) → h !! aP = Some (FloatMat P) →
  f1 E num_classes ay aP h = Ok (f1_micro E num_classes y P, h).
Proof.
  intros Hy HP. unfold f1.
  by rewrite heap_bind_eq, (load_vector_run _ _ _ Hy), heap_bind_eq, (load_matrix_run _ _ _ HP).
Qed.

End LibraryRuns.

(** ** The fold body against the reference *)

Ltac solve_lookup :=
  first [ eassumption
        | rewrite lookup_own; reflexivity
        | apply lookup_app_l_Some; eassumption
        | reflexivity ].

(** Unfold one bind in [H : r = c h] and run its first operation. *)
Ltac heap_op H :=
  first
    [ erewrite np_take_matrix_run in H by solve_lookup
    | erewrite np_take_vector_run in H by solve_lookup
    | erewrite np_cols_run in H by solve_lookup
    | erewrite np_assign_cols_run in H by solve_lookup
    | erewrite np_copy_run in H by solve_lookup
    | erewrite scaler_fit_run in H by solve_lookup
    | erewrite scaler_transform_run in H by solve_lookup
    | erewrite classifier_fit_run in H by solve_lookup
    | erewrite predict_proba_run in H by solve_lookup
    | erewrite cross_entropy_run in H by solve_lookup
    | erewrite f1_run in H by solve_lookup
    | rewrite heap_lift_eq in H
    | rewrite heap_ret_eq in H ].

Ltac destruct_inner H :=
  match type of H with
  | context [match ?r with _ => _ end] =>
      lazymatch r with
      | context [match _ with _ => _ end] => fail
      | _ => destruct r eqn:?
      end
  end.

Ltac rewrite_known H :=
  repeat match goal with
    | Heq : ?t = Ok _ |- _ =>
        lazymatch Heq with
        | H => fail
        | _ => lazymatch type of H with context [t] => rewrite Heq in H end
        end
    end.

Ltac heap_step H :=
  repeat rewrite heap_bind_assoc in H; try rewrite heap_bind_eq in H; heap_op H; simpl in H; rewrite_known H; simpl in H;
  repeat (destruct_inner H; simpl in H; simpl);
  try (rewrite insert_own in H; simpl in H).

(** Run a whole block; what is left is the successful run. *)
Ltac heap_run H := repeat (heap_step H; try done).

Section FoldRuns.

Context (E : Externals).
Variables k_inner random_seed : Z.
Variable continuous_col_ixs : list nat.
Variable num_classes : nat.

Lemma cancer_fold_run (h : store) (aX ay : loc) (X : Matrix) (y : list Q)
    (cfg : Config) (fold : list nat * list nat) :
  h !! aX = Some (FloatMat X) → h !! ay = Some (FloatVec y) →
  match heldout_ce E Cancer random_seed continuous_col_ixs cfg X y fold with
  | Ok q => ∃ extras,
      cancer_fold E Cancer random_seed continuous_col_ixs cfg aX ay fold h
      = Ok (q, h ++ extras)
  | Err e => cancer_fold E Cancer random_seed continuous_col_ixs cfg aX ay fold h = Err e
  end.
Proof.
  intros HX Hy. destruct fold as [ktrain_index kval_index].
  remember (cancer_fold _ _ _ _ _ _ _ _ h) as r eqn:Hr.
  rewrite <-(app_nil_r h) in Hr. unfold cancer_fold, assign_scaled in Hr.
  unfold heldout_ce, fit_scaler, apply_scaler. simpl.
  heap_run Hr. eauto.
Qed.

Lemma sepsis_fold_run (h : store) (aX ay : loc) (X : Matrix) (y : list Q)
    (cfg : Config) (fold : list nat * list nat) :
  h !! aX = Some (FloatMat X) → h !! ay = Some (FloatVec y) →
  match heldout_ce E Sepsis random_seed continuous_col_ixs cfg X y fold with
  | Ok q => ∃ extras,
      sepsis_fold E Sepsis random_seed cfg aX ay fold h = Ok (q, h ++ extras)
  | Err e => sepsis_fold E Sepsis random_seed cfg aX ay fold h = Err e
  end.
Proof.
  intros HX Hy. destruct fold as [ktrain_index kval_index].
  remember (sepsis_fold _ _ _ _ _ _ _ h) as r eqn:Hr.
  rewrite <-(app_nil_r h) in Hr. unfold sepsis_fold in Hr.
  unfold heldout_ce, fit_scaler, apply_scaler. simpl.
  heap_run Hr. eauto.
Qed.

Lemma cancer_refit_run (h : store) (aX ay aXt ayt : loc) (X Xt : Matrix) (y yt : list Q)
    (best : option Config) :
  h !! aX = Some (FloatMat X) → h !! ay = Some (FloatVec y) →
  h !! aXt = Some (FloatMat Xt) → h !! ayt = Some (FloatVec yt) →
  match test_metrics E Cancer random_seed continuous_col_ixs num_classes best X y Xt yt with
  | Ok ms => ∃ extras,
      cancer_refit E Cancer random_seed continuous_col_ixs num_classes best aX ay aXt ayt h
      = Ok (ms, h ++ extras)
  | Err e =>
      cancer_refit E Cancer random_seed continuous_col_ixs num_classes best aX ay aXt ayt h
      = Err e
  end.
Proof.
  intros HX Hy HXt Hyt.
  remember (cancer_refit _ _ _ _ _ _ _ _ _ _ h) as r eqn:Hr.
  rewrite <-(app_nil_r h) in Hr. unfold cancer_refit, assign_scaled in Hr.
  unfold test_metrics, fit_scaler, apply_scaler. simpl.
  heap_run Hr. eauto.
Qed.

Lemma sepsis_refit_run (h : store) (aX ay aXt ayt : loc) (X Xt : Matrix) (y yt : list Q)
    (best : option Config) :
  h !! aX = Some (FloatMat X) → h !! ay = Some (FloatVec y) →
  h !! aXt = Some (FloatMat Xt) → h !! ayt = Some (FloatVec yt) →
  match test_metrics E Sepsis random_seed continuous_col_ixs num_classes best X y Xt yt with
  | Ok ms => ∃ extras,
      sepsis_refit E Sepsis random_seed best aX ay aXt ayt h = Ok (ms, h ++ extras)
  | Err e => sepsis_refit E Sepsis random_seed best aX ay aXt ayt h = Err e
  end.
Proof.
  intros HX Hy HXt Hyt.
  remember (sepsis_refit _ _ _ _ _ _ _ _ h) as r eqn:Hr.
  rewrite <-(app_nil_r h) in Hr. unfold sepsis_refit in Hr.
  unfold test_metrics, fit_scaler, apply_scaler. simpl.
  heap_run Hr. eauto.
Qed.

Lemma refit_and_score_run (s : script) (h : store) (aX ay aXt ayt : loc)
    (X Xt : Matrix) (y yt : list Q) (best : option Config) :
  h !! aX = Some (FloatMat X) → h !! ay = Some (FloatVec y) →
  h !! aXt = Some (FloatMat Xt) → h !! ayt = Some (FloatVec yt) →
  match test_metrics E s random_seed continuous_col_ixs num_classes best X y Xt yt with
  | Ok ms => ∃ extras,
      refit_and_score E s random_seed continuous_col_ixs num_classes best aX ay aXt ayt h
      = Ok (ms, h ++ extras)
  | Err e =>
      refit_and_score E s random_seed continuous_col_ixs num_classes best aX ay aXt ayt h
      = Err e
  end.
Proof.
  intros HX Hy HXt Hyt. destruct s; simpl.
  - by apply cancer_refit_run.
  - by apply sepsis_refit_run.
Qed.

(** Either script: one fold of the program computes the reference held-out
    cross-entropy and only extends the heap. *)
Lemma fold_body_run (s : script) (h : store) (aX ay : loc) (X : Matrix) (y : list Q)
    (cfg : Config) (fold : list nat * list nat) :
  h !! aX = Some (FloatMat X) → h !! ay = Some (FloatVec y) →
  match heldout_ce E s random_seed continuous_col_ixs cfg X y fold with
  | Ok q => ∃ extras,
      fold_body E s random_seed continuous_col_ixs cfg aX ay fold h = Ok (q, h ++ extras)
  | Err e => fold_body E s random_seed continuous_col_ixs cfg aX ay fold h = Err e
  end.
Proof.
  intros HX Hy. destruct s; simpl.
  - by apply cancer_fold_run.
  - by apply sepsis_fold_run.
Qed.

End FoldRuns.

(** A loop over a list runs like its reference as long as each iteration
    does; [I] is what the iterations need of the heap. *)
Lemma heap_mapM_run {A B} (f : A → Heap B) (g : A → result B) (I : store → Prop) :
  (∀ h extras, I h → I (h ++ extras)) →
  (∀ x h, I h →
     match g x with
     | Ok b => ∃ extras, f x h = Ok (b, h ++ extras)
     | Err e => f x h = Err e
     end) →
  ∀ l h, I h →
    match mapM g l with
    | Ok bs => ∃ extras, mapM f l h = Ok (bs, h ++ extras)
    | Err e => mapM f l h = Err e
    end.
Proof.
  intros Hext Hf l. induction l as [|x l IH]; intros h Hh.
  - exists []. by rewrite app_nil_r.
  - cbn [mapM]. rewrite heap_bind_eq. specialize (Hf x h Hh).
    destruct (g x) as [b|e]; simpl; [|by rewrite Hf].
    destruct Hf as [ex1 ->]. rewrite heap_bind_eq.
    specialize (IH (h ++ ex1) (Hext _ _ Hh)).
    destruct (mapM g l) as [bs|e]; simpl; [|by rewrite IH].
    destruct IH as [ex2 ->]. exists (ex1 ++ ex2). by rewrite (assoc_L (++)).
Qed.

Lemma heap_foldM_run {A B} (f : B → A → Heap B) (g : B → A → result B) (I : store → Prop) :
  (∀ h extras, I h → I (h ++ extras)) →
  (∀ b x h, I h →
     match g b x with
     | Ok b' => ∃ extras, f b x h = Ok (b', h ++ extras)
     | Err e => f b x h = Err e
     end) →
  ∀ l b h, I h →
    match foldM g b l with
    | Ok b' => ∃ extras, foldM f b l h = Ok (b', h ++ extras)
    | Err e => foldM f b l h = Err e
    end.
Proof.
  intros Hext Hf l. induction l as [|x l IH]; intros b h Hh.
  - exists []. by rewrite app_nil_r.
  - cbn [foldM]. rewrite heap_bind_eq. specialize (Hf b x h Hh).
    destruct (g b x) as [b'|e]; simpl; [|by rewrite Hf].
    destruct Hf as [ex1 ->]. specialize (IH b' (h ++ ex1) (Hext _ _ Hh)).
    destruct (foldM g b' l) as [b''|e]; [|done].
    destruct IH as [ex2 ->]. exists (ex1 ++ ex2). by rewrite (assoc_L (++)).
Qed.

Section SelectionRuns.

Context (E : Externals).
Variable s : script.
Variables k_inner random_seed : Z.
Variable continuous_col_ixs : list nat.
Variable search_space : SearchSpace.

Lemma holds_app aX ay X y h extras : holds aX ay X y h → holds aX ay X y (h ++ extras).
Proof. intros [? ?]. split; by apply lookup_app_l_Some. Qed.

Lemma crossentropies_run (h : store) (aX ay : loc) (X : Matrix) (y : list Q) (cfg : Config) :
  holds aX ay X y h →
  match heldout_ces E s k_inner random_seed continuous_col_ixs cfg X y with
  | Ok ces => ∃ extras,
      crossentropies E s k_inner random_seed continuous_col_ixs cfg aX ay h
      = Ok (ces, h ++ extras)
  | Err e => crossentropies E s k_inner random_seed continuous_col_ixs cfg aX ay h = Err e
  end.
Proof.
  intros Hh. unfold heldout_ces, crossentropies.
  rewrite heap_bind_eq, (np_len_run _ _ _ (proj1 Hh)), heap_bind_eq, heap_lift_eq. simpl.
  destruct (KFold_split E k_inner random_seed (length X)) as [folds|e]; simpl; [|done].
  apply (heap_mapM_run _ _ (holds aX ay X y)); [apply holds_app| |done].
  intros fold h' [HX Hy]. by apply fold_body_run.
Qed.

Lemma select_best_run (h : store) (aX ay : loc) (X : Matrix) (y : list Q) :
  holds aX ay X y h →
  match select_on_values E s k_inner random_seed continuous_col_ixs search_space X y with
  | Ok best => ∃ extras,
      select_best E s k_inner random_seed continuous_col_ixs search_space aX ay h
      = Ok (best, h ++ extras)
  | Err e =>
      select_best E s k_inner random_seed continuous_col_ixs search_space aX ay h = Err e
  end.
Proof.
  intros Hh. unfold select_on_values, select_best.
  rewrite heap_bind_eq, heap_lift_eq.
  destruct (gen_combinations search_space) as [combos|e]; simpl; [|done].
  rewrite heap_bind_eq.
  set (g := λ (best : option Q * option Config) (cfg : Config),
              ces ← heldout_ces E s k_inner random_seed continuous_col_ixs cfg X y;
              Ok (update_best best cfg ces)).
  assert (Hstep : ∀ best cfg h', holds aX ay X y h' →
            match g best cfg with
            | Ok b' => ∃ extras,
                select_step E s k_inner random_seed continuous_col_ixs aX ay best cfg h'
                = Ok (b', h' ++ extras)
            | Err e =>
                select_step E s k_inner random_seed continuous_col_ixs aX ay best cfg h'
                = Err e
            end).
  { intros best cfg h' Hh'. unfold select_step, g. rewrite heap_bind_eq.
    pose proof (crossentropies_run h' aX ay X y cfg Hh') as Hces.
    destruct (heldout_ces _ _ _ _ _ cfg X y) as [ces|e]; simpl; [|by rewrite Hces].
    destruct Hces as [extras ->]. by exists extras. }
  pose proof (heap_foldM_run _ g _ (holds_app aX ay X y) Hstep combos (None, None) h Hh)
    as Hfold.
  destruct (foldM g _ combos) as [best|e]; simpl; [|by rewrite Hfold].
  destruct Hfold as [extras ->]. by exists extras.
Qed.

End SelectionRuns.

(** ** The selected configuration *)

Lemma Qltb_true (a b : Q) : Qltb a b = true ↔ (a < b)%Q.
Proof.
  unfold Qltb. rewrite negb_true_iff, <-not_true_iff_false, Qle_bool_iff.
  split; [apply Qnot_le_lt|apply Qlt_not_le].
Qed.

Lemma Qltb_false (a b : Q) : Qltb a b = false ↔ (b <= a)%Q.
Proof. unfold Qltb. by rewrite negb_false_iff, Qle_bool_iff. Qed.

Lemma first_min_singleton score c : first_min score [c] c 0.
Proof.
  split_and!; [done| |intros; lia].
  intros c' ->%list_elem_of_singleton. apply Qle_refl.
Qed.

Lemma first_min_keep score pre b i x :
  first_min score pre b i → (score b <= score x)%Q → first_min score (pre ++ [x]) b i.
Proof.
  intros (Hi & Hle & Hlt) Hx. split_and!.
  - by apply lookup_app_l_Some.
  - intros c [Hc| ->%list_elem_of_singleton]%elem_of_app; auto.
  - intros j c Hj Hc. apply (Hlt j); [done|].
    rewrite lookup_app_l in Hc; [done|]. apply lookup_lt_Some in Hi. lia.
Qed.

Lemma first_min_replace score pre b i x :
  first_min score pre b i → (score x < score b)%Q →
  first_min score (pre ++ [x]) x (length pre).
Proof.
  intros (Hi & Hle & Hlt) Hx. split_and!.
  - by apply list_lookup_middle.
  - intros c [Hc| ->%list_elem_of_singleton]%elem_of_app; [|apply Qle_refl].
    apply Qlt_le_weak. eapply Qlt_le_trans; eauto.
  - intros j c Hj Hc. rewrite lookup_app_l in Hc by done.
    eapply Qlt_le_trans; eauto using list_elem_of_lookup_2.
Qed.

Section SelectFold.

Variable cesf : Config → result (list Q).
Variable score : Config → Q.

Let g (best : option Q * option Config) (cfg : Config) : result (option Q * option Config) :=
  ces ← cesf cfg; Ok (update_best best cfg ces).

Lemma select_fold_tracks (l pre : list Config) (st : option Q * option Config) :
  (∀ c, c ∈ l → np_mean <$> cesf c = Ok (score c)) →
  tracks score pre st →
  ∃ st', foldM g st l = Ok st' ∧ tracks score (pre ++ l) st'.
Proof.
  revert pre st. induction l as [|x l IH]; intros pre st Hl Hst.
  - exists st. by rewrite app_nil_r.
  - assert (∃ ces, cesf x = Ok ces ∧ np_mean ces = score x) as (ces & Hces & Hmean).
    { specialize (Hl x ltac:(left)). destruct (cesf x) as [ces|]; simpl in Hl; [|done].
      exists ces. split; [done|congruence]. }
    cbn [foldM].
    assert (g st x = Ok (update_best st x ces)) as -> by (unfold g; by rewrite Hces).
    simpl.
    rewrite (cons_middle x pre l), (assoc_L (++)).
    apply IH; [intros c Hc; apply Hl; by right|].
    right. destruct Hst as [[-> ->]|(b & i & -> & Hmin)]; simpl.
    + exists x, 0. rewrite Hmean. split; [done|apply first_min_singleton].
    + rewrite Hmean. destruct (Qltb (score x) (score b)) eqn:Hlt.
      * exists x, (length pre). split; [done|].
        apply Qltb_true in Hlt. eauto using first_min_replace.
      * exists b, i. split; [done|].
        apply Qltb_false in Hlt. eauto using first_min_keep.
Qed.

End SelectFold.

Lemma gen_combinations_nonempty (space : SearchSpace) (combos : list Config) :
  gen_combinations space = Ok combos → combos ≠ [].
Proof.
  revert combos. induction space as [|[name values] rest IH]; intros combos; simpl.
  - by intros [= <-].
  - destruct values as [|v values]; [done|].
    destruct (gen_combinations rest) as [tails|]; simpl; [|done].
    intros [= <-]. specialize (IH tails eq_refl).
    destruct tails; [done|]. done.
Qed.

(** C1.  On a training set held at [aX], [ay], with a search space that
    [gen_combinations] accepts, and every configuration's k-fold evaluation
    completing with mean held-out cross-entropy [score c] (which needs at
    least two folds and at least as many rows as folds), the selection loop
    returns a configuration of minimal mean, and among the minimal ones the
    first in the enumeration order; it leaves the heap it started from as it
    was. *)
Theorem select_best_minimal (E : Externals) (s : script) (k_inner random_seed : Z)
    (continuous_col_ixs : list nat) (search_space : SearchSpace)
    (h : store) (aX ay : loc) (X : Matrix) (y : list Q)
    (combos : list Config) (score : Config → Q) :
  h !! aX = Some (FloatMat X) → h !! ay = Some (FloatVec y) →
  gen_combinations search_space = Ok combos →
  (∀ c, c ∈ combos →
     mean_heldout_ce E s k_inner random_seed continuous_col_ixs c X y = Ok (score c)) →
  ∃ best i extras,
    select_best E s k_inner random_seed continuous_col_ixs search_space aX ay h
    = Ok (Some best, h ++ extras)
    ∧ combos !! i = Some best
    ∧ (∀ c, c ∈ combos → (score best <= score c)%Q)
    ∧ (∀ j c, j < i → combos !! j = Some c → (score best < score c)%Q).
Proof.
  intros HX Hy Hcombos Hscore.
  pose proof (select_best_run E s k_inner random_seed continuous_col_ixs search_space
                h aX ay X y (conj HX Hy)) as Hrun.
  unfold select_on_values in Hrun. rewrite Hcombos in Hrun. simpl in Hrun.
  destruct (select_fold_tracks
              (λ c, heldout_ces E s k_inner random_seed continuous_col_ixs c X y)
              score combos [] (None, None)) as (st & Hst & Htr).
  - intros c Hc. apply (Hscore c Hc).
  - by left.
  - simpl in Hst. rewrite Hst in Hrun. simpl in Hrun. destruct Hrun as [extras Hrun].
    simpl in Htr. destruct Htr as [[Hnil _]|(b & i & -> & Hi & Hle & Hlt)].
    + by apply gen_combinations_nonempty in Hcombos.
    + exists b, i, extras. done.
Qed.

(** ** What a successful run says *)

Lemma run_Ok_inv {A} (r : result A) (c : result (A * store)) (h : store) :
  match r with
  | Ok a => ∃ extras, c = Ok (a, h ++ extras)
  | Err e => c = Err e
  end →
  ∀ a h', c = Ok (a, h') → r = Ok a ∧ h `prefix_of` h'.
Proof.
  intros Hrun a h' Hc. destruct r as [a0|e].
  - destruct Hrun as [extras Hrun]. rewrite Hrun in Hc. injection Hc as -> <-.
    split; [done|]. by exists extras.
  - congruence.
Qed.

Lemma prefix_lookup_Some (h h' : store) (a : loc) (v : ndarray) :
  h `prefix_of` h' → h !! a = Some v → h' !! a = Some v.
Proof. intros [extras ->] Ha. by apply lookup_app_l_Some. Qed.

(** Inversion of a successful bind in the error monad. *)
Lemma result_bind_Ok {A B} (m : result A) (f : A → result B) (b : B) :
  m ≫= f = Ok b → ∃ a, m = Ok a ∧ f a = Ok b.
Proof. destruct m as [a|e]; simpl; [eauto|done]. Qed.

(** C10.  In the cancer script a fold, the whole selection loop and the
    final refit only add array objects to the heap: every array that existed
    before ([X_train], [y_train], and with them [X_dev], [X], [y]) is
    unchanged afterwards, the in-place scaling having written to the copies
    made by integer-array indexing and [copy].  So every fold, every
    configuration and the refit read the unscaled [X_train]. *)
Theorem inner_loop_leaves_arrays (E : Externals) (k_inner random_seed : Z)
    (continuous_col_ixs : list nat) (num_classes : nat) (search_space : SearchSpace)
    (h : store) (aX ay : loc) (X : Matrix) (y : list Q) :
  h !! aX = Some (FloatMat X) → h !! ay = Some (FloatVec y) →
  (∀ cfg fold q h',
     cancer_fold E Cancer random_seed continuous_col_ixs cfg aX ay fold h = Ok (q, h') →
     h `prefix_of` h')
  ∧ (∀ best h',
       select_best E Cancer k_inner random_seed continuous_col_ixs search_space aX ay h
       = Ok (best, h') →
       h `prefix_of` h' ∧ h' !! aX = Some (FloatMat X) ∧ h' !! ay = Some (FloatVec y))
  ∧ (∀ best aXt ayt Xt yt ms h',
       h !! aXt = Some (FloatMat Xt) → h !! ayt = Some (FloatVec yt) →
       cancer_refit E Cancer random_seed continuous_col_ixs num_classes best aX ay aXt ayt h
       = Ok (ms, h') →
       h `prefix_of` h').
Proof.
  intros HX Hy. split_and!.
  - intros cfg fold q h' Hrun.
    by eapply run_Ok_inv; [apply (cancer_fold_run E random_seed continuous_col_ixs h aX ay X y)|].
  - intros best h' Hrun.
    assert (h `prefix_of` h') as Hpre.
    { eapply run_Ok_inv; [|done].
      by apply (select_best_run E Cancer k_inner random_seed continuous_col_ixs
                  search_space h aX ay X y). }
    eauto using prefix_lookup_Some.
  - intros best aXt ayt Xt yt ms h' HXt Hyt Hrun.
    by eapply run_Ok_inv;
      [apply (cancer_refit_run E random_seed continuous_col_ixs num_classes
                h aX ay aXt ayt X Xt y yt)|].
Qed.

(** C2.  In both scripts, a fold's score is the cross-entropy obtained by
    fitting the scaler on the fold's training rows only, scaling the training
    and the validation rows with that one transform, fitting the classifier
    on the scaled training rows and predicting on the scaled validation rows;
    the final refit does the same with the training subsample and the test
    holdout.  No other scaler is involved, and none is fit on validation or
    test rows. *)
Theorem scaler_fit_on_training_only (E : Externals) (s : script) (random_seed : Z)
    (continuous_col_ixs : list nat) (num_classes : nat)
    (h : store) (aX ay : loc) (X : Matrix) (y : list Q) :
  h !! aX = Some (FloatMat X) → h !! ay = Some (FloatVec y) →
  (∀ cfg fold q h',
     fold_body E s random_seed continuous_col_ixs cfg aX ay fold h = Ok (q, h') →
     ∃ X_ktrain X_kval y_ktrain y_kval sc X_ktrain' X_kval' m P,
       take_rows X fold.1 = Ok X_ktrain ∧ take_rows X fold.2 = Ok X_kval
       ∧ take_rows y fold.1 = Ok y_ktrain ∧ take_rows y fold.2 = Ok y_kval
       ∧ fit_scaler E s continuous_col_ixs X_ktrain = Ok sc
       ∧ apply_scaler s continuous_col_ixs sc X_ktrain = Ok X_ktrain'
       ∧ clf_fit E s cfg random_seed X_ktrain' y_ktrain = Ok m
       ∧ apply_scaler s continuous_col_ixs sc X_kval = Ok X_kval'
       ∧ clf_predict_proba E m X_kval' = Ok P
       ∧ cross_entropy_of E s y_kval P = Ok q)
  ∧ (∀ best aXt ayt Xt yt ms h',
       h !! aXt = Some (FloatMat Xt) → h !! ayt = Some (FloatVec yt) →
       refit_and_score E s random_seed continuous_col_ixs num_classes best aX ay aXt ayt h
       = Ok (ms, h') →
       ∃ cfg sc X' Xt' m P ce,
         best = Some cfg
         ∧ fit_scaler E s continuous_col_ixs X = Ok sc
         ∧ apply_scaler s continuous_col_ixs sc X = Ok X'
         ∧ clf_fit E s cfg random_seed X' y = Ok m
         ∧ apply_scaler s continuous_col_ixs sc Xt = Ok Xt'
         ∧ clf_predict_proba E m Xt' = Ok P
         ∧ cross_entropy_of E s yt P = Ok ce
         ∧ ms !! 0 = Some ("cross_entropy"%string, ce)).
Proof.
  intros HX Hy. split.
  - intros cfg fold q h' Hrun.
    destruct (run_Ok_inv _ _ _
                (fold_body_run E random_seed continuous_col_ixs s h aX ay X y cfg fold HX Hy)
                _ _ Hrun) as [Href _].
    unfold heldout_ce in Href.
    repeat (apply result_bind_Ok in Href as (? & ? & Href)).
    naive_solver.
  - intros best aXt ayt Xt yt ms h' HXt Hyt Hrun.
    destruct (run_Ok_inv _ _ _
                (refit_and_score_run E random_seed continuous_col_ixs num_classes s
                   h aX ay aXt ayt X Xt y yt best HX Hy HXt Hyt)
                _ _ Hrun) as [Href _].
    unfold test_metrics in Href.
    repeat (apply result_bind_Ok in Href as (? & ? & Href)).
    destruct best as [cfg|]; [|done]. simplify_eq/=.
    eexists _, _, _, _, _, _, _. split_and!; try done. by destruct s.
Qed.

(** ** Scaling the continuous columns *)

Lemma mapM_lookup_at {A} (row : list A) (C : list nat) (srow : list A) :
  mapM (row !!.) C = Some srow →
  length srow = length C ∧ ∀ k j, C !! k = Some j → srow !! k = row !! j.
Proof.
  intros HF%mapM_Some_1. split; [symmetry; by eapply Forall2_length|].
  intros k j Hk. destruct (Forall2_lookup_l _ _ _ _ _ HF Hk) as (x & -> & Hx). done.
Qed.

Lemma assign_at_spec (C : list nat) (row t row' : list Q) :
  NoDup C → assign_at row C t = Some row' →
  length row' = length row
  ∧ (∀ j, j ∉ C → row' !! j = row !! j)
  ∧ (∀ k j, C !! k = Some j → row' !! j = t !! k).
Proof.
  revert row t. induction C as [|c C IH]; intros row t Hnd Has.
  - destruct t; simplify_eq/=. split_and!; [done|done|]. intros k j Hk. done.
  - destruct t as [|x t]; simplify_eq/=. case_decide as Hc; [|done].
    apply NoDup_cons in Hnd as [Hc' Hnd].
    destruct (IH _ _ Hnd Has) as (Hlen & Hout & Hin).
    rewrite length_insert in Hlen. split_and!; [done| |].
    + intros j [Hj1 Hj2]%not_elem_of_cons.
      rewrite (Hout j Hj2). by apply list_lookup_insert_ne.
    + intros [|k] j Hk; simpl in *.
      * injection Hk as ->. rewrite (Hout j Hc'). by apply list_lookup_insert_eq.
      * by apply Hin.
Qed.

Lemma assign_cols_rows (X : Matrix) (C : list nat) (T X' : Matrix) :
  assign_cols X C T = Ok X' →
  length X' = length X
  ∧ ∀ r row t, X !! r = Some row → T !! r = Some t →
      ∃ row', X' !! r = Some row' ∧ assign_at row C t = Some row'.
Proof.
  unfold assign_cols. intros HX'. repeat case_decide; try done.
  destruct (mapM _ _) as [X''|] eqn:HM; simplify_eq/=.
  apply mapM_Some_1 in HM. pose proof (Forall2_length _ _ _ HM) as Hlen.
  rewrite length_zip in Hlen. split; [lia|].
  intros r row t Hrow Ht.
  assert (zip X T !! r = Some (row, t)) as Hz by (by apply lookup_zip_Some).
  destruct (Forall2_lookup_l _ _ _ _ _ HM Hz) as (row' & ? & ?). eauto.
Qed.

Lemma take_cols_rows (X : Matrix) (C : list nat) (sel : Matrix) :
  take_cols X C = Ok sel →
  length sel = length X
  ∧ ∀ r row, X !! r = Some row →
      ∃ srow, sel !! r = Some srow ∧ mapM (row !!.) C = Some srow.
Proof.
  unfold take_cols. destruct (mapM _ X) as [sel'|] eqn:HM; simpl; [|done].
  intros [= ->]. apply mapM_Some_1 in HM. split; [symmetry; by eapply Forall2_length|].
  intros r row Hrow. destruct (Forall2_lookup_l _ _ _ _ _ HM Hrow) as (srow & ? & ?). eauto.
Qed.

(** Column [k] of [X[:, C]] is column [C[k]] of [X]. *)
Lemma take_cols_column (X : Matrix) (C : list nat) (sel : Matrix) (k j : nat) :
  take_cols X C = Ok sel → C !! k = Some j → column k sel = column j X.
Proof.
  unfold take_cols. destruct (mapM _ X) as [sel'|] eqn:HM; simpl; [|done].
  intros [= ->] Hk. apply mapM_Some_1 in HM. unfold column.
  induction HM as [|row srow X sel Hrow _ IH]; [done|]. simpl. f_equal; [|done].
  apply mapM_lookup_at in Hrow as [_ Hrow]. by rewrite (Hrow k j Hk).
Qed.

Lemma take_cols_ncols (X : Matrix) (C : list nat) (sel : Matrix) :
  take_cols X C = Ok sel → sel ≠ [] → ncols sel = length C.
Proof.
  intros Hsel Hne. destruct sel as [|srow sel]; [done|]. clear Hne.
  apply take_cols_rows in Hsel as [Hlen Hrows]. destruct X as [|row X]; [done|].
  destruct (Hrows 0 row eq_refl) as (srow' & [= <-] & HM).
  unfold ncols. simpl. by apply mapM_lookup_at in HM as [? _].
Qed.

Section Scaling.

Context (E : Externals).
Variable C : list nat.

(** The statistics of a scaler fit on the columns [C] of [P_fit]. *)
Lemma fit_scaler_stats (P_fit : Matrix) (sc : StandardScaler) (k j : nat) :
  fit_scaler E Cancer C P_fit = Ok sc → C !! k = Some j →
  mean_ sc !! k = Some (np_mean (column j P_fit))
  ∧ scale_ sc !! k = Some (column_scale E (column j P_fit)).
Proof.
  unfold fit_scaler. intros (sel & Hsel & Hfit)%result_bind_Ok Hk.
  unfold StandardScaler_fit in Hfit. case_decide as Hne; [done|]. injection Hfit as <-.
  simpl. unfold columns. rewrite !list_lookup_fmap.
  assert (sel ≠ []) as Hsel' by (intros ->; apply Hne; by left).
  rewrite (take_cols_ncols _ _ _ Hsel Hsel').
  assert (seq 0 (length C) !! k = Some k) as ->.
  { apply lookup_seq. split; [done|]. by eapply lookup_lt_Some. }
  simpl. by rewrite (take_cols_column _ _ _ _ _ Hsel Hk).
Qed.

Lemma scale_row_lookup (sc : StandardScaler) (srow : list Q) (k : nat) (x m sd : Q) :
  srow !! k = Some x → mean_ sc !! k = Some m → scale_ sc !! k = Some sd →
  scale_row sc srow !! k = Some (standardize x m sd).
Proof.
  intros Hx Hm Hsd. unfold scale_row. apply lookup_zip_with_Some.
  exists x, (m, sd). split_and!; [done|done|]. by apply lookup_zip_Some.
Qed.

(** The reference transform on the cancer script's columns: entries outside
    [C] are kept, entries in [C] are standardized with the statistics of
    their column in the partition the scaler was fit on. *)
Lemma apply_scaler_entries (P_fit : Matrix) (sc : StandardScaler) (P P' : Matrix) :
  NoDup C → fit_scaler E Cancer C P_fit = Ok sc →
  apply_scaler Cancer C sc P = Ok P' →
  length P' = length P
  ∧ ∀ r row, P !! r = Some row →
      ∃ row', P' !! r = Some row' ∧ length row' = length row
        ∧ ∀ j x, row !! j = Some x →
            row' !! j = Some (if decide (j ∈ C)
                              then standardize x (np_mean (column j P_fit))
                                                 (column_scale E (column j P_fit))
                              else x).
Proof.
  intros Hnd Hfit. unfold apply_scaler.
  intros (sel & Hsel & (T & HT & Hassign)%result_bind_Ok)%result_bind_Ok.
  apply assign_cols_rows in Hassign as [Hlen Hrows]. split; [done|].
  intros r row Hrow.
  apply take_cols_rows in Hsel as [Hlsel Hsel].
  destruct (Hsel r row Hrow) as (srow & Hsrow & HM).
  unfold StandardScaler_transform in HT. repeat case_decide; try done. injection HT as <-.
  assert ((scale_row sc <$> sel) !! r = Some (scale_row sc srow)) as HTr
    by (by rewrite list_lookup_fmap, Hsrow).
  destruct (Hrows r row (scale_row sc srow) Hrow HTr) as (row' & Hrow' & Has).
  exists row'. apply (assign_at_spec _ _ _ _ Hnd) in Has as (Hl & Hout & Hin).
  split_and!; [done..|]. intros j x Hx. case_decide as Hj.
  - apply list_elem_of_lookup in Hj as [k Hk].
    rewrite (Hin k j Hk). apply mapM_lookup_at in HM as [_ HM].
    destruct (fit_scaler_stats P_fit sc k j Hfit Hk) as [Hm Hsd].
    apply scale_row_lookup; [|done..]. by rewrite (HM k j Hk).
  - by rewrite (Hout j Hj).
Qed.

End Scaling.

(** *** The scaling succeeds on a well-shaped partition *)

Lemma take_cols_Ok (P : Matrix) (C : list nat) (D : nat) :
  Forall (λ row, length row = D) P → Forall (λ j, j < D) C →
  ∃ sel, take_cols P C = Ok sel ∧ length sel = length P
    ∧ Forall (λ srow, length srow = length C) sel.
Proof.
  intros HP HC. unfold take_cols.
  destruct (mapM _ P) as [sel|] eqn:HM; simpl.
  - exists sel. apply mapM_Some_1 in HM. split_and!; [done|symmetry; by eapply Forall2_length|].
    apply Forall_lookup. intros r srow Hsrow.
    destruct (Forall2_lookup_r _ _ _ _ _ HM Hsrow) as (row & _ & Hrow).
    by apply mapM_lookup_at in Hrow as [? _].
  - exfalso. apply mapM_None_1, Exists_exists in HM as (row & Hrow & HM).
    apply mapM_None_1, Exists_exists in HM as (j & Hj & Hnone).
    apply lookup_ge_None in Hnone.
    rewrite Forall_forall in HP. rewrite Forall_forall in HC.
    specialize (HP row Hrow). specialize (HC j Hj). lia.
Qed.

Lemma assign_at_Ok (C : list nat) (row t : list Q) :
  Forall (λ j, j < length row) C → length t = length C → is_Some (assign_at row C t).
Proof.
  revert row t. induction C as [|c C IH]; intros row [|x t] HC Hlen; simplify_eq/=; [done|].
  apply Forall_cons in HC as [Hc HC]. rewrite decide_True by done.
  apply IH; [by rewrite length_insert|done].
Qed.

Lemma fit_scaler_lengths (E : Externals) (C : list nat) (P_fit : Matrix) (sc : StandardScaler) :
  fit_scaler E Cancer C P_fit = Ok sc →
  length (mean_ sc) = length C ∧ length (scale_ sc) = length C.
Proof.
  unfold fit_scaler. intros (sel & Hsel & Hfit)%result_bind_Ok.
  unfold StandardScaler_fit in Hfit. case_decide as Hne; [done|]. injection Hfit as <-.
  simpl. unfold columns. rewrite !length_fmap, length_seq.
  assert (sel ≠ []) as Hsel' by (intros ->; apply Hne; by left).
  by rewrite (take_cols_ncols _ _ _ Hsel Hsel').
Qed.

Lemma scale_row_length (sc : StandardScaler) (srow : list Q) (n : nat) :
  length (mean_ sc) = n → length (scale_ sc) = n → length srow = n →
  length (scale_row sc srow) = n.
Proof.
  intros Hm Hs Hr. unfold scale_row. rewrite length_zip_with, length_zip. lia.
Qed.

Lemma apply_scaler_Ok (E : Externals) (C : list nat) (P_fit : Matrix) (sc : StandardScaler)
    (P : Matrix) (D : nat) :
  fit_scaler E Cancer C P_fit = Ok sc →
  P ≠ [] → Forall (λ row, length row = D) P → Forall (λ j, j < D) C →
  ∃ P', apply_scaler Cancer C sc P = Ok P'.
Proof.
  intros [Hm Hs]%fit_scaler_lengths Hne HP HC. unfold apply_scaler.
  destruct (take_cols_Ok P C D HP HC) as (sel & -> & Hlsel & Hsel). simpl.
  unfold StandardScaler_transform.
  rewrite decide_False by (rewrite Hlsel; by destruct P).
  rewrite decide_True by (by rewrite Hm). simpl.
  unfold assign_cols. rewrite length_fmap, decide_True by done.
  rewrite decide_True.
  2:{ apply Forall_fmap, Forall_forall. intros srow Hsrow. simpl.
      apply scale_row_length; [done..|]. by apply (proj1 (Forall_forall _ _) Hsel). }
  destruct (mapM _ _) as [P'|] eqn:HM; simpl; [eauto|]. exfalso.
  apply mapM_None_1, Exists_exists in HM as ([row t] & Hin & Hnone). simpl in Hnone.
  apply list_elem_of_lookup in Hin as [r [Hrow Ht]%lookup_zip_Some].
  apply list_lookup_fmap_Some in Ht as (srow & -> & Hsrow).
  destruct (assign_at_Ok C row (scale_row sc srow)) as [row' Hrow']; [| |congruence].
  - rewrite (Forall_lookup_1 _ _ _ _ HP Hrow). done.
  - apply scale_row_length; [done..|]. by apply (Forall_lookup_1 _ _ _ _ Hsel Hsrow).
Qed.

Lemma assign_scaled_run (C : list nat) (sc : StandardScaler) (h : store) (a : loc)
    (P : Matrix) :
  h !! a = Some (FloatMat P) →
  match apply_scaler Cancer C sc P with
  | Ok P' => ∃ extras, assign_scaled C sc a a h = Ok (tt, <[a := FloatMat P']> h ++ extras)
  | Err e => assign_scaled C sc a a h = Err e
  end.
Proof.
  intros Ha. remember (assign_scaled C sc a a h) as r eqn:Hr.
  rewrite <-(app_nil_r h) in Hr. unfold assign_scaled in Hr.
  unfold apply_scaler. heap_run Hr.
  rewrite insert_app_l in Hr by (by eapply lookup_lt_Some). eauto.
Qed.

(** C8.  [A[:, C] = scaler.transform(A[:, C])] for a duplicate-free list [C]
    of column positions and a scaler fit on the columns [C] of a partition
    [P_fit].  Whenever the statement completes, the array keeps its shape,
    every entry in a column outside [C] keeps its value, every entry [x] in a
    column [j] of [C] becomes [(x - mean) / scale] for the mean and scale of
    column [j] of [P_fit], and no other array that existed before is changed;
    and it does complete on a non-empty array whose rows all have [D] columns
    when the positions in [C] are below [D]. *)
Theorem scaling_replaces_only_continuous (E : Externals) (C : list nat)
    (P_fit : Matrix) (sc : StandardScaler) (h : store) (a : loc) (P : Matrix) :
  NoDup C →
  fit_scaler E Cancer C P_fit = Ok sc →
  h !! a = Some (FloatMat P) →
  (∀ h', assign_scaled C sc a a h = Ok (tt, h') →
     ∃ P', h' !! a = Some (FloatMat P')
       ∧ length P' = length P
       ∧ (∀ r row, P !! r = Some row →
            ∃ row', P' !! r = Some row' ∧ length row' = length row
              ∧ ∀ j x, row !! j = Some x →
                  row' !! j = Some (if decide (j ∈ C)
                                    then standardize x (np_mean (column j P_fit))
                                                       (column_scale E (column j P_fit))
                                    else x))
       ∧ (∀ a' v, a' ≠ a → h !! a' = Some v → h' !! a' = Some v))
  ∧ (∀ D, P ≠ [] → Forall (λ row, length row = D) P → Forall (λ j, j < D) C →
       ∃ h', assign_scaled C sc a a h = Ok (tt, h')).
Proof.
  intros Hnd Hfit Ha.
  pose proof (assign_scaled_run C sc h a P Ha) as Href. split.
  - intros h' Hrun.
    destruct (apply_scaler Cancer C sc P) as [P'|e] eqn:Happ; [|congruence].
    destruct Href as [extras Href]. rewrite Href in Hrun. injection Hrun as <-.
    exists P'. split_and!.
    + apply lookup_app_l_Some, list_lookup_insert_eq. by eapply lookup_lt_Some.
    + by eapply apply_scaler_entries.
    + by eapply apply_scaler_entries.
    + intros a' v Hne Ha'. apply lookup_app_l_Some. by rewrite list_lookup_insert_ne.
  - intros D Hne HP HC.
    destruct (apply_scaler_Ok E C P_fit sc P D Hfit Hne HP HC) as [P' Happ].
    rewrite Happ in Href. destruct Href as [extras Href]. eauto.
Qed.

(** ** Index arrays, masks and sample sizes *)

Lemma take_rows_Ok {A} (X : list A) (ix : list nat) :
  (∀ i, i ∈ ix → i < length X) →
  ∃ X', take_rows X ix = Ok X' ∧ length X' = length ix.
Proof.
  intros Hix. unfold take_rows.
  destruct (mapM (X !!.) ix) as [X'|] eqn:HM.
  - exists X'. split; [done|]. symmetry. by eapply length_mapM.
  - apply mapM_None_1, Exists_exists in HM as (i & Hi & Hnone).
    apply lookup_ge_None in Hnone. specialize (Hix i Hi). lia.
Qed.

Lemma clear_at_spec (ix : list nat) (m : list bool) :
  (∀ i, i ∈ ix → i < length m) →
  ∃ m', clear_at m ix = Some m' ∧ length m' = length m
    ∧ ∀ i, m' !! i = if decide (i ∈ ix) then (λ _, false) <$> m !! i else m !! i.
Proof.
  revert m. induction ix as [|i0 ix IH]; intros m Hix; simpl.
  - exists m. by split_and!.
  - rewrite decide_True by (apply Hix; left).
    destruct (IH (<[i0:=false]> m)) as (m' & Hm' & Hlen & Hlook).
    { intros i Hi. rewrite length_insert. apply Hix. by right. }
    exists m'. rewrite length_insert in Hlen. split_and!; [done..|].
    intros i. rewrite Hlook. assert (i0 < length m) as Hi0 by (apply Hix; left).
    destruct (decide (i = i0)) as [->|Hne].
    + rewrite list_lookup_insert_eq by done. rewrite (decide_True (P := i0 ∈ i0 :: ix)) by left.
      destruct (lookup_lt_is_Some_2 m i0 Hi0) as [b ->]. by case_decide.
    + rewrite list_lookup_insert_ne by done.
      destruct (decide (i ∈ ix)) as [Hi|Hi].
      * by rewrite decide_True by (by right).
      * rewrite decide_False; [done|]. by intros [?|?]%elem_of_cons.
Qed.

Lemma count_true_replicate (n : nat) : count_true (replicate n true) = n.
Proof. unfold count_true. induction n as [|n IH]; [done|]. simpl. by rewrite IH. Qed.

Lemma count_true_clear (m : list bool) (i : nat) :
  m !! i = Some true → S (count_true (<[i:=false]> m)) = count_true m.
Proof.
  unfold count_true. revert i. induction m as [|b m IH]; intros [|i] Hi; simplify_eq/=.
  - done.
  - specialize (IH i Hi). destruct b; [exact (f_equal S IH)|exact IH].
Qed.

Lemma clear_at_count (ix : list nat) (m m' : list bool) :
  NoDup ix → (∀ i, i ∈ ix → m !! i = Some true) → clear_at m ix = Some m' →
  count_true m' + length ix = count_true m.
Proof.
  revert m. induction ix as [|i0 ix IH]; intros m Hnd Hix Hm'; simplify_eq/=; [lia|].
  case_decide; [|done]. apply NoDup_cons in Hnd as [Hi0 Hnd].
  assert (∀ i, i ∈ ix → <[i0:=false]> m !! i = Some true) as Hix'.
  { intros i Hi. rewrite list_lookup_insert_ne by (by intros ->). apply Hix. by right. }
  pose proof (IH _ Hnd Hix' Hm') as IH'.
  pose proof (count_true_clear m i0 (Hix i0 ltac:(left))) as Hc. lia.
Qed.

Lemma select_mask_length {A} (X : list A) (m : list bool) (X' : list A) :
  select_mask X m = Ok X' → length X' = count_true m.
Proof.
  unfold select_mask, count_true. case_decide as Hlen; [|done]. intros [= <-].
  rewrite length_fmap. revert m Hlen.
  induction X as [|x X IH]; intros [|b m] Hlen; simplify_eq/=; [done|].
  specialize (IH m Hlen). destruct b; [exact (f_equal S IH)|exact IH].
Qed.

Lemma elem_of_flatnonzero (m : list bool) (i : nat) : i ∈ flatnonzero m ↔ m !! i = Some true.
Proof.
  unfold flatnonzero. rewrite list_elem_of_filter, elem_of_seq. split; [by intros [? _]|].
  intros Hi. split; [done|]. apply lookup_lt_Some in Hi. lia.
Qed.

Lemma py_int_scale (a : Z) (b : positive) (n : nat) :
  py_int ((a # b) * inject_Z (Z.of_nat n)) = Z.quot (a * Z.of_nat n) (Zpos b).
Proof. unfold py_int. simpl. by rewrite Pos.mul_1_r. Qed.

(** [int(0.1 * n)] is [n // 10]. *)
Lemma sample_size_tenth (n : nat) : sample_size (1 # 10) n = n `div` 10.
Proof.
  unfold sample_size. rewrite py_int_scale, Z.mul_1_l, Z.quot_div_nonneg by lia.
  apply Nat2Z.inj. rewrite Z2Nat.id by (apply Z.div_pos; lia).
  by rewrite Nat2Z.inj_div.
Qed.

(** [int(f * n)] is the floor of [f * n] for a fraction [f ≥ 0]. *)
Lemma sample_size_floor (f : Q) (n : nat) :
  (0 <= f)%Q → sample_size f n = Z.to_nat (Qfloor (f * inject_Z (Z.of_nat n))).
Proof.
  intros Hf. unfold sample_size. f_equal. destruct f as [a b].
  rewrite py_int_scale. unfold Qfloor. simpl. rewrite Pos.mul_1_r.
  apply Z.quot_div_nonneg; [|lia].
  unfold Qle in Hf. simpl in Hf. nia.
Qed.

Lemma sample_size_le (f : Q) (n : nat) : (0 <= f)%Q → (f <= 1)%Q → sample_size f n ≤ n.
Proof.
  intros Hf0 Hf1. unfold sample_size. destruct f as [a b]. rewrite py_int_scale.
  unfold Qle in Hf0, Hf1. simpl in Hf0, Hf1.
  assert (0 ≤ a)%Z by lia. assert (a ≤ Zpos b)%Z by lia.
  rewrite Z.quot_div_nonneg by (lia || nia).
  assert ((a * Z.of_nat n) `div` Z.pos b ≤ Z.of_nat n)%Z as Hq.
  { apply Z.div_le_upper_bound; [lia|]. nia. }
  revert Hq. generalize ((a * Z.of_nat n) `div` Z.pos b)%Z. lia.
Qed.

(** Boolean-mask indexing selects the rows at the positions the mask holds. *)
Lemma select_mask_flatnonzero_aux {A} (X X0 : list A) (m m0 : list bool) :
  length m0 = length X0 → length m = length X →
  mapM ((X0 ++ X) !!.) (filter (λ i, (m0 ++ m) !! i = Some true) (seq (length X0) (length m)))
  = Some ((filter (λ p, p.2 = true) (zip X m)).*1).
Proof.
  revert X0 m m0. induction X as [|x X IH]; intros X0 [|b m] m0 H0 Hlen; simplify_eq/=; [done|].
  specialize (IH (X0 ++ [x]) m (m0 ++ [b])).
  rewrite !length_app, <-!(assoc_L (++)) in IH. simpl in IH.
  rewrite !Nat.add_1_r in IH. specialize (IH ltac:(lia) ltac:(lia)).
  assert ((m0 ++ b :: m) !! length X0 = Some b) as Hb by (by apply list_lookup_middle).
  assert ((X0 ++ x :: X) !! length X0 = Some x) as Hx by (by apply list_lookup_middle).
  destruct b.
  - rewrite filter_cons_True by done. cbn [mapM]. rewrite Hx. simpl.
    exact (f_equal (λ o, o ≫= (λ k, mret (x :: k))) IH).
  - rewrite filter_cons_False by (by rewrite Hb). exact IH.
Qed.

Lemma select_mask_flatnonzero {A} (X : list A) (m : list bool) :
  length m = length X → select_mask X m = take_rows X (flatnonzero m).
Proof.
  intros Hlen. unfold select_mask, take_rows, flatnonzero. rewrite decide_True by done.
  pose proof (select_mask_flatnonzero_aux X [] m [] eq_refl Hlen) as Haux.
  simpl in Haux. by rewrite Haux.
Qed.

(** ** Running the outer loop *)

Section OuterRuns.

Context (E : Externals).

Lemma M_bind_eq {A B} (m : M E A) (f : A → M E B) (σ : State E) :
  (m ≫= f) σ = match m σ with Ok (a, σ') => f a σ' | Err e => Err e end.
Proof. reflexivity. Qed.

Lemma M_bind_Ok {A B} (m : M E A) (f : A → M E B) (σ σ' : State E) (b : B) :
  (m ≫= f) σ = Ok (b, σ') → ∃ a σ1, m σ = Ok (a, σ1) ∧ f a σ1 = Ok (b, σ').
Proof. rewrite M_bind_eq. destruct (m σ) as [[a σ1]|]; [eauto|done]. Qed.

Lemma in_heap_eq {A} (c : Heap A) (σ : State E) :
  in_heap E c σ
  = match c (heap σ) with
    | Ok (a, h) =>
        Ok (a, {| heap := h; rng := rng σ; results := results σ; draws := draws σ |})
    | Err e => Err e
    end.
Proof. reflexivity. Qed.

Lemma in_heap_Ok {A} (c : Heap A) (σ σ' : State E) (a : A) :
  in_heap E c σ = Ok (a, σ') →
  c (heap σ) = Ok (a, heap σ')
  ∧ rng σ' = rng σ ∧ results σ' = results σ ∧ draws σ' = draws σ.
Proof.
  rewrite in_heap_eq. destruct (c (heap σ)) as [[a' h]|]; [|done]. by intros [= -> <-].
Qed.

Lemma rng_choice_run (n k : nat) (σ : State E) :
  k ≤ n →
  rng_choice E n k σ
  = Ok ((choice E (rng σ) n k).1,
        {| heap := heap σ; rng := (choice E (rng σ) n k).2; results := results σ;
           draws := draws σ ++ [{| draw_population := n; draw_size := k;
                                   draw_sample := (choice E (rng σ) n k).1 |}] |}).
Proof.
  intros Hk. unfold rng_choice. rewrite decide_True by done.
  by destruct (choice E (rng σ) n k).
Qed.

Lemma rng_choice_Ok (n k : nat) (σ σ' : State E) (ix : list nat) :
  rng_choice E n k σ = Ok (ix, σ') →
  k ≤ n ∧ ix = (choice E (rng σ) n k).1
  ∧ heap σ' = heap σ ∧ results σ' = results σ
  ∧ draws σ' = draws σ ++ [{| draw_population := n; draw_size := k; draw_sample := ix |}].
Proof.
  unfold rng_choice. case_decide; [|done].
  destruct (choice E (rng σ) n k) as [ix' g]. by intros [= <- <-].
Qed.

End OuterRuns.

(** ** The test holdout and the development pool *)

Lemma Qle_tenth : (0 <= 1 # 10)%Q ∧ (1 # 10 <= 1)%Q.
Proof. split; by vm_compute. Qed.

(** One step of a run of the outer loop on an explicit state. *)
Ltac m_simpl :=
  cbn [app length heap rng results draws fmap result_fmap insert list_insert nd_len].
Ltac m_step := rewrite M_bind_eq, in_heap_eq; m_simpl.

Section Holdout.

Context (E : Externals) (HE : ExternalsOk E).

(** The split of one repetition, spelled out: what is drawn, the arrays
    allocated, and the state afterwards. *)
Lemma holdout_split_run (σ : State E) (X y : loc) (Xm : Matrix) (ym : list Q) :
  heap σ !! X = Some (FloatMat Xm) → heap σ !! y = Some (FloatVec ym) →
  length ym = length Xm →
  let n := length Xm in
  let test_ix := (choice E (rng σ) n (sample_size (1 # 10) n)).1 in
  ∃ m Xt yt Xd yd,
    clear_at (replicate n true) test_ix = Some m
    ∧ take_rows Xm test_ix = Ok Xt ∧ take_rows ym test_ix = Ok yt
    ∧ select_mask Xm m = Ok Xd ∧ select_mask ym m = Ok yd
    ∧ holdout_split E X y σ
      = Ok ((test_ix, length (heap σ) + 2,
             (length (heap σ) + 0, length (heap σ) + 1),
             (length (heap σ) + 3, length (heap σ) + 4)),
            {| heap := heap σ ++ [FloatMat Xt; FloatVec yt; BoolVec m; FloatMat Xd; FloatVec yd];
               rng := (choice E (rng σ) n (sample_size (1 # 10) n)).2;
               results := results σ;
               draws := draws σ ++ [{| draw_population := n;
                                       draw_size := sample_size (1 # 10) n;
                                       draw_sample := test_ix |}] |}).
Proof.
  intros HX Hy Hlen. cbv zeta. destruct σ as [h g rs ds]. cbn [heap rng results draws] in *.
  remember (choice E g (length Xm) (sample_size (1 # 10) (length Xm))) as c eqn:Hc.
  set (n := length Xm) in *. set (test_ix := c.1) in *.
  assert (sample_size (1 # 10) n ≤ n) as Hk by (apply sample_size_le; apply Qle_tenth).
  assert (∀ i, i ∈ test_ix → i < n) as Hbound
    by (intros i; unfold test_ix; rewrite Hc; by apply (choice_bound E HE)).
  destruct (take_rows_Ok Xm test_ix Hbound) as (Xt & HXt & _).
  destruct (take_rows_Ok ym test_ix) as (yt & Hyt & _); [by rewrite Hlen|].
  destruct (clear_at_spec test_ix (replicate n true)) as (m & Hm & Hmlen & _);
    [by rewrite length_replicate|].
  rewrite length_replicate in Hmlen.
  assert (∃ Xd, select_mask Xm m = Ok Xd) as [Xd HXd]
    by (unfold select_mask; rewrite decide_True by done; eauto).
  assert (∃ yd, select_mask ym m = Ok yd) as [yd Hyd]
    by (unfold select_mask; rewrite decide_True by lia; eauto).
  exists m, Xt, yt, Xd, yd. split_and!; [done..|].
  unfold holdout_split.
  m_step. rewrite (np_len_run _ _ _ HX). m_simpl.
  rewrite M_bind_eq, rng_choice_run by done. m_simpl. fold n. rewrite <-Hc. fold test_ix.
  rewrite <-(app_nil_r h) at 1.
  m_step. erewrite np_take_matrix_run by (apply lookup_app_l_Some; eassumption).
  rewrite HXt. m_simpl.
  m_step. erewrite np_take_vector_run by (apply lookup_app_l_Some; eassumption).
  rewrite Hyt. m_simpl.
  m_step. rewrite np_ones_run. m_simpl.
  m_step. erewrite (np_clear_run h _ 2) by reflexivity. rewrite Hm. m_simpl.
  m_step. erewrite np_select_run;
    [|apply lookup_app_l_Some; eassumption|by rewrite (lookup_own h _ 2)].
  cbn [nd_select]. rewrite HXd. m_simpl.
  m_step. erewrite np_select_run;
    [|apply lookup_app_l_Some; eassumption|by rewrite (lookup_own h _ 2)].
  cbn [nd_select]. rewrite Hyd. m_simpl. done.
Qed.

End Holdout.

Lemma cleared_mask_lookup (n : nat) (ix : list nat) (m : list bool) (i : nat) :
  clear_at (replicate n true) ix = Some m → (∀ j, j ∈ ix → j < n) →
  m !! i = Some true ↔ i < n ∧ i ∉ ix.
Proof.
  intros Hm Hix. destruct (clear_at_spec ix (replicate n true)) as (m' & Hm' & _ & Hlook);
    [by rewrite length_replicate|].
  rewrite Hm in Hm'. injection Hm' as <-. rewrite Hlook. case_decide as Hi.
  - rewrite (lookup_replicate_2 n true i (Hix i Hi)). simpl. split; [done|]. by intros [_ ?].
  - rewrite lookup_replicate. split; [by intros [_ ?]|]. by intros [? _].
Qed.

(** C3.  In every repetition the split succeeds; the test holdout has
    [floor(0.1 * N)] distinct row indices, the development pool is the rows at
    the positions the mask still holds, no index is in both, and together
    they are exactly the indices below [N]. *)
Theorem holdout_partition (E : Externals) (HE : ExternalsOk E) (σ : State E)
    (X y : loc) (Xm : Matrix) (ym : list Q) :
  heap σ !! X = Some (FloatMat Xm) → heap σ !! y = Some (FloatVec ym) →
  length ym = length Xm →
  ∃ test_ix mask X_test y_test X_dev y_dev σ' m Xt Xd,
    holdout_split E X y σ = Ok ((test_ix, mask, (X_test, y_test), (X_dev, y_dev)), σ')
    ∧ length test_ix = Z.to_nat (Qfloor ((1 # 10) * inject_Z (Z.of_nat (length Xm))))
    ∧ NoDup test_ix
    ∧ heap σ' !! mask = Some (BoolVec m)
    ∧ heap σ' !! X_test = Some (FloatMat Xt) ∧ take_rows Xm test_ix = Ok Xt
    ∧ heap σ' !! X_dev = Some (FloatMat Xd) ∧ take_rows Xm (flatnonzero m) = Ok Xd
    ∧ (∀ i, i ∈ test_ix → i ∉ flatnonzero m)
    ∧ (∀ i, i < length Xm ↔ i ∈ test_ix ∨ i ∈ flatnonzero m)
    ∧ length Xd = length Xm - length test_ix.
Proof.
  intros HX Hy Hlen.
  destruct (holdout_split_run E HE σ X y Xm ym HX Hy Hlen)
    as (m & Xt & yt & Xd & yd & Hm & HXt & Hyt & HXd & Hyd & Hrun).
  set (n := length Xm) in *.
  set (test_ix := (choice E (rng σ) n (sample_size (1 # 10) n)).1) in *.
  assert (sample_size (1 # 10) n ≤ n) as Hk by (apply sample_size_le; apply Qle_tenth).
  assert (∀ i, i ∈ test_ix → i < n) as Hbound by (intros i; by apply (choice_bound E HE)).
  assert (NoDup test_ix) as Hnd by (by apply (choice_NoDup E HE)).
  assert (length test_ix = sample_size (1 # 10) n) as Hsize by (by apply (choice_length E HE)).
  assert (length m = n) as Hmlen.
  { destruct (clear_at_spec test_ix (replicate n true)) as (m' & Hm' & Hl & _);
      [by rewrite length_replicate|].
    rewrite Hm in Hm'. injection Hm' as <-. by rewrite Hl, length_replicate. }
  eexists _, _, _, _, _, _, _, m, Xt, Xd. split; [exact Hrun|]. cbn [heap].
  split_and!.
  - rewrite Hsize. apply sample_size_floor, Qle_tenth.
  - done.
  - by rewrite (lookup_own _ _ 2).
  - by rewrite (lookup_own _ _ 0).
  - done.
  - by rewrite (lookup_own _ _ 3).
  - by rewrite <-select_mask_flatnonzero.
  - intros i Hi [_ Hni]%elem_of_flatnonzero%(cleared_mask_lookup n test_ix m i Hm Hbound). done.
  - intros i. rewrite elem_of_flatnonzero, (cleared_mask_lookup n test_ix m i Hm Hbound).
    split.
    + intros Hi. destruct (decide (i ∈ test_ix)); [by left|by right].
    + intros [Hi|[Hi _]]; [by apply Hbound|done].
  - rewrite (select_mask_length _ _ _ HXd).
    pose proof (clear_at_count test_ix (replicate n true) m Hnd) as Hc.
    rewrite count_true_replicate in Hc. rewrite <-Hc; [lia| |done].
    intros i Hi. by apply lookup_replicate_2, Hbound.
Qed.

(** ** Subsample fractions and training subsamples *)

Lemma fractions_lookup (n : Z) (k : nat) :
  (Z.of_nat k < n)%Z → fractions n !! k = Some (fraction_of (Z.of_nat k + 1) n).
Proof.
  intros Hk. unfold fractions. rewrite list_lookup_fmap, lookup_seqZ_lt by done.
  simpl. unfold fraction_of. by rewrite Z.add_comm.
Qed.

Lemma fractions_lookup_Some (n : Z) (k : nat) (f : Q) :
  fractions n !! k = Some f → (Z.of_nat k < n)%Z ∧ f = fraction_of (Z.of_nat k + 1) n.
Proof.
  unfold fractions. rewrite list_lookup_fmap. intros (i & [-> Hk]%lookup_seqZ & ->)%fmap_Some.
  split; [done|]. unfold fraction_of. by rewrite Z.add_comm.
Qed.

Lemma fraction_of_bounds (i n : Z) :
  (1 ≤ i)%Z → (i ≤ n)%Z → (0 < fraction_of i n)%Q ∧ (fraction_of i n <= 1)%Q.
Proof.
  intros Hi Hn. destruct n as [|p|p]; try lia.
  unfold fraction_of, Qdiv, Qmult, Qinv, Qlt, Qle. simpl. lia.
Qed.

Lemma fraction_of_lt (i j n : Z) :
  (1 ≤ n)%Z → (i < j)%Z → (fraction_of i n < fraction_of j n)%Q.
Proof.
  intros Hn Hij. destruct n as [|p|p]; try lia.
  unfold fraction_of, Qdiv, Qmult, Qinv, Qlt. simpl. nia.
Qed.

Section Subsample.

Context (E : Externals) (HE : ExternalsOk E).

Lemma draw_subsample_run (σ : State E) (X_dev y_dev : loc) (Xd : Matrix) (yd : list Q)
    (f : Q) :
  heap σ !! X_dev = Some (FloatMat Xd) → heap σ !! y_dev = Some (FloatVec yd) →
  length yd = length Xd → (0 <= f)%Q → (f <= 1)%Q →
  let n := length Xd in
  let train_ix := (choice E (rng σ) n (sample_size f n)).1 in
  ∃ Xtr ytr,
    take_rows Xd train_ix = Ok Xtr ∧ take_rows yd train_ix = Ok ytr
    ∧ draw_subsample E X_dev y_dev f σ
      = Ok ((train_ix, length (heap σ) + 0, length (heap σ) + 1),
            {| heap := heap σ ++ [FloatMat Xtr; FloatVec ytr];
               rng := (choice E (rng σ) n (sample_size f n)).2;
               results := results σ;
               draws := draws σ ++ [{| draw_population := n;
                                       draw_size := sample_size f n;
                                       draw_sample := train_ix |}] |}).
Proof.
  intros HX Hy Hlen Hf0 Hf1. cbv zeta. destruct σ as [h g rs ds].
  cbn [heap rng results draws] in *.
  remember (choice E g (length Xd) (sample_size f (length Xd))) as c eqn:Hc.
  set (n := length Xd) in *. set (train_ix := c.1) in *.
  assert (sample_size f n ≤ n) as Hk by (by apply sample_size_le).
  assert (∀ i, i ∈ train_ix → i < n) as Hbound
    by (intros i; unfold train_ix; rewrite Hc; by apply (choice_bound E HE)).
  destruct (take_rows_Ok Xd train_ix Hbound) as (Xtr & HXtr & _).
  destruct (take_rows_Ok yd train_ix) as (ytr & Hytr & _); [by rewrite Hlen|].
  exists Xtr, ytr. split_and!; [done..|].
  unfold draw_subsample.
  m_step. rewrite (np_len_run _ _ _ HX). m_simpl.
  rewrite M_bind_eq, rng_choice_run by done. m_simpl. fold n. rewrite <-Hc. fold train_ix.
  rewrite <-(app_nil_r h) at 1.
  m_step. erewrite np_take_matrix_run by (apply lookup_app_l_Some; eassumption).
  rewrite HXtr. m_simpl.
  m_step. erewrite np_take_vector_run by (apply lookup_app_l_Some; eassumption).
  rewrite Hytr. m_simpl. done.
Qed.

End Subsample.

(** C5.  Lines 79-83 (cancer), 56-60 (sepsis) on a table of 100 rows with ten
    subsample points.  The holdout takes [int(0.1 * 100) = 10] rows, which
    leaves a development pool of 90; at the seventh fraction the product
    [0.7 * 90] is, in binary64, the float next below 63, so that
    [int(fraction * X_dev.shape[0])] is 62, where [floor(7/10 * 90)] is 63. *)
Theorem subsample_size_binary64_short :
  holdout_size_binary64 100 = Some 10%Z
  ∧ b64_mul (b64_div (b64_of_Z 7) (b64_of_Z 10)) (b64_of_Z 90)
    = SpecFloat.S754_finite false 8866461766385663 (-47)
  ∧ (8866461766385663 + 1 = 63 * 2 ^ 47)%Z
  ∧ subsample_size_binary64 7 10 90 = Some 62%Z
  ∧ Qfloor (inject_Z 7 / inject_Z 10 * inject_Z 90) = 63%Z.
Proof. split_and!; vm_compute; reflexivity. Qed.

(** ** The result table *)

Lemma heap_bind_Ok {A B} (m : Heap A) (f : A → Heap B) (h h' : store) (b : B) :
  (m ≫= f) h = Ok (b, h') → ∃ a h1, m h = Ok (a, h1) ∧ f a h1 = Ok (b, h').
Proof. rewrite heap_bind_eq. destruct (m h) as [[a h1]|]; [eauto|done]. Qed.

Section Results.

Context (E : Externals).
Variable s : script.
Variables k_inner k_outer random_seed num_subsamples : Z.
Variable continuous_col_ixs : list nat.
Variable num_classes : nat.
Variable search_space : SearchSpace.

Lemma refit_metric_names (best : option Config) (aX ay aXt ayt : loc) (h h' : store)
    (ms : list (string * Q)) :
  refit_and_score E s random_seed continuous_col_ixs num_classes best aX ay aXt ayt h
  = Ok (ms, h') →
  ms.*1 = metric_names s.
Proof.
  destruct s; simpl; intros Hrun.
  - unfold cancer_refit in Hrun.
    repeat (apply heap_bind_Ok in Hrun as (? & ? & _ & Hrun)).
    by injection Hrun as <- _.
  - unfold sepsis_refit in Hrun.
    repeat (apply heap_bind_Ok in Hrun as (? & ? & _ & Hrun)).
    by injection Hrun as <- _.
Qed.

Lemma records_of_keys (rep : nat) (f : Q) (ms : list (string * Q)) :
  record_key <$> records_of s rep f ms = (λ name, (rep, f, method_name s, name)) <$> ms.*1.
Proof. unfold records_of. rewrite <-!list_fmap_compose. by apply list_fmap_ext. Qed.

Lemma draw_subsample_results (X_dev y_dev : loc) (f : Q) (σ σ' : State E) r :
  draw_subsample E X_dev y_dev f σ = Ok (r, σ') → results σ' = results σ.
Proof.
  unfold draw_subsample. intros Hrun.
  apply M_bind_Ok in Hrun as (? & σ1 & (_ & _ & H1 & _)%in_heap_Ok & Hrun).
  apply M_bind_Ok in Hrun as (? & σ2 & (_ & _ & _ & H2 & _)%rng_choice_Ok & Hrun).
  apply M_bind_Ok in Hrun as (? & σ3 & (_ & _ & H3 & _)%in_heap_Ok & Hrun).
  apply M_bind_Ok in Hrun as (? & σ4 & (_ & _ & H4 & _)%in_heap_Ok & Hrun).
  injection Hrun as _ <-. congruence.
Qed.

Lemma holdout_split_results (X y : loc) (σ σ' : State E) r :
  holdout_split E X y σ = Ok (r, σ') → results σ' = results σ.
Proof.
  unfold holdout_split. intros Hrun.
  apply M_bind_Ok in Hrun as (? & σ1 & (_ & _ & H1 & _)%in_heap_Ok & Hrun).
  apply M_bind_Ok in Hrun as (? & σ2 & (_ & _ & _ & H2 & _)%rng_choice_Ok & Hrun).
  apply M_bind_Ok in Hrun as (? & σ3 & (_ & _ & H3 & _)%in_heap_Ok & Hrun).
  apply M_bind_Ok in Hrun as (? & σ4 & (_ & _ & H4 & _)%in_heap_Ok & Hrun).
  apply M_bind_Ok in Hrun as (? & σ5 & (_ & _ & H5 & _)%in_heap_Ok & Hrun).
  apply M_bind_Ok in Hrun as (? & σ6 & (_ & _ & H6 & _)%in_heap_Ok & Hrun).
  apply M_bind_Ok in Hrun as (? & σ7 & (_ & _ & H7 & _)%in_heap_Ok & Hrun).
  apply M_bind_Ok in Hrun as (? & σ8 & (_ & _ & H8 & _)%in_heap_Ok & Hrun).
  injection Hrun as _ <-. congruence.
Qed.

(** One fraction appends its records, one per metric, and touches no other. *)
Lemma fraction_body_results (rep : nat) (X_dev y_dev X_test y_test : loc) (f : Q)
    (σ σ' : State E) (u : unit) :
  fraction_body E s k_inner random_seed continuous_col_ixs num_classes search_space
    rep X_dev y_dev X_test y_test f σ = Ok (u, σ') →
  ∃ ms, ms.*1 = metric_names s ∧ results σ' = results σ ++ records_of s rep f ms.
Proof.
  unfold fraction_body. intros Hrun.
  apply M_bind_Ok in Hrun as ([[train_ix X_train] y_train] & σ1 & H1%draw_subsample_results & Hrun).
  apply M_bind_Ok in Hrun as (best & σ2 & (_ & _ & H2 & _)%in_heap_Ok & Hrun).
  apply M_bind_Ok in Hrun as (ms & σ3 & (Hms%refit_metric_names & _ & H3 & _)%in_heap_Ok & Hrun).
  exists ms. split; [done|]. unfold results_extend in Hrun. injection Hrun as _ <-.
  simpl. congruence.
Qed.

(** A loop whose iterations append records appends their concatenation. *)
Lemma foldM_results {A} (body : A → M E unit) (keys : A → list (nat * Q * string * string))
    (l : list A) (σ σ' : State E) (u u' : unit) :
  (∀ x σ1 σ2 u2, body x σ1 = Ok (u2, σ2) →
     ∃ new, results σ2 = results σ1 ++ new ∧ record_key <$> new = keys x) →
  foldM (λ _ x, body x) u l σ = Ok (u', σ') →
  ∃ new, results σ' = results σ ++ new ∧ record_key <$> new = l ≫= keys.
Proof.
  intros Hbody. revert σ u. induction l as [|x l IH]; intros σ u Hrun.
  - injection Hrun as _ <-. exists []. by rewrite app_nil_r.
  - cbn [foldM] in Hrun. apply M_bind_Ok in Hrun as (u1 & σ1 & H1 & Hrun).
    apply Hbody in H1 as (new1 & Hr1 & Hk1). apply IH in Hrun as (new2 & Hr2 & Hk2).
    exists (new1 ++ new2). split.
    + by rewrite Hr2, Hr1, (assoc_L (++)).
    + rewrite fmap_app, Hk1, Hk2. done.
Qed.

Lemma repetition_results (X y : loc) (rep : nat) (σ σ' : State E) (u : unit) :
  repetition E s k_inner random_seed num_subsamples continuous_col_ixs num_classes
    search_space X y rep σ = Ok (u, σ') →
  ∃ new, results σ' = results σ ++ new ∧ record_key <$> new = repetition_keys s num_subsamples rep.
Proof.
  unfold repetition. intros Hrun.
  apply M_bind_Ok in Hrun
    as ([[[test_ix mask] [X_test y_test]] [X_dev y_dev]] & σ1 & H1%holdout_split_results & Hrun).
  apply (foldM_results _ (fraction_keys s rep)) in Hrun as (new & Hr & Hk).
  - exists new. by rewrite Hr, H1.
  - intros f σa σb ub (ms & Hms & Hres)%fraction_body_results.
    eexists. split; [done|]. by rewrite records_of_keys, Hms.
Qed.

Lemma outer_loop_results (X y : loc) (σ σ' : State E) (u : unit) :
  outer_loop E s k_inner k_outer random_seed num_subsamples continuous_col_ixs num_classes
    search_space X y σ = Ok (u, σ') →
  ∃ new, results σ' = results σ ++ new
    ∧ record_key <$> new = expected_keys s k_outer num_subsamples.
Proof.
  unfold outer_loop. intros Hrun.
  apply (foldM_results _ (repetition_keys s num_subsamples)) in Hrun; [done|].
  intros rep σa σb ub. apply repetition_results.
Qed.

End Results.

(** C7.  Every fraction iteration appends its records, cross-entropy before
    F1, after the records already there, which it leaves as they are; so does
    the outer loop as a whole, from any state; the table of a completed run
    lists the records by repetition, then by increasing fraction, then by
    metric. *)
Theorem results_in_loop_order (E : Externals) (s : script) (argv : Args) (df : DataFrame) :
  (∀ k_inner continuous_col_ixs num_classes search_space rep X_dev y_dev X_test y_test f
      (σ1 σ2 : State E) u,
     fraction_body E s k_inner (arg_random_seed argv) continuous_col_ixs num_classes
       search_space rep X_dev y_dev X_test y_test f σ1 = Ok (u, σ2) →
     ∃ new, results σ2 = results σ1 ++ new ∧ record_key <$> new = fraction_keys s rep f)
  ∧ (∀ k_inner continuous_col_ixs num_classes search_space X y (σ1 σ2 : State E) u,
       outer_loop E s k_inner (arg_k_outer argv) (arg_random_seed argv)
         (arg_num_subsamples argv) continuous_col_ixs num_classes search_space X y σ1
       = Ok (u, σ2) →
       ∃ new, results σ2 = results σ1 ++ new
         ∧ record_key <$> new
           = expected_keys s (arg_k_outer argv) (arg_num_subsamples argv))
  ∧ (∀ σ, run_loops E s argv df = Ok σ →
       record_key <$> results σ
       = expected_keys s (arg_k_outer argv) (arg_num_subsamples argv)).
Proof.
  split_and!.
  - intros k_inner C num_classes space rep X_dev y_dev X_test y_test f σ1 σ2 u
      (ms & Hms & Hres)%fraction_body_results.
    eexists. split; [done|]. unfold fraction_keys. by rewrite records_of_keys, Hms.
  - intros k_inner C num_classes space X y σ1 σ2 u. apply outer_loop_results.
  - intros σ Hrun. unfold run_loops in Hrun.
    apply result_bind_Ok in Hrun as ([X y] & _ & Hrun).
    destruct (outer_loop _ _ _ _ _ _ _ _ _ _ _ _) as [[u σ']|] eqn:Hloop; [|done].
    injection Hrun as <-.
    apply outer_loop_results in Hloop as (new & Hr & Hk). simpl in Hr. by rewrite Hr.
Qed.

(** ** Saving the result table *)

Lemma save_results_files (rows : list EvaluationRecord) (d : path) (name : string)
    (fs : FileSystem) :
  match save_results rows d name fs with
  | (Ok _, fs') => files fs' = <[d ++ [name +:+ ".csv"] := ResultsCsv rows]> (files fs)
  | (Err _, fs') => files fs' = files fs
  end.
Proof.
  unfold save_results, os_mkdir, to_csv, op_exists.
  case_bool_decide as Hd; simpl.
  - rewrite decide_True by done. by case_decide.
  - case_decide as Hpar; simpl; [|by case_decide].
    case_decide as Hex; simpl; [done|].
    rewrite decide_True by (apply elem_of_union; left; by apply elem_of_singleton).
    by case_decide.
Qed.


(** ** The sequence of random draws *)

Section Draws.

Context (E : Externals) (HE : ExternalsOk E).
Variable s : script.
Variables k_inner k_outer random_seed num_subsamples : Z.
Variable continuous_col_ixs : list nat.
Variable num_classes : nat.
Variable search_space : SearchSpace.

Lemma fraction_body_draws (rep : nat) (X_dev y_dev X_test y_test : loc) (f : Q)
    (Xd Xt : Matrix) (yd yt : list Q) (σ σ' : State E) (u : unit) :
  heap σ !! X_dev = Some (FloatMat Xd) → heap σ !! y_dev = Some (FloatVec yd) →
  length yd = length Xd →
  heap σ !! X_test = Some (FloatMat Xt) → heap σ !! y_test = Some (FloatVec yt) →
  (0 <= f)%Q → (f <= 1)%Q →
  fraction_body E s k_inner random_seed continuous_col_ixs num_classes search_space
    rep X_dev y_dev X_test y_test f σ = Ok (u, σ') →
  heap σ `prefix_of` heap σ'
  ∧ draw_shape <$> draws σ'
    = (draw_shape <$> draws σ) ++ [(length Xd, sample_size f (length Xd))].
Proof.
  intros HXd Hyd Hlen HXt Hyt Hf0 Hf1 Hrun. unfold fraction_body in Hrun.
  destruct (draw_subsample_run E HE σ X_dev y_dev Xd yd f HXd Hyd Hlen Hf0 Hf1)
    as (Xtr & ytr & _ & _ & Hdraw).
  apply M_bind_Ok in Hrun as ([[train_ix X_train] y_train] & σ1 & H1 & Hrun).
  rewrite Hdraw in H1. injection H1 as <- <- <- <-.
  apply M_bind_Ok in Hrun as (best & σ2 & (H2 & _ & _ & Hd2)%in_heap_Ok & Hrun).
  apply M_bind_Ok in Hrun as (ms & σ3 & (H3 & _ & _ & Hd3)%in_heap_Ok & Hrun).
  unfold results_extend in Hrun. injection Hrun as _ <-. cbn [heap draws] in *.
  assert ((heap σ ++ [FloatMat Xtr; FloatVec ytr]) `prefix_of` heap σ2) as Hp2.
  { eapply run_Ok_inv; [|exact H2].
    apply (select_best_run E s k_inner random_seed continuous_col_ixs search_space
             _ _ _ Xtr ytr).
    split; [by rewrite (lookup_own _ _ 0)|by rewrite (lookup_own _ _ 1)]. }
  assert (heap σ2 `prefix_of` heap σ3) as Hp3.
  { eapply run_Ok_inv; [|exact H3].
    apply (refit_and_score_run E random_seed continuous_col_ixs num_classes s
             _ _ _ _ _ Xtr Xt ytr yt).
    - eapply prefix_lookup_Some; [exact Hp2|]. by rewrite (lookup_own _ _ 0).
    - eapply prefix_lookup_Some; [exact Hp2|]. by rewrite (lookup_own _ _ 1).
    - eapply prefix_lookup_Some; [exact Hp2|]. by apply lookup_app_l_Some.
    - eapply prefix_lookup_Some; [exact Hp2|]. by apply lookup_app_l_Some. }
  split.
  - etrans; [|exact Hp3]. etrans; [|exact Hp2]. by apply prefix_app_r.
  - rewrite Hd3, Hd2, fmap_app. done.
Qed.

Lemma fractions_loop_draws (rep : nat) (X_dev y_dev X_test y_test : loc)
    (Xd Xt : Matrix) (yd yt : list Q) (fs : list Q) (σ σ' : State E) (u u' : unit) :
  heap σ !! X_dev = Some (FloatMat Xd) → heap σ !! y_dev = Some (FloatVec yd) →
  length yd = length Xd →
  heap σ !! X_test = Some (FloatMat Xt) → heap σ !! y_test = Some (FloatVec yt) →
  (∀ f, f ∈ fs → (0 <= f)%Q ∧ (f <= 1)%Q) →
  foldM (λ _ fraction,
           fraction_body E s k_inner random_seed continuous_col_ixs num_classes search_space
             rep X_dev y_dev X_test y_test fraction) u fs σ = Ok (u', σ') →
  heap σ `prefix_of` heap σ'
  ∧ draw_shape <$> draws σ'
    = (draw_shape <$> draws σ) ++ ((λ f, (length Xd, sample_size f (length Xd))) <$> fs).
Proof.
  intros HXd Hyd Hlen HXt Hyt. revert σ u HXd Hyd HXt Hyt.
  induction fs as [|f fs IH]; intros σ u HXd Hyd HXt Hyt Hfs Hrun.
  - injection Hrun as _ <-. by rewrite app_nil_r.
  - cbn [foldM] in Hrun. apply M_bind_Ok in Hrun as (u1 & σ1 & H1 & Hrun).
    destruct (Hfs f ltac:(left)) as [Hf0 Hf1].
    destruct (fraction_body_draws rep X_dev y_dev X_test y_test f Xd Xt yd yt σ σ1 u1
                HXd Hyd Hlen HXt Hyt Hf0 Hf1 H1) as [Hp1 Hd1].
    destruct (IH σ1 u1) as [Hp Hd]; eauto using prefix_lookup_Some.
    { intros f' Hf'. apply Hfs. by right. }
    split; [by etrans|]. rewrite Hd, Hd1, <-(assoc_L (++)). done.
Qed.

Lemma fractions_bounds (f : Q) :
  f ∈ fractions num_subsamples → (0 <= f)%Q ∧ (f <= 1)%Q.
Proof.
  intros [k [Hk ->]%fractions_lookup_Some]%list_elem_of_lookup.
  destruct (fraction_of_bounds (Z.of_nat k + 1) num_subsamples) as [H0 H1]; [lia..|].
  split; [by apply Qlt_le_weak|done].
Qed.

Lemma repetition_draws_run (X y : loc) (Xm : Matrix) (ym : list Q) (rep : nat)
    (σ σ' : State E) (u : unit) :
  heap σ !! X = Some (FloatMat Xm) → heap σ !! y = Some (FloatVec ym) →
  length ym = length Xm →
  repetition E s k_inner random_seed num_subsamples continuous_col_ixs num_classes
    search_space X y rep σ = Ok (u, σ') →
  heap σ `prefix_of` heap σ'
  ∧ draw_shape <$> draws σ'
    = (draw_shape <$> draws σ) ++ repetition_draws (length Xm) num_subsamples.
Proof.
  intros HX Hy Hlen Hrun. unfold repetition in Hrun.
  destruct (holdout_split_run E HE σ X y Xm ym HX Hy Hlen)
    as (m & Xt & yt & Xd & yd & Hm & HXt & Hyt & HXd & Hyd & Hsplit).
  apply M_bind_Ok in Hrun
    as ([[[test_ix mask] [X_test y_test]] [X_dev y_dev]] & σ1 & H1 & Hrun).
  rewrite Hsplit in H1. injection H1 as <- <- <- <- <- <- <-.
  set (n := length Xm) in *.
  set (test_ix := (choice E (rng σ) n (sample_size (1 # 10) n)).1) in *.
  assert (sample_size (1 # 10) n ≤ n) as Hk by (apply sample_size_le; apply Qle_tenth).
  assert (length Xd = n - sample_size (1 # 10) n) as HlenXd.
  { rewrite (select_mask_length _ _ _ HXd).
    pose proof (clear_at_count test_ix (replicate n true) m) as Hc.
    rewrite count_true_replicate in Hc.
    rewrite <-(choice_length E HE (rng σ) n (sample_size (1 # 10) n) Hk).
    fold test_ix. rewrite <-Hc; [lia|by apply (choice_NoDup E HE)| |done].
    intros i Hi. apply lookup_replicate_2. by apply (choice_bound E HE) in Hi. }
  assert (length yd = length Xd) as HlenD
    by (by rewrite (select_mask_length _ _ _ HXd), (select_mask_length _ _ _ Hyd)).
  apply (fractions_loop_draws rep _ _ _ _ Xd Xt yd yt) in Hrun as [Hp Hd]; cbn [heap draws] in *.
  - split; [etrans; [|exact Hp]; by apply prefix_app_r|].
    rewrite Hd, fmap_app, <-(assoc_L (++)). unfold repetition_draws. fold n.
    by rewrite HlenXd.
  - by rewrite (lookup_own _ _ 3).
  - by rewrite (lookup_own _ _ 4).
  - done.
  - by rewrite (lookup_own _ _ 0).
  - by rewrite (lookup_own _ _ 1).
  - apply fractions_bounds.
Qed.

Lemma outer_loop_draws (X y : loc) (Xm : Matrix) (ym : list Q) (σ σ' : State E) (u : unit) :
  heap σ !! X = Some (FloatMat Xm) → heap σ !! y = Some (FloatVec ym) →
  length ym = length Xm →
  outer_loop E s k_inner k_outer random_seed num_subsamples continuous_col_ixs num_classes
    search_space X y σ = Ok (u, σ') →
  draw_shape <$> draws σ'
  = (draw_shape <$> draws σ) ++ expected_draws (length Xm) k_outer num_subsamples.
Proof.
  intros HX Hy Hlen. unfold outer_loop, expected_draws.
  generalize (seq 0 (Z.to_nat k_outer)) as reps. intros reps. generalize tt as u0.
  revert σ HX Hy. induction reps as [|rep reps IH]; intros σ HX Hy u0 Hrun.
  - injection Hrun as _ <-. by rewrite app_nil_r.
  - cbn [foldM] in Hrun. apply M_bind_Ok in Hrun as (u1 & σ1 & H1 & Hrun).
    apply (repetition_draws_run X y Xm ym) in H1 as [Hp Hd]; [|done..].
    apply IH in Hrun; eauto using prefix_lookup_Some.
    rewrite Hrun, Hd, <-(assoc_L (++)). done.
Qed.

End Draws.

Lemma features_and_labels_length (s : script) (df : DataFrame) (X : Matrix) (y : list Q) :
  features_and_labels s df = Ok (X, y) →
  length X = length (df_rows df) ∧ length y = length (df_rows df).
Proof.
  unfold features_and_labels. intros (p & _ & [= <- <-])%result_bind_Ok.
  by rewrite !length_fmap.
Qed.

Lemma run_loops_draws (E : Externals) (HE : ExternalsOk E) (s : script) (argv : Args)
    (df : DataFrame) (σ : State E) :
  run_loops E s argv df = Ok σ →
  draw_shape <$> draws σ
  = expected_draws (length (df_rows df)) (arg_k_outer argv) (arg_num_subsamples argv).
Proof.
  unfold run_loops. intros ([X y] & [HlX Hly]%features_and_labels_length & Hrun)%result_bind_Ok.
  destruct (outer_loop _ _ _ _ _ _ _ _ _ _ _ _) as [[u σ']|] eqn:Hloop; [|done].
  injection Hrun as <-.
  apply (outer_loop_draws E HE _ _ _ _ _ _ _ _ _ _ X y) in Hloop; [|done|done|congruence].
  simpl in Hloop. by rewrite Hloop, HlX.
Qed.

Lemma main_Ok_table (E : Externals) (s : script) (time_string : string) (argv : Args)
    (fs fs' : FileSystem) (u : unit) (df : DataFrame) :
  read_csv (dataset_path s argv) fs = Ok df →
  main E s time_string argv fs = (Ok u, fs') →
  ∃ σ, run_loops E s argv df = Ok σ
    ∧ files fs' !! outfile_path s time_string argv = Some (ResultsCsv (results σ)).
Proof.
  intros Hdf Hmain. unfold main in Hmain. fold (dataset_path s argv) in Hmain.
  rewrite Hdf in Hmain. simpl in Hmain.
  destruct (run_loops E s argv df) as [σ|e]; [|done].
  exists σ. split; [done|].
  pose proof (save_results_files (results σ) (arg_results_dir argv ++ [task_dir s])
                (outfile_prefix s +:+ time_string) fs) as Hsave.
  rewrite Hmain in Hsave. rewrite Hsave. apply lookup_insert_eq.
Qed.

(** ** The instance satisfies the assumptions, and the programs run on it *)

Lemma rotate_Permutation {A} (n : nat) (l : list A) : rotate n l ≡ₚ l.
Proof. unfold rotate. by rewrite Permutation_app_comm, take_drop. Qed.

Lemma toy_ok : ExternalsOk Toy.toy.
Proof.
  split; simpl; unfold Toy.toy_choice, Toy.toy_shuffled; simpl.
  - intros g n k Hk. rewrite length_take, length_rotate, length_seq. lia.
  - intros g n k Hk. apply (sublist_NoDup _ (rotate g (seq 0 n))); [|apply sublist_take].
    rewrite rotate_Permutation. apply NoDup_seq.
  - intros g n k i Hk Hi%subseteq_take. rewrite elem_of_rotate, elem_of_seq in Hi. lia.
  - intros seed R. apply rotate_Permutation.
Qed.

Example toy_main_cancer :
  (main Toy.toy Cancer "20240101-000000" Toy.argv2 (Toy.fs_of Cancer)).1 = Ok tt.
Proof. vm_compute. reflexivity. Qed.

Example toy_main_sepsis :
  (main Toy.toy Sepsis "20240101-000000" Toy.argv2 (Toy.fs_of Sepsis)).1 = Ok tt.
Proof. vm_compute. reflexivity. Qed.

Example toy_scores :
  Toy.score6 Cancer <$> Toy.combos3 = [(8510640000 # 28800000000)%Q; (434400 # 2880000)%Q;
                                       (434400 # 2880000)%Q].
Proof. vm_compute. reflexivity. Qed.

Example toy_select_best :
  fst <$> select_best Toy.toy Cancer 2 42 [0] Toy.space3 0 1 Toy.h6
  = Ok (Some [("C"%string, HNum (1 # 10)); ("penalty"%string, HStr "l2")]).
Proof. vm_compute. reflexivity. Qed.

(** C4 on six rows and two folds. *)
Lemma kfold_partition_witness :
  ∃ folds, KFold_split Toy.toy 2 42 6 = Ok folds
    ∧ length folds = Z.to_nat 2
    ∧ (∀ j1 j2 f1 f2 i, folds !! j1 = Some f1 → folds !! j2 = Some f2 →
         i ∈ f1.2 → i ∈ f2.2 → j1 = j2)
    ∧ (∀ i, i < 6 ↔ ∃ f, f ∈ folds ∧ i ∈ f.2)
    ∧ (∀ f1 f2, f1 ∈ folds → f2 ∈ folds → length f1.2 ≤ S (length f2.2))
    ∧ (∀ f i, f ∈ folds → (i ∈ f.1 ↔ i < 6 ∧ i ∉ f.2)).
Proof. apply (kfold_partition Toy.toy toy_ok 2 42 6); [lia|simpl; lia]. Defined.

(** C1 on three configurations, the second and third tied. *)
Lemma select_best_minimal_witness :
  ∃ best i extras,
    select_best Toy.toy Cancer 2 42 [0] Toy.space3 0 1 Toy.h6
    = Ok (Some best, Toy.h6 ++ extras)
    ∧ Toy.combos3 !! i = Some best
    ∧ (∀ c, c ∈ Toy.combos3 → (Toy.score6 Cancer best <= Toy.score6 Cancer c)%Q)
    ∧ (∀ j c, j < i → Toy.combos3 !! j = Some c →
         (Toy.score6 Cancer best < Toy.score6 Cancer c)%Q).
Proof.
  apply (select_best_minimal Toy.toy Cancer 2 42 [0] Toy.space3 Toy.h6 0 1 Toy.X6 Toy.y6
           Toy.combos3 (Toy.score6 Cancer)).
  - reflexivity.
  - reflexivity.
  - vm_compute. reflexivity.
  - intros c Hc. repeat (apply elem_of_cons in Hc as [->|Hc]);
      [vm_compute; reflexivity..|by apply elem_of_nil in Hc].
Defined.

(** The selection loop does not return on a training set with fewer rows than
    folds: with one row and two folds the split raises, whatever the search
    space. *)
Lemma select_best_too_few_rows :
  select_best Toy.toy Cancer 2 42 [0] logreg_config 0 1
    [FloatMat [[1; 0]%Q]; FloatVec [0%Q]]
  = Err ValueError.
Proof. vm_compute. reflexivity. Qed.

(** C10 on the six rows at addresses 0 and 1. *)
Lemma inner_loop_leaves_arrays_witness :
  (∀ cfg fold q h',
     cancer_fold Toy.toy Cancer 42 [0] cfg 0 1 fold Toy.h6 = Ok (q, h') →
     Toy.h6 `prefix_of` h')
  ∧ (∀ best h',
       select_best Toy.toy Cancer 2 42 [0] Toy.space3 0 1 Toy.h6 = Ok (best, h') →
       Toy.h6 `prefix_of` h' ∧ h' !! 0 = Some (FloatMat Toy.X6)
       ∧ h' !! 1 = Some (FloatVec Toy.y6))
  ∧ (∀ best aXt ayt Xt yt ms h',
       Toy.h6 !! aXt = Some (FloatMat Xt) → Toy.h6 !! ayt = Some (FloatVec yt) →
       cancer_refit Toy.toy Cancer 42 [0] 2 best 0 1 aXt ayt Toy.h6 = Ok (ms, h') →
       Toy.h6 `prefix_of` h').
Proof.
  apply (inner_loop_leaves_arrays Toy.toy 2 42 [0] 2 Toy.space3 Toy.h6 0 1 Toy.X6 Toy.y6);
    reflexivity.
Defined.

Example toy_fold_runs :
  fst <$> cancer_fold Toy.toy Cancer 42 [0] [("C"%string, HNum (1 # 10))] 0 1
            ([3; 4; 5], [0; 1; 2]) Toy.h6
  = Ok (181 # 1200)%Q.
Proof. vm_compute. reflexivity. Qed.

(** C2 on the six rows, sepsis script. *)
Lemma scaler_fit_on_training_only_witness :
  (∀ cfg fold q h',
     fold_body Toy.toy Sepsis 42 [0] cfg 0 1 fold Toy.h6 = Ok (q, h') →
     ∃ X_ktrain X_kval y_ktrain y_kval sc X_ktrain' X_kval' m P,
       take_rows Toy.X6 fold.1 = Ok X_ktrain ∧ take_rows Toy.X6 fold.2 = Ok X_kval
       ∧ take_rows Toy.y6 fold.1 = Ok y_ktrain ∧ take_rows Toy.y6 fold.2 = Ok y_kval
       ∧ fit_scaler Toy.toy Sepsis [0] X_ktrain = Ok sc
       ∧ apply_scaler Sepsis [0] sc X_ktrain = Ok X_ktrain'
       ∧ clf_fit Toy.toy Sepsis cfg 42 X_ktrain' y_ktrain = Ok m
       ∧ apply_scaler Sepsis [0] sc X_kval = Ok X_kval'
       ∧ clf_predict_proba Toy.toy m X_kval' = Ok P
       ∧ cross_entropy_of Toy.toy Sepsis y_kval P = Ok q)
  ∧ (∀ best aXt ayt Xt yt ms h',
       Toy.h6 !! aXt = Some (FloatMat Xt) → Toy.h6 !! ayt = Some (FloatVec yt) →
       refit_and_score Toy.toy Sepsis 42 [0] 2 best 0 1 aXt ayt Toy.h6 = Ok (ms, h') →
       ∃ cfg sc X' Xt' m P ce,
         best = Some cfg
         ∧ fit_scaler Toy.toy Sepsis [0] Toy.X6 = Ok sc
         ∧ apply_scaler Sepsis [0] sc Toy.X6 = Ok X'
         ∧ clf_fit Toy.toy Sepsis cfg 42 X' Toy.y6 = Ok m
         ∧ apply_scaler Sepsis [0] sc Xt = Ok Xt'
         ∧ clf_predict_proba Toy.toy m Xt' = Ok P
         ∧ cross_entropy_of Toy.toy Sepsis yt P = Ok ce
         ∧ ms !! 0 = Some ("cross_entropy"%string, ce)).
Proof.
  apply (scaler_fit_on_training_only Toy.toy Sepsis 42 [0] 2 Toy.h6 0 1 Toy.X6 Toy.y6);
    reflexivity.
Defined.

(** C8 on the first column of the six rows, scaled in place. *)
Lemma scaling_replaces_only_continuous_witness :
  (∀ h', assign_scaled [0] Toy.sc6 0 0 Toy.h6 = Ok (tt, h') →
     ∃ P', h' !! 0 = Some (FloatMat P')
       ∧ length P' = length Toy.X6
       ∧ (∀ r row, Toy.X6 !! r = Some row →
            ∃ row', P' !! r = Some row' ∧ length row' = length row
              ∧ ∀ j x, row !! j = Some x →
                  row' !! j = Some (if decide (j ∈ [0])
                                    then standardize x (np_mean (column j Toy.X6))
                                           (column_scale Toy.toy (column j Toy.X6))
                                    else x))
       ∧ (∀ a' v, a' ≠ 0 → Toy.h6 !! a' = Some v → h' !! a' = Some v))
  ∧ (∀ D, Toy.X6 ≠ [] → Forall (λ row, length row = D) Toy.X6 → Forall (λ j, j < D) [0] →
       ∃ h', assign_scaled [0] Toy.sc6 0 0 Toy.h6 = Ok (tt, h')).
Proof.
  apply (scaling_replaces_only_continuous Toy.toy [0] Toy.X6 Toy.sc6 Toy.h6 0 Toy.X6).
  - apply NoDup_singleton.
  - vm_compute. reflexivity.
  - reflexivity.
Defined.

Example toy_scaling_runs : assign_scaled [0] Toy.sc6 0 0 Toy.h6 = Ok (tt, Toy.h6_scaled).
Proof. vm_compute. reflexivity. Qed.

Example toy_scaled_array :
  Toy.h6_scaled !! 0
  = Some (FloatMat [[-180 # 210; 0]; [-108 # 210; 1]; [-36 # 210; 0];
                    [36 # 210; 1]; [108 # 210; 0]; [180 # 210; 1]]%Q).
Proof. vm_compute. reflexivity. Qed.

(** C3 on the twenty rows of the cancer table. *)
Lemma holdout_partition_witness :
  ∃ test_ix mask X_test y_test X_dev y_dev σ' m Xt Xd,
    holdout_split Toy.toy 0 1 Toy.sigma20
    = Ok ((test_ix, mask, (X_test, y_test), (X_dev, y_dev)), σ')
    ∧ length test_ix
      = Z.to_nat (Qfloor ((1 # 10) * inject_Z (Z.of_nat (length Toy.X20))))
    ∧ NoDup test_ix
    ∧ heap σ' !! mask = Some (BoolVec m)
    ∧ heap σ' !! X_test = Some (FloatMat Xt) ∧ take_rows Toy.X20 test_ix = Ok Xt
    ∧ heap σ' !! X_dev = Some (FloatMat Xd) ∧ take_rows Toy.X20 (flatnonzero m) = Ok Xd
    ∧ (∀ i, i ∈ test_ix → i ∉ flatnonzero m)
    ∧ (∀ i, i < length Toy.X20 ↔ i ∈ test_ix ∨ i ∈ flatnonzero m)
    ∧ length Xd = length Toy.X20 - length test_ix.
Proof.
  apply (holdout_partition Toy.toy toy_ok Toy.sigma20 0 1 Toy.X20 Toy.y20); reflexivity.
Defined.

Example toy_holdout :
  (λ r, (r.1.1.1.1, r.1.1.2, r.1.2)) <$> holdout_split Toy.toy 0 1 Toy.sigma20
  = Ok ([3; 4], (2, 3), (5, 6)).
Proof. vm_compute. reflexivity. Qed.

Example toy_fractions : fractions 1 = [1%Q] ∧ fractions 4 = [1 # 4; 2 # 4; 3 # 4; 4 # 4]%Q.
Proof. split; vm_compute; reflexivity. Qed.

Example toy_subsample :
  fst <$> draw_subsample Toy.toy 0 1 (1 # 2) Toy.sigma20 = Ok ([3; 4; 5; 6; 7; 8; 9; 10; 11; 12], 2, 3).
Proof. vm_compute. reflexivity. Qed.

Example toy_draws :
  (λ σ, draw_shape <$> draws σ) <$> run_loops Toy.toy Cancer Toy.argv2 Toy.cancer_df
  = Ok [(20, 2); (18, 9); (18, 18); (20, 2); (18, 9); (18, 18)].
Proof. vm_compute. reflexivity. Qed.

Example toy_keys :
  (λ σ, record_key <$> results σ) <$> run_loops Toy.toy Sepsis Toy.argv2 Toy.sepsis_df
  = Ok [(0, (1 # 2)%Q, "random_forest"%string, "cross_entropy"%string);
        (0, (2 # 2)%Q, "random_forest"%string, "cross_entropy"%string);
        (1, (1 # 2)%Q, "random_forest"%string, "cross_entropy"%string);
        (1, (2 # 2)%Q, "random_forest"%string, "cross_entropy"%string)].
Proof. vm_compute. reflexivity. Qed.

Example toy_main_again :
  (main Toy.toy Cancer "20240102-120000" Toy.argv2 (Toy.fs_again Cancer)).1 = Ok tt.
Proof. vm_compute. reflexivity. Qed.

(** A run that fails: with one fold requested the split raises, and the
    file system is left as it was. *)
Example toy_main_fails :
  let argv := {| arg_results_dir := ["results"]; arg_data_dir := ["data"];
                 arg_k_inner := 1; arg_k_outer := 1; arg_random_seed := 42;
                 arg_num_subsamples := 1 |} in
  (main Toy.toy Sepsis "20240101-000000" argv (Toy.fs_of Sepsis)).1 = Err ValueError.
Proof. vm_compute. reflexivity. Qed.

(** ** Loading the table: features, labels and the continuous columns *)

Lemma get_loc_Some (cols : list string) (col : string) (p : nat) :
  get_loc cols col = Some p ↔ cols !! p = Some col ∧ ∀ j, j < p → cols !! j ≠ Some col.
Proof.
  unfold get_loc. rewrite fmap_Some. split.
  - intros ([i x] & (Hx & -> & Hlt)%list_find_Some & ->). simpl. split; [done|].
    intros j Hj Hc. by apply (Hlt j col).
  - intros [Hp Hlt]. exists (p, col). split; [|done]. apply list_find_Some.
    split_and!; [done..|]. intros j y Hy Hj ->. by apply (Hlt j).
Qed.

Lemma get_loc_None (cols : list string) (col : string) :
  get_loc cols col = None ↔ col ∉ cols.
Proof.
  unfold get_loc. rewrite fmap_None, list_find_None, Forall_forall. split.
  - intros Hall Hin. by apply (Hall col).
  - intros Hnin x Hx ->. done.
Qed.

Lemma get_loc_NoDup (cols : list string) (col : string) (p : nat) :
  NoDup cols → cols !! p = Some col → get_loc cols col = Some p.
Proof.
  intros Hnd Hp. apply get_loc_Some. split; [done|]. intros j Hj Hc.
  pose proof (NoDup_lookup _ _ _ _ Hnd Hp Hc). lia.
Qed.

(** Putting the label back at its position gives the row of the table. *)
Lemma delete_insert_back {A} (row : list A) (p : nat) (x : A) :
  row !! p = Some x →
  length (delete p row) = length row - 1
  ∧ row = take p (delete p row) ++ x :: drop p (delete p row).
Proof.
  intros Hp. pose proof (lookup_lt_Some _ _ _ Hp) as Hlt.
  rewrite delete_take_drop. split.
  - rewrite length_app, length_take, length_drop. lia.
  - rewrite take_app_length' by (rewrite length_take; lia).
    rewrite drop_app_length' by (rewrite length_take; lia).
    symmetry. by apply take_drop_middle.
Qed.

(** The positions of the columns that satisfy [P], found by name. *)
Lemma omap_get_loc_sorted (P : string → Prop) `{!∀ c, Decision (P c)}
    (pre l : list string) :
  NoDup (pre ++ l) →
  StronglySorted lt (omap (get_loc (pre ++ l)) (filter P l))
  ∧ Forall (λ j, length pre ≤ j) (omap (get_loc (pre ++ l)) (filter P l)).
Proof.
  revert pre. induction l as [|c l IH]; intros pre Hnd.
  - split; constructor.
  - specialize (IH (pre ++ [c])). rewrite <-(assoc_L (++)) in IH. simpl in IH.
    destruct (IH Hnd) as [Hs Hge]. rewrite length_app in Hge. simpl in Hge.
    destruct (decide (P c)) as [Hc|Hc].
    + rewrite filter_cons_True by done. simpl.
      rewrite (get_loc_NoDup _ c (length pre) Hnd) by (by apply list_lookup_middle).
      simpl. split.
      * constructor; [done|]. eapply Forall_impl; [exact Hge|]. simpl. lia.
      * constructor; [done|]. eapply Forall_impl; [exact Hge|]. simpl. lia.
    + rewrite filter_cons_False by done. split; [done|].
      eapply Forall_impl; [exact Hge|]. simpl. lia.
Qed.

Lemma elem_of_continuous_columns (df : DataFrame) (j : nat) :
  NoDup (df_columns df) →
  j ∈ continuous_columns df
  ↔ ∃ c, df_columns df !! j = Some c ∧ c ∉ categorical_variables.
Proof.
  intros Hnd. unfold continuous_columns. rewrite list_elem_of_omap. split.
  - intros (c & [Hc _]%list_elem_of_filter & [Hj _]%get_loc_Some). eauto.
  - intros (c & Hj & Hc). exists c. split.
    + apply list_elem_of_filter. split; [done|]. by eapply list_elem_of_lookup_2.
    + by apply get_loc_NoDup.
Qed.

Lemma StronglySorted_lt_NoDup (l : list nat) : StronglySorted lt l → NoDup l.
Proof.
  induction 1 as [|x l _ IH Hx]; constructor; [|done].
  intros Hin. rewrite Forall_forall in Hx. specialize (Hx x Hin). lia.
Qed.

(** X1.  Lines 41-44 of both scripts.  Splitting the table into [X] and [y]
    raises [ValueError] exactly when the label column is absent; otherwise
    [X] and [y] have one entry per table row, every row of [X] is the table
    row without its label entry, in the same order, and putting the label
    back at the label's position gives the table row again. *)
Theorem features_and_labels_split (s : script) (df : DataFrame) :
  match features_and_labels s df with
  | Err e => e = ValueError ∧ label_column s ∉ df_columns df
  | Ok (X, y) =>
      ∃ p, df_columns df !! p = Some (label_column s)
        ∧ length X = length (df_rows df) ∧ length y = length (df_rows df)
        ∧ ∀ i row, df_rows df !! i = Some row → p < length row →
            ∃ xr l, X !! i = Some xr ∧ y !! i = Some l
              ∧ length xr = length row - 1
              ∧ row = take p xr ++ l :: drop p xr
  end.
Proof.
  unfold features_and_labels.
  destruct (get_loc (df_columns df) (label_column s)) as [p|] eqn:Hp; simpl.
  - apply get_loc_Some in Hp as [Hp _]. exists p. rewrite !length_fmap.
    split_and!; [done..|]. intros i row Hrow Hlen.
    destruct (lookup_lt_is_Some_2 row p Hlen) as [l Hl].
    exists (delete p row), l. rewrite !list_lookup_fmap, Hrow. simpl. rewrite Hl.
    destruct (delete_insert_back row p l Hl) as [Hlen' Hback]. by split_and!.
  - split; [done|]. by apply get_loc_None.
Qed.

(** X2.  Lines 60-62 of the cancer script, column names being distinct.
    [continuous_col_ixs] lists, in increasing order and without repetition,
    the positions in [df.columns] of the columns that are not categorical;
    the label's own position is never among them.  The positions are those
    of the table, while [X] has the label column removed: index [j] selects
    in [X] the table column [j] when [j] is left of the label, and the table
    column [j + 1] when it is right of it. *)
Theorem continuous_columns_positions (df : DataFrame) :
  NoDup (df_columns df) →
  (∀ j, j ∈ continuous_columns df
        ↔ ∃ c, df_columns df !! j = Some c ∧ c ∉ categorical_variables)
  ∧ StronglySorted lt (continuous_columns df)
  ∧ NoDup (continuous_columns df)
  ∧ (∀ X y p j, features_and_labels Cancer df = Ok (X, y) →
       df_columns df !! p = Some (label_column Cancer) →
       j ∈ continuous_columns df →
       j ≠ p
       ∧ column j X = column (if decide (j < p) then j else S j) (df_rows df)).
Proof.
  intros Hnd.
  destruct (omap_get_loc_sorted (.∉ categorical_variables) [] (df_columns df) Hnd)
    as [Hsorted _].
  split_and!.
  - intros j. by apply elem_of_continuous_columns.
  - exact Hsorted.
  - by apply StronglySorted_lt_NoDup.
  - intros X y p j HXy Hp (c & Hj & Hc)%elem_of_continuous_columns; [|done].
    split.
    { intros ->. rewrite Hp in Hj. injection Hj as <-. apply Hc. simpl.
      unfold categorical_variables. set_solver. }
    unfold features_and_labels in HXy.
    rewrite (get_loc_NoDup _ _ p Hnd Hp) in HXy. simpl in HXy. injection HXy as <- _.
    unfold column. rewrite <-list_fmap_compose. apply list_fmap_ext.
    intros i row _. simpl. case_decide.
    + by rewrite list_lookup_delete_lt.
    + by rewrite list_lookup_delete_ge by lia.
Qed.

(** Integer-array indexing, entry by entry. *)
Lemma take_rows_lookup {A} (X X' : list A) (ix : list nat) :
  take_rows X ix = Ok X' →
  length X' = length ix
  ∧ ∀ k i, ix !! k = Some i → ∃ x, X' !! k = Some x ∧ X !! i = Some x.
Proof.
  unfold take_rows. destruct (mapM (X !!.) ix) as [rows|] eqn:Hrows; [|done].
  intros [= <-]. apply mapM_Some_1 in Hrows. split.
  - symmetry. by eapply Forall2_length.
  - intros k i Hk. destruct (Forall2_lookup_l _ _ _ _ _ Hrows Hk) as (x & Hx & Hi). eauto.
Qed.

Lemma take_rows_elem_of {A} (X X' : list A) (ix : list nat) (x : A) :
  take_rows X ix = Ok X' → x ∈ X' → x ∈ X.
Proof.
  intros [Hlen Hlook]%take_rows_lookup [k Hk]%list_elem_of_lookup.
  destruct (lookup_lt_is_Some_2 ix k) as [i Hi]; [rewrite <-Hlen; by eapply lookup_lt_Some|].
  destruct (Hlook k i Hi) as (x' & Hx' & HX). rewrite Hk in Hx'. injection Hx' as <-.
  by eapply list_elem_of_lookup_2.
Qed.

(** X3.  Lines 60-62 and 96-98 of the cancer script.  When the last column of the
    table is not categorical (so the label is not the last column), its
    position is in [continuous_col_ixs] but beyond the columns of the feature
    arrays, and [X_ktrain[:, continuous_col_ixs]] raises [IndexError] in any
    fold with training rows. *)
Theorem continuous_index_beyond_features (E : Externals) (random_seed : Z)
    (df : DataFrame) (c : string) (cfg : Config) (fold : list nat * list nat)
    (h : store) (aX ay : loc) (X_train : Matrix) (y_train : list Q) :
  NoDup (df_columns df) →
  last (df_columns df) = Some c → c ∉ categorical_variables →
  h !! aX = Some (FloatMat X_train) → h !! ay = Some (FloatVec y_train) →
  length y_train = length X_train →
  Forall (λ row, length row = length (df_columns df) - 1) X_train →
  fold.1 ≠ [] → (∀ i, i ∈ fold.1 ++ fold.2 → i < length X_train) →
  cancer_fold E Cancer random_seed (continuous_columns df) cfg aX ay fold h
  = Err IndexError.
Proof.
  intros Hnd Hlast Hc HX Hy Hlen Hwidth Hne Hix.
  pose proof (cancer_fold_run E random_seed (continuous_columns df) h aX ay
                X_train y_train cfg fold HX Hy) as Hrun.
  assert (heldout_ce E Cancer random_seed (continuous_columns df) cfg X_train y_train fold
          = Err IndexError) as Href; [|by rewrite Href in Hrun].
  unfold heldout_ce.
  destruct (take_rows_Ok X_train fold.1) as (Xk & HXk & HlenXk).
  { intros i Hi. apply Hix, elem_of_app. by left. }
  destruct (take_rows_Ok X_train fold.2) as (Xv & -> & _).
  { intros i Hi. apply Hix, elem_of_app. by right. }
  destruct (take_rows_Ok y_train fold.1) as (yk & -> & _).
  { intros i Hi. rewrite Hlen. apply Hix, elem_of_app. by left. }
  destruct (take_rows_Ok y_train fold.2) as (yv & -> & _).
  { intros i Hi. rewrite Hlen. apply Hix, elem_of_app. by right. }
  rewrite HXk. simpl. unfold fit_scaler, take_cols.
  destruct (mapM _ Xk) as [sel|] eqn:Hsel; [exfalso|done].
  (* a training row exists, and it has no entry at the last table position *)
  destruct Xk as [|row Xk]; [by destruct fold.1|].
  assert (length row = length (df_columns df) - 1) as Hrow.
  { rewrite Forall_forall in Hwidth. apply Hwidth.
    eapply take_rows_elem_of; [exact HXk|]. left. }
  cbn [mapM] in Hsel.
  destruct (mapM (row !!.) (continuous_columns df)) as [vals|] eqn:Hvals; [|done].
  assert (length (df_columns df) - 1 ∈ continuous_columns df) as Hin.
  { apply elem_of_continuous_columns; [done|]. exists c. split; [|done].
    rewrite Nat.sub_1_r, <-last_lookup. done. }
  apply mapM_Some_1 in Hvals.
  apply list_elem_of_lookup in Hin as [k Hk].
  destruct (Forall2_lookup_l _ _ _ _ _ Hvals Hk) as (v & _ & Hv).
  apply lookup_lt_Some in Hv. lia.
Qed.

(** ** Rows and labels through the holdout and the subsample *)

Lemma take_rows_Forall2 {A} (X X' : list A) (ix : list nat) :
  take_rows X ix = Ok X' ↔ Forall2 (λ i x, X !! i = Some x) ix X'.
Proof.
  unfold take_rows. split.
  - destruct (mapM (X !!.) ix) as [rows|] eqn:Hrows; [|done].
    intros [= <-]. by apply mapM_Some_1.
  - intros HF. apply mapM_Some_2 in HF. by rewrite HF.
Qed.

(** Indexing two arrays with one index array keeps their entries paired. *)
Lemma take_rows_zip {A B} (X X' : list A) (y y' : list B) (ix : list nat) :
  take_rows X ix = Ok X' → take_rows y ix = Ok y' →
  take_rows (zip X y) ix = Ok (zip X' y') ∧ length y' = length X'.
Proof.
  rewrite !take_rows_Forall2. intros HX Hy.
  pose proof (Forall2_length _ _ _ HX) as HlX. pose proof (Forall2_length _ _ _ Hy) as Hly.
  split; [|congruence].
  apply Forall2_same_length_lookup_2.
  - rewrite length_zip_with. lia.
  - intros k i [x b] Hi (x' & b' & [= <- <-] & Hx & Hb)%lookup_zip_with_Some.
    pose proof (Forall2_lookup_lr _ _ _ _ _ _ HX Hi Hx) as Hx'.
    pose proof (Forall2_lookup_lr _ _ _ _ _ _ Hy Hi Hb) as Hb'.
    apply lookup_zip_with_Some. eauto.
Qed.

Lemma select_mask_zip {A B} (X X' : list A) (y y' : list B) (m : list bool) :
  select_mask X m = Ok X' → select_mask y m = Ok y' →
  take_rows (zip X y) (flatnonzero m) = Ok (zip X' y') ∧ length y' = length X'.
Proof.
  intros HX Hy.
  assert (length m = length X) as HlX by (unfold select_mask in HX; by case_decide).
  assert (length m = length y) as Hly by (unfold select_mask in Hy; by case_decide).
  rewrite select_mask_flatnonzero in HX by done.
  rewrite select_mask_flatnonzero in Hy by done. by apply take_rows_zip.
Qed.

(** Indexing the result of an indexing is indexing with the composed indices. *)
Lemma take_rows_compose {A} (X X' X'' : list A) (ix ix' : list nat) :
  take_rows X ix = Ok X' → take_rows X' ix' = Ok X'' →
  ∃ ix'', take_rows ix ix' = Ok ix'' ∧ take_rows X ix'' = Ok X''.
Proof.
  rewrite !take_rows_Forall2. intros HX HX'.
  pose proof (Forall2_length _ _ _ HX) as Hlen.
  destruct (take_rows_Ok ix ix') as (ix'' & Hix'' & _).
  { intros k Hk. apply list_elem_of_lookup in Hk as [j Hj].
    destruct (Forall2_lookup_l _ _ _ _ _ HX' Hj) as (x & _ & Hx).
    apply lookup_lt_Some in Hx. lia. }
  exists ix''. split; [done|]. apply take_rows_Forall2 in Hix''.
  apply take_rows_Forall2, Forall2_same_length_lookup_2.
  - rewrite <-(Forall2_length _ _ _ Hix''). by eapply Forall2_length.
  - intros j i x Hi Hx.
    destruct (Forall2_lookup_r _ _ _ _ _ Hix'' Hi) as (k & Hk & Hki).
    pose proof (Forall2_lookup_lr _ _ _ _ _ _ HX' Hk Hx) as Hx'. simpl in Hx'.
    by apply (Forall2_lookup_lr _ _ _ _ _ _ HX Hki Hx').
Qed.

Lemma take_rows_NoDup (ix ix' ix'' : list nat) :
  NoDup ix → NoDup ix' → take_rows ix ix' = Ok ix'' → NoDup ix''.
Proof.
  intros Hnd Hnd' HF%take_rows_Forall2. apply NoDup_alt. intros j1 j2 i H1 H2.
  destruct (Forall2_lookup_r _ _ _ _ _ HF H1) as (k1 & Hk1 & Hi1).
  destruct (Forall2_lookup_r _ _ _ _ _ HF H2) as (k2 & Hk2 & Hi2).
  assert (k1 = k2) as -> by (by apply (NoDup_lookup ix k1 k2 i)).
  by apply (NoDup_lookup ix' j1 j2 k2).
Qed.

Lemma StronglySorted_seq (m n : nat) : StronglySorted lt (seq m n).
Proof.
  revert m. induction n as [|n IH]; intros m; simpl; constructor; [apply IH|].
  apply Forall_forall. intros i Hi%elem_of_seq. lia.
Qed.

(** The positions a mask selects come in increasing order. *)
Lemma flatnonzero_sorted (m : list bool) : StronglySorted lt (flatnonzero m).
Proof.
  unfold flatnonzero. generalize (seq 0 (length m)), (StronglySorted_seq 0 (length m)).
  intros l Hl. induction Hl as [|i l Hl IH Hi]; [constructor|].
  destruct (decide (m !! i = Some true)) as [Hm|Hm].
  - rewrite filter_cons_True by done. constructor; [done|].
    apply Forall_forall. intros j [_ Hj]%list_elem_of_filter.
    by apply (proj1 (Forall_forall _ _) Hi).
  - by rewrite filter_cons_False by done.
Qed.

Lemma NoDup_flatnonzero (m : list bool) : NoDup (flatnonzero m).
Proof. unfold flatnonzero. apply NoDup_filter, NoDup_seq. Qed.

(** A duplicate-free sample of all [n] indices is a permutation of them. *)
Lemma full_sample_Permutation (ix : list nat) (n : nat) :
  NoDup ix → length ix = n → (∀ i, i ∈ ix → i < n) → ix ≡ₚ seq 0 n.
Proof.
  intros Hnd Hlen Hb. apply submseteq_length_Permutation.
  - apply NoDup_submseteq; [done|]. intros i Hi. apply elem_of_seq. specialize (Hb i Hi). lia.
  - rewrite length_seq. lia.
Qed.

Lemma Forall2_lookup_Permutation {A} (X : list A) (ix ix' : list nat) (X' : list A) :
  ix ≡ₚ ix' → Forall2 (λ i x, X !! i = Some x) ix X' →
  ∃ X'', Forall2 (λ i x, X !! i = Some x) ix' X'' ∧ X' ≡ₚ X''.
Proof.
  intros Hp. revert X'. induction Hp as [|i ix ix' _ IH|i j ix|ix1 ix2 ix3 _ IH1 _ IH2];
    intros X' HF.
  - apply Forall2_nil_inv_l in HF as ->. exists []. by split.
  - apply Forall2_cons_inv_l in HF as (x & X1 & Hx & HF & ->).
    destruct (IH _ HF) as (X2 & HF2 & HP). exists (x :: X2). split; [by constructor|].
    by constructor.
  - apply Forall2_cons_inv_l in HF as (x & X1 & Hx & HF & ->).
    apply Forall2_cons_inv_l in HF as (x' & X2 & Hx' & HF & ->).
    exists (x' :: x :: X2). split; [by repeat constructor|]. apply perm_swap.
  - destruct (IH1 _ HF) as (X2 & HF2 & HP2). destruct (IH2 _ HF2) as (X3 & HF3 & HP3).
    exists X3. split; [done|]. by etrans.
Qed.

Lemma Forall2_lookup_seq {A} (X : list A) :
  Forall2 (λ i x, X !! i = Some x) (seq 0 (length X)) X.
Proof.
  apply Forall2_same_length_lookup_2; [by rewrite length_seq|].
  intros k i x [-> _]%lookup_seq Hx. done.
Qed.

Lemma take_rows_Permutation {A} (X X' : list A) (ix : list nat) :
  ix ≡ₚ seq 0 (length X) → take_rows X ix = Ok X' → X' ≡ₚ X.
Proof.
  intros Hp HF%take_rows_Forall2.
  destruct (Forall2_lookup_Permutation X ix _ X' Hp HF) as (X'' & HF'' & HP).
  rewrite HP. clear HP HF.
  pose proof (Forall2_lookup_seq X) as Hseq.
  assert (X'' = X) as ->; [|done].
  apply list_eq. intros k.
  destruct (X !! k) as [x|] eqn:Hx.
  - pose proof (lookup_lt_Some _ _ _ Hx) as Hk.
    destruct (Forall2_lookup_l _ _ _ _ _ HF'' (lookup_seq_lt 0 _ k Hk)) as (x' & -> & Hx').
    simpl in Hx'. congruence.
  - apply lookup_ge_None in Hx. apply lookup_ge_None.
    rewrite <-(Forall2_length _ _ _ HF''), length_seq. done.
Qed.

(** ** Sample sizes along the sweep *)

Lemma sample_size_mono (f1 f2 : Q) (n : nat) :
  (0 <= f1)%Q → (f1 <= f2)%Q → sample_size f1 n ≤ sample_size f2 n.
Proof.
  intros H0 H12. assert (0 <= f2)%Q as H0' by (by eapply Qle_trans).
  rewrite (sample_size_floor f1), (sample_size_floor f2) by done.
  assert (Qfloor (f1 * inject_Z (Z.of_nat n)) ≤ Qfloor (f2 * inject_Z (Z.of_nat n)))%Z.
  { apply Qfloor_resp_le, Qmult_le_compat_r; [done|].
    change 0%Q with (inject_Z 0). rewrite <-Zle_Qle. lia. }
  lia.
Qed.

(** [int((n / n) * M)] is [M]. *)
Lemma sample_size_full (n : Z) (M : nat) :
  (1 ≤ n)%Z → sample_size (fraction_of n n) M = M.
Proof.
  intros Hn. destruct n as [|p|p]; try lia.
  unfold sample_size, fraction_of, Qdiv, Qmult, Qinv. simpl.
  unfold py_int. simpl.
  replace (Z.pos (1 * p * 1)) with (Z.pos p) by lia.
  replace (Z.pos p * 1 * Z.of_nat M)%Z with (Z.of_nat M * Z.pos p)%Z by lia.
  rewrite Z.quot_mul by lia. lia.
Qed.

(** [int((1 / n) * M)] is [M // n]. *)
Lemma sample_size_first (n : Z) (M : nat) :
  (1 ≤ n)%Z → sample_size (fraction_of 1 n) M = M `div` Z.to_nat n.
Proof.
  intros Hn. destruct n as [|p|p]; try lia.
  unfold sample_size, fraction_of, Qdiv, Qmult, Qinv. simpl.
  unfold py_int. simpl.
  replace (Z.pos (1 * p * 1)) with (Z.pos p) by lia.
  replace (1 * 1 * Z.of_nat M)%Z with (Z.of_nat M) by lia.
  rewrite Z.quot_div_nonneg by lia.
  apply Nat2Z.inj. rewrite Z2Nat.id by (apply Z.div_pos; lia).
  rewrite Nat2Z.inj_div. f_equal. lia.
Qed.

Lemma fractions_last (n : Z) :
  (1 ≤ n)%Z → last (fractions n) = Some (fraction_of n n).
Proof.
  intros Hn. rewrite last_lookup.
  assert (length (fractions n) = Z.to_nat n) as ->
    by (unfold fractions; by rewrite length_fmap, length_seqZ).
  rewrite fractions_lookup by lia. f_equal. f_equal. lia.
Qed.

Lemma fractions_first (n : Z) :
  (1 ≤ n)%Z → ∃ rest, fractions n = fraction_of 1 n :: rest.
Proof.
  intros Hn. pose proof (fractions_lookup n 0 ltac:(lia)) as H0. simpl in H0.
  destruct (fractions n) as [|f rest]; [done|]. injection H0 as ->. eauto.
Qed.

Section Rows.

Context (E : Externals) (HE : ExternalsOk E).

(** What the split and the draw give, with the facts about the sample. *)
Lemma holdout_split_pairs (σ : State E) (X y : loc) (Xm : Matrix) (ym : list Q) :
  heap σ !! X = Some (FloatMat Xm) → heap σ !! y = Some (FloatVec ym) →
  length ym = length Xm →
  ∃ test_ix mask X_test y_test X_dev y_dev σ1 m Xt yt Xd yd,
    holdout_split E X y σ = Ok ((test_ix, mask, (X_test, y_test), (X_dev, y_dev)), σ1)
    ∧ heap σ `prefix_of` heap σ1
    ∧ heap σ1 !! X_test = Some (FloatMat Xt) ∧ heap σ1 !! y_test = Some (FloatVec yt)
    ∧ heap σ1 !! X_dev = Some (FloatMat Xd) ∧ heap σ1 !! y_dev = Some (FloatVec yd)
    ∧ heap σ1 !! mask = Some (BoolVec m)
    ∧ take_rows (zip Xm ym) test_ix = Ok (zip Xt yt) ∧ length yt = length Xt
    ∧ take_rows (zip Xm ym) (flatnonzero m) = Ok (zip Xd yd) ∧ length yd = length Xd
    ∧ NoDup test_ix
    ∧ (∀ i, i ∈ flatnonzero m ↔ i < length Xm ∧ i ∉ test_ix).
Proof.
  intros HX Hy Hlen.
  destruct (holdout_split_run E HE σ X y Xm ym HX Hy Hlen)
    as (m & Xt & yt & Xd & yd & Hm & HXt & Hyt & HXd & Hyd & Hrun).
  set (n := length Xm) in *.
  set (test_ix := (choice E (rng σ) n (sample_size (1 # 10) n)).1) in *.
  assert (sample_size (1 # 10) n ≤ n) as Hk by (apply sample_size_le; apply Qle_tenth).
  assert (∀ i, i ∈ test_ix → i < n) as Hbound by (intros i; by apply (choice_bound E HE)).
  destruct (take_rows_zip _ _ _ _ _ HXt Hyt) as [Ht Hlt].
  destruct (select_mask_zip _ _ _ _ _ HXd Hyd) as [Hd Hld].
  eexists _, _, _, _, _, _, _, m, Xt, yt, Xd, yd. split; [exact Hrun|]. cbn [heap].
  split_and!; try done.
  - by apply prefix_app_r.
  - by rewrite (lookup_own _ _ 0).
  - by rewrite (lookup_own _ _ 1).
  - by rewrite (lookup_own _ _ 3).
  - by rewrite (lookup_own _ _ 4).
  - by rewrite (lookup_own _ _ 2).
  - by apply (choice_NoDup E HE).
  - intros i. rewrite elem_of_flatnonzero. by apply cleared_mask_lookup.
Qed.

Lemma draw_subsample_pairs (σ : State E) (X_dev y_dev : loc) (Xd : Matrix) (yd : list Q)
    (f : Q) :
  heap σ !! X_dev = Some (FloatMat Xd) → heap σ !! y_dev = Some (FloatVec yd) →
  length yd = length Xd → (0 <= f)%Q → (f <= 1)%Q →
  ∃ train_ix X_train y_train σ' Xtr ytr,
    draw_subsample E X_dev y_dev f σ = Ok ((train_ix, X_train, y_train), σ')
    ∧ heap σ `prefix_of` heap σ'
    ∧ heap σ' !! X_train = Some (FloatMat Xtr) ∧ heap σ' !! y_train = Some (FloatVec ytr)
    ∧ take_rows (zip Xd yd) train_ix = Ok (zip Xtr ytr) ∧ length ytr = length Xtr
    ∧ NoDup train_ix ∧ length train_ix = sample_size f (length Xd)
    ∧ (∀ i, i ∈ train_ix → i < length Xd).
Proof.
  intros HX Hy Hlen Hf0 Hf1.
  destruct (draw_subsample_run E HE σ X_dev y_dev Xd yd f HX Hy Hlen Hf0 Hf1)
    as (Xtr & ytr & HXtr & Hytr & Hrun).
  assert (sample_size f (length Xd) ≤ length Xd) as Hk by (by apply sample_size_le).
  destruct (take_rows_zip _ _ _ _ _ HXtr Hytr) as [Ht Hlt].
  eexists _, _, _, _, Xtr, ytr. split; [exact Hrun|]. cbn [heap].
  split_and!; try done.
  - by apply prefix_app_r.
  - by rewrite (lookup_own _ _ 0).
  - by rewrite (lookup_own _ _ 1).
  - by apply (choice_NoDup E HE).
  - by apply (choice_length E HE).
  - intros i. by apply (choice_bound E HE).
Qed.

End Rows.

(** X4.  Lines 71-77 (cancer), 48-54 (sepsis).  The test holdout and the
    development pool keep every row with its own label: the pairs
    [(X_test[i], y_test[i])] are the pairs [(X[j], y[j])] at the drawn
    indices, in the order drawn, and the pairs of the development pool are
    those at the remaining indices, in increasing order. *)
Theorem holdout_keeps_labels_with_rows (E : Externals) (HE : ExternalsOk E) (σ : State E)
    (X y : loc) (Xm : Matrix) (ym : list Q) :
  heap σ !! X = Some (FloatMat Xm) → heap σ !! y = Some (FloatVec ym) →
  length ym = length Xm →
  ∃ test_ix mask X_test y_test X_dev y_dev σ1 m Xt yt Xd yd,
    holdout_split E X y σ = Ok ((test_ix, mask, (X_test, y_test), (X_dev, y_dev)), σ1)
    ∧ heap σ1 !! X_test = Some (FloatMat Xt) ∧ heap σ1 !! y_test = Some (FloatVec yt)
    ∧ heap σ1 !! X_dev = Some (FloatMat Xd) ∧ heap σ1 !! y_dev = Some (FloatVec yd)
    ∧ heap σ1 !! mask = Some (BoolVec m)
    ∧ take_rows (zip Xm ym) test_ix = Ok (zip Xt yt) ∧ length yt = length Xt
    ∧ take_rows (zip Xm ym) (flatnonzero m) = Ok (zip Xd yd) ∧ length yd = length Xd
    ∧ (∀ i, i ∈ flatnonzero m ↔ i < length Xm ∧ i ∉ test_ix)
    ∧ StronglySorted lt (flatnonzero m).
Proof.
  intros HX Hy Hlen.
  destruct (holdout_split_pairs E HE σ X y Xm ym HX Hy Hlen)
    as (test_ix & mask & X_test & y_test & X_dev & y_dev & σ1 & m & Xt & yt & Xd & yd
        & Hrun & _ & ? & ? & ? & ? & ? & ? & ? & ? & ? & _ & ?).
  eexists _, _, _, _, _, _, _, m, Xt, yt, Xd, yd. split_and!; try done.
  apply flatnonzero_sorted.
Qed.

(** X5.  Lines 71-83 (cancer), 48-60 (sepsis).  Whatever the fraction, the
    training subsample of a repetition consists of rows of the dataset with
    their own labels, taken at distinct row indices none of which is in the
    test holdout of that repetition. *)
Theorem training_rows_outside_holdout (E : Externals) (HE : ExternalsOk E) (σ : State E)
    (X y : loc) (Xm : Matrix) (ym : list Q) (f : Q) :
  heap σ !! X = Some (FloatMat Xm) → heap σ !! y = Some (FloatVec ym) →
  length ym = length Xm → (0 <= f)%Q → (f <= 1)%Q →
  ∃ test_ix mask X_test y_test X_dev y_dev σ1 train_ix X_train y_train σ2 Xtr ytr rows_ix,
    holdout_split E X y σ = Ok ((test_ix, mask, (X_test, y_test), (X_dev, y_dev)), σ1)
    ∧ draw_subsample E X_dev y_dev f σ1 = Ok ((train_ix, X_train, y_train), σ2)
    ∧ heap σ2 !! X_train = Some (FloatMat Xtr) ∧ heap σ2 !! y_train = Some (FloatVec ytr)
    ∧ length ytr = length Xtr
    ∧ take_rows (zip Xm ym) rows_ix = Ok (zip Xtr ytr)
    ∧ NoDup rows_ix
    ∧ (∀ i, i ∈ rows_ix → i < length Xm ∧ i ∉ test_ix).
Proof.
  intros HX Hy Hlen Hf0 Hf1.
  destruct (holdout_split_pairs E HE σ X y Xm ym HX Hy Hlen)
    as (test_ix & mask & X_test & y_test & X_dev & y_dev & σ1 & m & Xt & yt & Xd & yd
        & Hrun & _ & _ & _ & HXd & Hyd & _ & _ & _ & Hdev & Hld & _ & Hmask).
  destruct (draw_subsample_pairs E HE σ1 X_dev y_dev Xd yd f HXd Hyd Hld Hf0 Hf1)
    as (train_ix & X_train & y_train & σ2 & Xtr & ytr
        & Hdraw & _ & HXtr & Hytr & Htr & Hltr & Hnd & _ & _).
  destruct (take_rows_compose _ _ _ _ _ Hdev Htr) as (rows_ix & Hrows & Hcomp).
  eexists _, _, _, _, _, _, σ1, train_ix, X_train, y_train, σ2, Xtr, ytr, rows_ix.
  split_and!; try done.
  - eapply take_rows_NoDup; [apply NoDup_flatnonzero|exact Hnd|exact Hrows].
  - intros i Hi. apply Hmask. by eapply take_rows_elem_of.
Qed.

(** X6.  Lines 79-83 (cancer), 56-60 (sepsis).  Along the sweep the size of the
    training subsample never decreases, and at the last fraction the draw is
    a permutation of the whole development pool: the last point of the
    learning curve trains on every development row, each with its label. *)
Theorem sweep_ends_with_whole_pool (E : Externals) (HE : ExternalsOk E)
    (num_subsamples : Z) :
  (1 ≤ num_subsamples)%Z →
  (∀ k1 k2 f1 f2 M, k1 ≤ k2 →
     fractions num_subsamples !! k1 = Some f1 →
     fractions num_subsamples !! k2 = Some f2 →
     sample_size f1 M ≤ sample_size f2 M)
  ∧ ∃ f, last (fractions num_subsamples) = Some f
      ∧ ∀ (σ : State E) X_dev y_dev Xd yd,
          heap σ !! X_dev = Some (FloatMat Xd) → heap σ !! y_dev = Some (FloatVec yd) →
          length yd = length Xd →
          ∃ train_ix X_train y_train σ' Xtr ytr,
            draw_subsample E X_dev y_dev f σ = Ok ((train_ix, X_train, y_train), σ')
            ∧ train_ix ≡ₚ seq 0 (length Xd)
            ∧ heap σ' !! X_train = Some (FloatMat Xtr)
            ∧ heap σ' !! y_train = Some (FloatVec ytr)
            ∧ length ytr = length Xtr
            ∧ zip Xtr ytr ≡ₚ zip Xd yd.
Proof.
  intros Hn. split.
  - intros k1 k2 f1 f2 M Hk [Hk1 ->]%fractions_lookup_Some [Hk2 ->]%fractions_lookup_Some.
    apply sample_size_mono.
    + apply Qlt_le_weak, fraction_of_bounds; lia.
    + destruct (decide (k1 = k2)) as [->|Hne]; [apply Qle_refl|].
      apply Qlt_le_weak, fraction_of_lt; lia.
  - exists (fraction_of num_subsamples num_subsamples). split; [by apply fractions_last|].
    intros σ X_dev y_dev Xd yd HXd Hyd Hlen.
    destruct (fraction_of_bounds num_subsamples num_subsamples) as [Hf0 Hf1]; [lia..|].
    apply Qlt_le_weak in Hf0.
    destruct (draw_subsample_pairs E HE σ X_dev y_dev Xd yd _ HXd Hyd Hlen Hf0 Hf1)
      as (train_ix & X_train & y_train & σ' & Xtr & ytr
          & Hdraw & _ & HXtr & Hytr & Htr & Hltr & Hnd & Hsize & Hbound).
    rewrite sample_size_full in Hsize by done.
    assert (train_ix ≡ₚ seq 0 (length Xd)) as Hperm
      by (by apply full_sample_Permutation).
    eexists _, _, _, _, Xtr, ytr. split_and!; try done.
    eapply take_rows_Permutation; [|exact Htr].
    rewrite length_zip_with, Hlen, Nat.min_id. done.
Qed.

(** ** One fraction, and the first fraction of a run *)

Section FractionRuns.

Context (E : Externals) (HE : ExternalsOk E).
Variable s : script.
Variables k_inner random_seed : Z.
Variable continuous_col_ixs : list nat.
Variable num_classes : nat.
Variable search_space : SearchSpace.

Lemma fraction_body_run (rep : nat) (X_dev y_dev X_test y_test : loc) (f : Q)
    (Xd Xt : Matrix) (yd yt : list Q) (σ : State E) :
  heap σ !! X_dev = Some (FloatMat Xd) → heap σ !! y_dev = Some (FloatVec yd) →
  length yd = length Xd →
  heap σ !! X_test = Some (FloatMat Xt) → heap σ !! y_test = Some (FloatVec yt) →
  (0 <= f)%Q → (f <= 1)%Q →
  let n := length Xd in
  let c := choice E (rng σ) n (sample_size f n) in
  ∃ Xtr ytr,
    take_rows Xd c.1 = Ok Xtr ∧ take_rows yd c.1 = Ok ytr
    ∧ match select_on_values E s k_inner random_seed continuous_col_ixs search_space Xtr ytr
      with
      | Err e =>
          fraction_body E s k_inner random_seed continuous_col_ixs num_classes search_space
            rep X_dev y_dev X_test y_test f σ = Err e
      | Ok best =>
          match test_metrics E s random_seed continuous_col_ixs num_classes best Xtr ytr Xt yt
          with
          | Err e =>
              fraction_body E s k_inner random_seed continuous_col_ixs num_classes
                search_space rep X_dev y_dev X_test y_test f σ = Err e
          | Ok ms => ∃ extras,
              fraction_body E s k_inner random_seed continuous_col_ixs num_classes
                search_space rep X_dev y_dev X_test y_test f σ
              = Ok (tt, {| heap := heap σ ++ [FloatMat Xtr; FloatVec ytr] ++ extras;
                           rng := c.2;
                           results := results σ ++ records_of s rep f ms;
                           draws := draws σ ++ [{| draw_population := n;
                                                   draw_size := sample_size f n;
                                                   draw_sample := c.1 |}] |})
          end
      end.
Proof.
  intros HXd Hyd Hlen HXt Hyt Hf0 Hf1. cbv zeta.
  destruct (draw_subsample_run E HE σ X_dev y_dev Xd yd f HXd Hyd Hlen Hf0 Hf1)
    as (Xtr & ytr & HXtr & Hytr & Hdraw).
  exists Xtr, ytr. split_and!; [done..|].
  unfold fraction_body. rewrite M_bind_eq, Hdraw. rewrite M_bind_eq, in_heap_eq.
  cbn [heap rng results draws].
  pose proof (select_best_run E s k_inner random_seed continuous_col_ixs search_space
                (heap σ ++ [FloatMat Xtr; FloatVec ytr]) (length (heap σ) + 0)
                (length (heap σ) + 1) Xtr ytr) as Hsel.
  destruct (select_on_values _ _ _ _ _ _ Xtr ytr) as [best|e].
  - destruct Hsel as [ex1 Hsel].
    { split; [by rewrite (lookup_own _ _ 0)|by rewrite (lookup_own _ _ 1)]. }
    rewrite Hsel. rewrite M_bind_eq, in_heap_eq. cbn [heap rng results draws].
    pose proof (refit_and_score_run E random_seed continuous_col_ixs num_classes s
                  ((heap σ ++ [FloatMat Xtr; FloatVec ytr]) ++ ex1)
                  (length (heap σ) + 0) (length (heap σ) + 1) X_test y_test
                  Xtr Xt ytr yt best) as Href.
    destruct (test_metrics _ _ _ _ _ _ _ _ _ _) as [ms|e].
    + destruct Href as [ex2 Href].
      { apply lookup_app_l_Some. by rewrite (lookup_own _ _ 0). }
      { apply lookup_app_l_Some. by rewrite (lookup_own _ _ 1). }
      { by do 2 apply lookup_app_l_Some. }
      { by do 2 apply lookup_app_l_Some. }
      rewrite Href. exists (ex1 ++ ex2). unfold results_extend. cbn [heap rng results draws].
      by rewrite <-!(assoc_L (++)).
    + rewrite Href; [done|..].
      { apply lookup_app_l_Some. by rewrite (lookup_own _ _ 0). }
      { apply lookup_app_l_Some. by rewrite (lookup_own _ _ 1). }
      { by do 2 apply lookup_app_l_Some. }
      { by do 2 apply lookup_app_l_Some. }
  - rewrite Hsel; [done|].
    split; [by rewrite (lookup_own _ _ 0)|by rewrite (lookup_own _ _ 1)].
Qed.

End FractionRuns.

(** The value-level selection fails with the split when the split does. *)
Lemma select_on_values_split_error (E : Externals) (s : script) (k_inner random_seed : Z)
    (C : list nat) (space : SearchSpace) (X : Matrix) (y : list Q)
    (c : Config) (cs : list Config) (e : exn) :
  gen_combinations space = Ok (c :: cs) →
  KFold_split E k_inner random_seed (length X) = Err e →
  select_on_values E s k_inner random_seed C space X y = Err e.
Proof.
  intros Hgen Hsplit. unfold select_on_values. rewrite Hgen. simpl.
  unfold heldout_ces. by rewrite Hsplit.
Qed.

Lemma config_of_combinations (s : script) :
  ∃ c cs, gen_combinations (config_of s) = Ok (c :: cs).
Proof. destruct s; vm_compute; eauto. Qed.

Lemma KFold_split_too_few (E : Externals) (n_splits random_state : Z) (R : nat) :
  (n_splits ≤ 1)%Z ∨ R < Z.to_nat n_splits →
  KFold_split E n_splits random_state R = Err ValueError.
Proof.
  intros Hk. unfold KFold_split. case_decide; [done|]. case_decide; [done|]. lia.
Qed.

(** No metric can be computed on a test holdout without rows. *)
Lemma test_metrics_empty_holdout (E : Externals) (s : script) (random_seed : Z)
    (C : list nat) (num_classes : nat) (best : option Config)
    (X : Matrix) (y yt : list Q) :
  ∃ e, test_metrics E s random_seed C num_classes best X y [] yt = Err e.
Proof.
  unfold test_metrics.
  destruct (or_raise TypeError best) as [cfg|e]; simpl; [|eauto].
  destruct (fit_scaler E s C X) as [sc|e]; simpl; [|eauto].
  destruct (apply_scaler s C sc X) as [X'|e]; simpl; [|eauto].
  destruct (clf_fit E s cfg random_seed X' y) as [m|e]; simpl; [|eauto].
  destruct s; simpl; eauto.
Qed.

Lemma features_and_labels_Ok (s : script) (df : DataFrame) :
  label_column s ∈ df_columns df →
  ∃ X y, features_and_labels s df = Ok (X, y)
    ∧ length X = length (df_rows df) ∧ length y = length (df_rows df).
Proof.
  intros Hin. destruct (features_and_labels s df) as [[X y]|e] eqn:Hf.
  - exists X, y. split; [done|]. by apply features_and_labels_length in Hf.
  - unfold features_and_labels in Hf.
    destruct (get_loc _ _) eqn:Hp; [done|]. by apply get_loc_None in Hp.
Qed.

(** The size of the development pool. *)
Lemma dev_pool_length {A} (X Xd : list A) (test_ix : list nat) (m : list bool) :
  NoDup test_ix → (∀ i, i ∈ test_ix → i < length X) →
  clear_at (replicate (length X) true) test_ix = Some m →
  select_mask X m = Ok Xd →
  length Xd = length X - length test_ix.
Proof.
  intros Hnd Hb Hm HXd. rewrite (select_mask_length _ _ _ HXd).
  pose proof (clear_at_count test_ix (replicate (length X) true) m Hnd) as Hc.
  rewrite count_true_replicate in Hc. rewrite <-Hc; [lia| |done].
  intros i Hi. by apply lookup_replicate_2, Hb.
Qed.

Section FirstFraction.

Context (E : Externals) (HE : ExternalsOk E).

(** A run with at least one repetition and one fraction reaches the first
    fraction of repetition 0 in a state that holds the test holdout and the
    development pool; when that fraction raises, so does the run. *)
Lemma run_loops_first (s : script) (argv : Args) (df : DataFrame) :
  label_column s ∈ df_columns df →
  (1 ≤ arg_k_outer argv)%Z → (1 ≤ arg_num_subsamples argv)%Z →
  ∃ X y (σ1 : State E) X_dev y_dev X_test y_test Xd yd Xt yt,
    features_and_labels s df = Ok (X, y)
    ∧ heap σ1 !! X_dev = Some (FloatMat Xd) ∧ heap σ1 !! y_dev = Some (FloatVec yd)
    ∧ heap σ1 !! X_test = Some (FloatMat Xt) ∧ heap σ1 !! y_test = Some (FloatVec yt)
    ∧ length yd = length Xd
    ∧ length Xd = length (df_rows df) - length (df_rows df) `div` 10
    ∧ length Xt = length (df_rows df) `div` 10
    ∧ ∀ e,
        fraction_body E s (arg_k_inner argv) (arg_random_seed argv)
          (match s with Cancer => continuous_columns df | Sepsis => [] end)
          (count_classes y) (config_of s) 0 X_dev y_dev X_test y_test
          (fraction_of 1 (arg_num_subsamples argv)) σ1 = Err e →
        run_loops E s argv df = Err e.
Proof.
  intros Hlabel Hk Hn.
  destruct (features_and_labels_Ok s df Hlabel) as (X & y & Hf & HlX & Hly).
  set (σ0 := {| heap := [FloatMat X; FloatVec y];
                rng := default_rng E (arg_random_seed argv);
                results := []; draws := [] |} : State E).
  destruct (holdout_split_run E HE σ0 0 1 X y eq_refl eq_refl ltac:(congruence))
    as (m & Xt & yt & Xd & yd & Hm & HXt & Hyt & HXd & Hyd & Hsplit).
  cbv zeta in Hsplit.
  set (n := length X) in *.
  set (c := choice E (rng σ0) n (sample_size (1 # 10) n)) in *.
  assert (sample_size (1 # 10) n ≤ n) as Hsz by (apply sample_size_le; apply Qle_tenth).
  assert (length c.1 = n `div` 10) as Hlc
    by (unfold c; rewrite (choice_length E HE) by done; apply sample_size_tenth).
  assert (length Xd = n - n `div` 10) as HlXd.
  { rewrite <-Hlc. eapply dev_pool_length; [| |exact Hm|exact HXd].
    - by apply (choice_NoDup E HE).
    - intros i. by apply (choice_bound E HE). }
  eexists X, y, _, _, _, _, _, Xd, yd, Xt, yt. split; [exact Hf|].
  split_and!; cycle -1.
  - intros e He. unfold run_loops. rewrite Hf. simpl. fold σ0.
    unfold outer_loop.
    destruct (Z.to_nat (arg_k_outer argv)) as [|k] eqn:Hko; [lia|].
    cbn [seq foldM]. rewrite M_bind_eq. unfold repetition at 1.
    rewrite M_bind_eq, Hsplit.
    destruct (fractions_first (arg_num_subsamples argv) Hn) as [rest ->].
    cbn [foldM]. rewrite M_bind_eq, He. done.
  - cbn [heap]. by rewrite (lookup_own _ _ 3).
  - cbn [heap]. by rewrite (lookup_own _ _ 4).
  - cbn [heap]. by rewrite (lookup_own _ _ 0).
  - cbn [heap]. by rewrite (lookup_own _ _ 1).
  - by rewrite (select_mask_length _ _ _ HXd), (select_mask_length _ _ _ Hyd).
  - by rewrite HlXd, <-HlX.
  - destruct (take_rows_lookup _ _ _ HXt) as [-> _]. by rewrite Hlc, <-HlX.
Qed.

End FirstFraction.

(** ** What a run records, and when it cannot *)

Lemma length_bind_const {A B} (f : A → list B) (l : list A) (c : nat) :
  (∀ x, length (f x) = c) → length (l ≫= f) = length l * c.
Proof.
  intros Hf. induction l as [|x l IH]; [done|].
  cbn [mbind list_bind]. simpl. rewrite length_app, Hf, IH. done.
Qed.

Lemma run_loops_keys (E : Externals) (s : script) (argv : Args) (df : DataFrame)
    (σ : State E) :
  run_loops E s argv df = Ok σ →
  record_key <$> results σ = expected_keys s (arg_k_outer argv) (arg_num_subsamples argv).
Proof.
  intros Hrun. unfold run_loops in Hrun.
  apply result_bind_Ok in Hrun as ([X y] & _ & Hrun).
  destruct (outer_loop _ _ _ _ _ _ _ _ _ _ _ _) as [[u σ']|] eqn:Hloop; [|done].
  injection Hrun as <-.
  apply outer_loop_results in Hloop as (new & Hr & Hk). simpl in Hr. by rewrite Hr.
Qed.

Section Loops.

Context (E : Externals) (HE : ExternalsOk E).
Variable s : script.
Variables k_inner k_outer random_seed num_subsamples : Z.
Variable continuous_col_ixs : list nat.
Variable num_classes : nat.
Variable search_space : SearchSpace.

Lemma outer_loop_prefix (X y : loc) (Xm : Matrix) (ym : list Q) (σ σ' : State E) (u : unit) :
  heap σ !! X = Some (FloatMat Xm) → heap σ !! y = Some (FloatVec ym) →
  length ym = length Xm →
  outer_loop E s k_inner k_outer random_seed num_subsamples continuous_col_ixs num_classes
    search_space X y σ = Ok (u, σ') →
  heap σ `prefix_of` heap σ'.
Proof.
  intros HX Hy Hlen. unfold outer_loop.
  generalize (seq 0 (Z.to_nat k_outer)) as reps. intros reps. generalize tt as u0.
  revert σ HX Hy. induction reps as [|rep reps IH]; intros σ HX Hy u0 Hrun.
  - by injection Hrun as _ <-.
  - cbn [foldM] in Hrun. apply M_bind_Ok in Hrun as (u1 & σ1 & H1 & Hrun).
    apply (repetition_draws_run E HE _ _ _ _ _ _ _ X y Xm ym) in H1 as [Hp _]; [|done..].
    etrans; [exact Hp|]. eapply IH; eauto using prefix_lookup_Some.
Qed.

(** With no fraction to sweep, every repetition only draws its holdout. *)
Lemma outer_loop_no_fractions (X y : loc) (Xm : Matrix) (ym : list Q) (reps : list nat)
    (σ : State E) :
  (num_subsamples ≤ 0)%Z →
  heap σ !! X = Some (FloatMat Xm) → heap σ !! y = Some (FloatVec ym) →
  length ym = length Xm →
  ∃ σ',
    foldM (λ _ rep,
             repetition E s k_inner random_seed num_subsamples continuous_col_ixs num_classes
               search_space X y rep) tt reps σ = Ok (tt, σ')
    ∧ results σ' = results σ.
Proof.
  intros Hn HX Hy Hlen. revert σ HX Hy.
  induction reps as [|rep reps IH]; intros σ HX Hy.
  - exists σ. by split.
  - destruct (holdout_split_run E HE σ X y Xm ym HX Hy Hlen)
      as (m & Xt & yt & Xd & yd & _ & _ & _ & _ & _ & Hsplit).
    cbv zeta in Hsplit. cbn [foldM]. rewrite M_bind_eq. unfold repetition at 1.
    rewrite M_bind_eq, Hsplit. unfold fractions. rewrite seqZ_nil by done.
    cbn [fmap list_fmap foldM].
    match goal with |- context [mret tt ?σ1] => destruct (IH σ1) as (σ' & Hrun & Hres) end.
    + cbn [heap]. by apply lookup_app_l_Some.
    + cbn [heap]. by apply lookup_app_l_Some.
    + exists σ'. split; [exact Hrun|]. by rewrite Hres.
Qed.

End Loops.

(** X7.  Lines 80-150 (cancer), 57-107 (sepsis).  The cross-entropy a fraction
    records is that of one model: the configuration is selected on the
    training subsample alone (the test holdout takes no part in the
    selection), the scaler and the classifier are refit on the whole training
    subsample, and the value recorded first, under [cross_entropy], is the
    cross-entropy of that model on the test holdout.  The records appended
    carry the keys of the fraction; in the sepsis script the cross-entropy
    is the only one.  Nothing is stated of the value of the cancer script's
    [f1] record. *)
Theorem recorded_cross_entropy_of_selected_model (E : Externals) (HE : ExternalsOk E)
    (s : script) (k_inner random_seed : Z) (continuous_col_ixs : list nat)
    (num_classes : nat) (search_space : SearchSpace) (rep : nat)
    (X_dev y_dev X_test y_test : loc) (f : Q)
    (Xd Xt : Matrix) (yd yt : list Q) (σ σ' : State E) (u : unit) :
  heap σ !! X_dev = Some (FloatMat Xd) → heap σ !! y_dev = Some (FloatVec yd) →
  length yd = length Xd →
  heap σ !! X_test = Some (FloatMat Xt) → heap σ !! y_test = Some (FloatVec yt) →
  (0 <= f)%Q → (f <= 1)%Q →
  fraction_body E s k_inner random_seed continuous_col_ixs num_classes search_space
    rep X_dev y_dev X_test y_test f σ = Ok (u, σ') →
  ∃ train_ix Xtr ytr cfg sc Xtr' Xt' m P ce recs,
    take_rows Xd train_ix = Ok Xtr ∧ take_rows yd train_ix = Ok ytr
    ∧ select_on_values E s k_inner random_seed continuous_col_ixs search_space Xtr ytr
      = Ok (Some cfg)
    ∧ fit_scaler E s continuous_col_ixs Xtr = Ok sc
    ∧ apply_scaler s continuous_col_ixs sc Xtr = Ok Xtr'
    ∧ clf_fit E s cfg random_seed Xtr' ytr = Ok m
    ∧ apply_scaler s continuous_col_ixs sc Xt = Ok Xt'
    ∧ clf_predict_proba E m Xt' = Ok P
    ∧ cross_entropy_of E s yt P = Ok ce
    ∧ results σ' = results σ ++ recs
    ∧ record_key <$> recs = fraction_keys s rep f
    ∧ recs !! 0 = Some {| rec_rep := rep; rec_fraction := f; rec_method := method_name s;
                          rec_metric := "cross_entropy"; rec_value := ce |}.
Proof.
  intros HXd Hyd Hlen HXt Hyt Hf0 Hf1 Hrun.
  destruct (fraction_body_run E HE s k_inner random_seed continuous_col_ixs num_classes
              search_space rep X_dev y_dev X_test y_test f Xd Xt yd yt σ
              HXd Hyd Hlen HXt Hyt Hf0 Hf1) as (Xtr & ytr & HXtr & Hytr & Hcases).
  exists (choice E (rng σ) (length Xd) (sample_size f (length Xd))).1, Xtr, ytr.
  destruct (select_on_values _ _ _ _ _ _ Xtr ytr) as [best|e] eqn:Hsel; [|congruence].
  destruct (test_metrics _ _ _ _ _ _ _ _ _ _) as [ms|e] eqn:Hms; [|congruence].
  destruct Hcases as [extras Hcases]. rewrite Hcases in Hrun. injection Hrun as _ <-.
  unfold test_metrics in Hms.
  repeat (apply result_bind_Ok in Hms as (? & ? & Hms)).
  destruct best as [cfg|]; [|done]. simplify_eq/=.
  eexists _, _, _, _, _, _, _, _. split_and!; try done; by destruct s.
Qed.

(** X8.  Lines 69-91 (cancer), 46-68 (sepsis).  A run with at least one repetition
    and one fraction raises [ValueError], and writes nothing, when fewer than
    two inner folds are asked for or when the smallest training subsample,
    [(N - N // 10) // num_subsamples] rows of a table of [N] rows, has fewer
    rows than inner folds. *)
Theorem too_few_rows_for_folds (E : Externals) (HE : ExternalsOk E) (s : script)
    (argv : Args) (df : DataFrame) :
  label_column s ∈ df_columns df →
  (1 ≤ arg_k_outer argv)%Z → (1 ≤ arg_num_subsamples argv)%Z →
  (arg_k_inner argv ≤ 1)%Z
  ∨ (length (df_rows df) - length (df_rows df) `div` 10)
      `div` Z.to_nat (arg_num_subsamples argv) < Z.to_nat (arg_k_inner argv) →
  run_loops E s argv df = Err ValueError
  ∧ ∀ time_string fs, read_csv (dataset_path s argv) fs = Ok df →
      main E s time_string argv fs = (Err ValueError, fs).
Proof.
  intros Hlabel Hk Hn Hfew.
  assert (run_loops E s argv df = Err ValueError) as Hrun.
  { destruct (run_loops_first E HE s argv df Hlabel Hk Hn)
      as (X & y & σ1 & X_dev & y_dev & X_test & y_test & Xd & yd & Xt & yt
          & Hf & HXd & Hyd & HXt & Hyt & Hlen & HlXd & _ & Hfirst).
    apply Hfirst.
    destruct (fraction_of_bounds 1 (arg_num_subsamples argv)) as [Hf0 Hf1]; [lia..|].
    apply Qlt_le_weak in Hf0.
    destruct (fraction_body_run E HE s (arg_k_inner argv) (arg_random_seed argv)
                (match s with Cancer => continuous_columns df | Sepsis => [] end)
                (count_classes y) (config_of s) 0 X_dev y_dev X_test y_test _ Xd Xt yd yt σ1
                HXd Hyd Hlen HXt Hyt Hf0 Hf1) as (Xtr & ytr & HXtr & _ & Hcases).
    cbv zeta in HXtr.
    assert (length Xtr
            = (length (df_rows df) - length (df_rows df) `div` 10)
                `div` Z.to_nat (arg_num_subsamples argv)) as HlXtr.
    { destruct (take_rows_lookup _ _ _ HXtr) as [-> _].
      rewrite (choice_length E HE) by (by apply sample_size_le).
      by rewrite sample_size_first, HlXd. }
    destruct (config_of_combinations s) as (c & cs & Hgen).
    rewrite (select_on_values_split_error E s _ _ _ _ Xtr ytr c cs ValueError Hgen)
      in Hcases; [done|].
    apply KFold_split_too_few. rewrite HlXtr. done. }
  split; [done|]. intros t fs Hdf. unfold main. fold (dataset_path s argv).
  rewrite Hdf. simpl. by rewrite Hrun.
Qed.

(** X9.  Lines 71-72 and 125-129 (cancer), 48-49 and 94-96 (sepsis).  On a table
    of fewer than ten rows [int(0.1 * N)] is 0 and the test holdout has no
    row, so no fraction can be scored: a run with at least one repetition and
    one fraction raises and writes nothing. *)
Theorem small_dataset_never_scores (E : Externals) (HE : ExternalsOk E) (s : script)
    (argv : Args) (df : DataFrame) :
  length (df_rows df) < 10 →
  (1 ≤ arg_k_outer argv)%Z → (1 ≤ arg_num_subsamples argv)%Z →
  (∃ e, run_loops E s argv df = Err e)
  ∧ ∀ time_string fs, read_csv (dataset_path s argv) fs = Ok df →
      ∃ e, main E s time_string argv fs = (Err e, fs).
Proof.
  intros Hsmall Hk Hn.
  assert (∃ e, run_loops E s argv df = Err e) as [e Hrun].
  { destruct (decide (label_column s ∈ df_columns df)) as [Hlabel|Hlabel].
    - destruct (run_loops_first E HE s argv df Hlabel Hk Hn)
        as (X & y & σ1 & X_dev & y_dev & X_test & y_test & Xd & yd & Xt & yt
            & Hf & HXd & Hyd & HXt & Hyt & Hlen & _ & HlXt & Hfirst).
      rewrite Nat.div_small in HlXt by done. apply nil_length_inv in HlXt as ->.
      destruct (fraction_of_bounds 1 (arg_num_subsamples argv)) as [Hf0 Hf1]; [lia..|].
      apply Qlt_le_weak in Hf0.
      destruct (fraction_body_run E HE s (arg_k_inner argv) (arg_random_seed argv)
                  (match s with Cancer => continuous_columns df | Sepsis => [] end)
                  (count_classes y) (config_of s) 0 X_dev y_dev X_test y_test _ Xd [] yd yt
                  σ1 HXd Hyd Hlen HXt Hyt Hf0 Hf1) as (Xtr & ytr & _ & _ & Hcases).
      destruct (select_on_values _ _ _ _ _ _ Xtr ytr) as [best|e]; [|eauto].
      destruct (test_metrics_empty_holdout E s (arg_random_seed argv)
                  (match s with Cancer => continuous_columns df | Sepsis => [] end)
                  (count_classes y) best Xtr ytr yt) as [e He].
      rewrite He in Hcases. eauto.
    - exists ValueError. unfold run_loops, features_and_labels.
      apply get_loc_None in Hlabel. by rewrite Hlabel. }
  split; [eauto|]. intros t fs Hdf. exists e. unfold main. fold (dataset_path s argv).
  rewrite Hdf. simpl. by rewrite Hrun.
Qed.

(** X10.  Lines 69, 79 and 153-159 (cancer), 46, 56 and 110-116 (sepsis).  The
    counts are not validated: with [k_outer ≤ 0] the outer loop does not
    run, with [num_subsamples ≤ 0] each repetition only draws its test
    holdout; either way the loops complete without fitting a model, the
    generator has been used once per repetition, and the table a run then
    saves has no row. *)
Theorem nonpositive_counts_give_empty_table (E : Externals) (HE : ExternalsOk E)
    (s : script) (argv : Args) (df : DataFrame) :
  label_column s ∈ df_columns df →
  (arg_k_outer argv ≤ 0)%Z ∨ (arg_num_subsamples argv ≤ 0)%Z →
  ∃ σ, run_loops E s argv df = Ok σ
    ∧ results σ = []
    ∧ length (draws σ) = Z.to_nat (arg_k_outer argv)
    ∧ ∀ time_string fs fs' u, read_csv (dataset_path s argv) fs = Ok df →
        main E s time_string argv fs = (Ok u, fs') →
        files fs' !! outfile_path s time_string argv = Some (ResultsCsv []).
Proof.
  intros Hlabel Hcount.
  destruct (features_and_labels_Ok s df Hlabel) as (X & y & Hf & HlX & Hly).
  assert (∃ σ, run_loops E s argv df = Ok σ ∧ results σ = []) as (σ & Hrun & Hres).
  { unfold run_loops. rewrite Hf. simpl. destruct Hcount as [Hk|Hn].
    - unfold outer_loop. rewrite Z2Nat.nonpos by done. simpl. eauto.
    - unfold outer_loop.
      match goal with |- context [foldM _ tt ?reps ?σ0] =>
        destruct (outer_loop_no_fractions E HE s (arg_k_inner argv) (arg_random_seed argv)
                    (arg_num_subsamples argv)
                    (match s with Cancer => continuous_columns df | Sepsis => [] end)
                    (count_classes y) (config_of s) 0 1 X y reps σ0 Hn eq_refl eq_refl
                    ltac:(congruence)) as (σ' & Hloop & Hres)
      end.
      rewrite Hloop. eauto. }
  exists σ. split_and!; [done..| |].
  - pose proof (run_loops_draws E HE s argv df σ Hrun) as Hd.
    apply (f_equal length) in Hd. rewrite length_fmap in Hd. rewrite Hd.
    unfold expected_draws. destruct Hcount as [Hk|Hn].
    + by rewrite Z2Nat.nonpos by done.
    + rewrite (length_bind_const _ _ 1), length_seq; [lia|].
      intros _. unfold repetition_draws, fractions. by rewrite seqZ_nil by done.
  - intros t fs fs' u Hdf Hmain.
    destruct (main_Ok_table E s t argv fs fs' u df Hdf Hmain) as (σ' & Hσ' & Hfile).
    rewrite Hrun in Hσ'. injection Hσ' as <-. by rewrite Hfile, Hres.
Qed.

(** X11.  Lines 133-150 (cancer), 99-107 (sepsis).  The table of a completed run
    has one row per repetition, fraction and metric: [2 * k_outer *
    num_subsamples] rows in the cancer script, [k_outer * num_subsamples] in
    the sepsis script; every row carries a repetition number below [k_outer],
    one of the swept fractions, the script's method name and one of its
    metric names. *)
Theorem table_row_count (E : Externals) (s : script) (argv : Args) (df : DataFrame) :
  match run_loops E s argv df with
  | Ok σ =>
      length (results σ)
      = Z.to_nat (arg_k_outer argv)
        * (Z.to_nat (arg_num_subsamples argv) * match s with Cancer => 2 | Sepsis => 1 end)
      ∧ ∀ r, r ∈ results σ →
          rec_rep r < Z.to_nat (arg_k_outer argv)
          ∧ rec_fraction r ∈ fractions (arg_num_subsamples argv)
          ∧ rec_method r = method_name s
          ∧ rec_metric r ∈ metric_names s
  | Err _ => True
  end.
Proof.
  destruct (run_loops E s argv df) as [σ|e] eqn:Hrun; [|done].
  apply run_loops_keys in Hrun. split.
  - rewrite <-(length_fmap record_key), Hrun. unfold expected_keys.
    rewrite (length_bind_const _ _ (Z.to_nat (arg_num_subsamples argv)
                                    * match s with Cancer => 2 | Sepsis => 1 end)),
      length_seq; [done|].
    intros rep. unfold repetition_keys.
    rewrite (length_bind_const _ _ (match s with Cancer => 2 | Sepsis => 1 end)).
    + unfold fractions. by rewrite length_fmap, length_seqZ.
    + intros f. unfold fraction_keys. rewrite length_fmap. by destruct s.
  - intros r Hr.
    assert (record_key r ∈ expected_keys s (arg_k_outer argv) (arg_num_subsamples argv))
      as Hkey by (rewrite <-Hrun; by apply list_elem_of_fmap_2).
    unfold expected_keys in Hkey.
    apply list_elem_of_bind in Hkey as (rep & Hkey & Hrep%elem_of_seq).
    apply list_elem_of_bind in Hkey as (f & Hkey & Hfr).
    apply list_elem_of_fmap in Hkey as (name & Hkey & Hname).
    unfold record_key in Hkey. injection Hkey as -> -> -> ->.
    split_and!; [lia|done..].
Qed.

(** X12.  Lines 69-150 (cancer), 46-107 (sepsis).  Nothing a run does changes an
    array that exists already: a fraction leaves the development pool and the
    test holdout as they are, a repetition leaves the dataset as it is (the
    only in-place writes go to the mask and the copies made in the same
    repetition), and at the end of the loops [X] and [y] are the arrays read
    from the table. *)
Theorem dataset_arrays_never_modified (E : Externals) (HE : ExternalsOk E) (s : script)
    (argv : Args) (df : DataFrame) :
  (∀ k_inner continuous_col_ixs num_classes search_space rep X_dev y_dev X_test y_test f
      Xd Xt yd yt (σ σ' : State E) u,
     heap σ !! X_dev = Some (FloatMat Xd) → heap σ !! y_dev = Some (FloatVec yd) →
     length yd = length Xd →
     heap σ !! X_test = Some (FloatMat Xt) → heap σ !! y_test = Some (FloatVec yt) →
     (0 <= f)%Q → (f <= 1)%Q →
     fraction_body E s k_inner (arg_random_seed argv) continuous_col_ixs num_classes
       search_space rep X_dev y_dev X_test y_test f σ = Ok (u, σ') →
     heap σ `prefix_of` heap σ')
  ∧ (∀ k_inner continuous_col_ixs num_classes search_space rep X y Xm ym
        (σ σ' : State E) u,
       heap σ !! X = Some (FloatMat Xm) → heap σ !! y = Some (FloatVec ym) →
       length ym = length Xm →
       repetition E s k_inner (arg_random_seed argv) (arg_num_subsamples argv)
         continuous_col_ixs num_classes search_space X y rep σ = Ok (u, σ') →
       heap σ `prefix_of` heap σ')
  ∧ (∀ X y σ, features_and_labels s df = Ok (X, y) → run_loops E s argv df = Ok σ →
       heap σ !! 0 = Some (FloatMat X) ∧ heap σ !! 1 = Some (FloatVec y)).
Proof.
  split_and!.
  - intros k_inner C nc space rep X_dev y_dev X_test y_test f Xd Xt yd yt σ σ' u
      HXd Hyd Hlen HXt Hyt Hf0 Hf1 Hrun.
    by destruct (fraction_body_draws E HE s k_inner (arg_random_seed argv) C nc space rep
                   X_dev y_dev X_test y_test f Xd Xt yd yt σ σ' u
                   HXd Hyd Hlen HXt Hyt Hf0 Hf1 Hrun).
  - intros k_inner C nc space rep X y Xm ym σ σ' u HX Hy Hlen Hrun.
    by destruct (repetition_draws_run E HE s k_inner (arg_random_seed argv)
                   (arg_num_subsamples argv) C nc space X y Xm ym rep σ σ' u
                   HX Hy Hlen Hrun).
  - intros X y σ Hf Hrun. unfold run_loops in Hrun. rewrite Hf in Hrun. simpl in Hrun.
    destruct (outer_loop _ _ _ _ _ _ _ _ _ _ _ _) as [[u σ']|] eqn:Hloop; [|done].
    injection Hrun as <-.
    apply features_and_labels_length in Hf as [HlX Hly].
    apply (outer_loop_prefix E HE _ _ _ _ _ _ _ _ 0 1 X y) in Hloop;
      [|done|done|congruence].
    split; eapply prefix_lookup_Some; eauto.
Qed.

(** ** The files a run touches *)

Lemma string_length_app (s1 s2 : string) :
  String.length (s1 +:+ s2) = String.length s1 + String.length s2.
Proof. induction s1 as [|c s1 IH]; simpl; [done|]. by rewrite IH. Qed.

Lemma string_app_inj_r (u t t' : string) : t +:+ u = t' +:+ u → t = t'.
Proof.
  revert t'. induction t as [|c t IH]; intros [|c' t'] Heq.
  - done.
  - apply (f_equal String.length) in Heq.
    rewrite !string_length_app in Heq. simpl in Heq. lia.
  - apply (f_equal String.length) in Heq.
    rewrite !string_length_app in Heq. simpl in Heq. lia.
  - injection Heq as -> Heq. f_equal. by apply IH.
Qed.

Lemma parent_app (d : path) (name : string) : parent (d ++ [name]) = d.
Proof.
  unfold parent. rewrite length_app. simpl.
  rewrite take_app_length' by lia. done.
Qed.

Lemma outfile_path_inj (s s' : script) (t t' : string) (argv argv' : Args) :
  outfile_path s' t' argv' = outfile_path s t argv →
  s' = s ∧ t' = t ∧ arg_results_dir argv' = arg_results_dir argv.
Proof.
  unfold outfile_path. intros [[Hdir Htask]%app_inj_tail Hname]%app_inj_tail.
  assert (s' = s) as -> by (by destruct s, s').
  split_and!; [done| |done].
  apply string_app_inj_r in Hname. by apply (inj (String.append _)) in Hname.
Qed.

Lemma outfile_not_dataset (s s' : script) (t : string) (argv argv' : Args) :
  dataset_path s' argv' ≠ outfile_path s t argv.
Proof.
  unfold outfile_path, dataset_path. intros [_ Hname]%app_inj_tail.
  destruct s, s'; cbn in Hname; discriminate.
Qed.

Lemma main_files (E : Externals) (s : script) (t : string) (argv : Args) (fs : FileSystem)
    (p : path) :
  p ≠ outfile_path s t argv → files (main E s t argv fs).2 !! p = files fs !! p.
Proof.
  intros Hp. unfold main.
  destruct (read_csv _ fs ≫= run_loops E s argv) as [σ|e]; [|done].
  pose proof (save_results_files (results σ) (arg_results_dir argv ++ [task_dir s])
                (outfile_prefix s +:+ t) fs) as Hsave.
  destruct (save_results _ _ _ fs) as [[u|e] fs']; simpl; rewrite Hsave; [|done].
  by apply lookup_insert_ne.
Qed.


(** X14.  Lines 18-25 and 152-159 (cancer), 16-24 and 109-116 (sepsis).  A run
    changes no file but its own output: every other path holds what it held,
    in particular the dataset of either script, whose name can never be an
    output name; and the output path determines the script, the start time
    and the results directory, so a run leaves the tables of runs of the
    other script, of another start time or of another results directory as
    they are. *)
Theorem run_overwrites_no_other_file (E : Externals) (s : script) (time_string : string)
    (argv : Args) (fs : FileSystem) :
  (∀ p, p ≠ outfile_path s time_string argv →
     files (main E s time_string argv fs).2 !! p = files fs !! p)
  ∧ (∀ s' argv',
       files (main E s time_string argv fs).2 !! dataset_path s' argv'
       = files fs !! dataset_path s' argv')
  ∧ (∀ s' t' argv',
       outfile_path s' t' argv' = outfile_path s time_string argv →
       s' = s ∧ t' = time_string ∧ arg_results_dir argv' = arg_results_dir argv).
Proof.
  split_and!.
  - intros p. apply main_files.
  - intros s' argv'. apply main_files, outfile_not_dataset.
  - intros s' t' argv'. apply outfile_path_inj.
Qed.

(** ** The selection loop, all or nothing *)

Lemma result_mapM_length {A B} (f : A → result B) (l : list A) (k : list B) :
  mapM f l = Ok k → length k = length l.
Proof.
  revert k. induction l as [|x l IH]; intros k Hk.
  - by injection Hk as <-.
  - cbn [mapM] in Hk. apply result_bind_Ok in Hk as (b & _ & Hk).
    apply result_bind_Ok in Hk as (k' & Hk' & Hk). injection Hk as <-.
    simpl. by rewrite (IH k').
Qed.

Lemma KFold_split_Ok (E : Externals) (n_splits random_state : Z) (R : nat)
    (folds : list (list nat * list nat)) :
  KFold_split E n_splits random_state R = Ok folds →
  (2 ≤ n_splits)%Z ∧ Z.to_nat n_splits ≤ R ∧ length folds = Z.to_nat n_splits.
Proof.
  unfold KFold_split. case_decide; [done|]. case_decide; [done|]. intros [= <-].
  split_and!; [lia..|].
  unfold fold_sizes. by rewrite length_fmap, length_reshape, length_fmap, length_seq.
Qed.

Section SelectInversion.

Variable cesf : Config → result (list Q).

Let g (best : option Q * option Config) (cfg : Config) : result (option Q * option Config) :=
  ces ← cesf cfg; Ok (update_best best cfg ces).

(** The loop state is empty before the first configuration and holds one of
    the configurations seen afterwards. *)
Let seen (pre : list Config) (st : option Q * option Config) : Prop :=
  (pre = [] ∧ st = (None, None)) ∨ (∃ q b, st = (Some q, Some b) ∧ b ∈ pre).

Lemma select_fold_Ok (l pre : list Config) (st st' : option Q * option Config) :
  foldM g st l = Ok st' → seen pre st →
  (∀ c, c ∈ l → ∃ ces, cesf c = Ok ces) ∧ seen (pre ++ l) st'.
Proof.
  revert pre st. induction l as [|x l IH]; intros pre st Hrun Hst.
  - injection Hrun as <-. rewrite app_nil_r. split; [|done]. by intros c ?%elem_of_nil.
  - cbn [foldM] in Hrun. apply result_bind_Ok in Hrun as (st1 & Hx & Hrun).
    unfold g in Hx. apply result_bind_Ok in Hx as (ces & Hces & Hx). injection Hx as <-.
    rewrite (cons_middle x pre l), (assoc_L (++)).
    assert (x ∈ pre ++ [x]) as Hx by (apply elem_of_app; right; left).
    assert (∀ b, b ∈ pre → b ∈ pre ++ [x]) as Hpre
      by (intros b ?; apply elem_of_app; by left).
    destruct (IH (pre ++ [x]) _ Hrun) as [Hall Hseen].
    + right. destruct Hst as [[-> ->]|(q & b & -> & Hb)]; simpl.
      * by exists (np_mean ces), x.
      * destruct (Qltb (np_mean ces) q).
        -- by exists (np_mean ces), x.
        -- exists q, b. split; [done|]. by apply Hpre.
    + split; [|done]. intros c [->|Hc]%elem_of_cons; eauto.
Qed.

End SelectInversion.

(** X16.  Lines 86-116 (cancer), 63-87 (sepsis).  The selection loop is all or
    nothing: when it completes, the training set has at least [k_inner ≥ 2]
    rows, every configuration of the search space has been scored on all
    [k_inner] folds (one that raises aborts the loop, whatever was found
    before), and [best_hps] is one of the configurations, never [None]. *)
Theorem selection_scores_every_configuration (E : Externals) (s : script)
    (k_inner random_seed : Z) (continuous_col_ixs : list nat) (search_space : SearchSpace)
    (h h' : store) (aX ay : loc) (X : Matrix) (y : list Q) (best : option Config) :
  h !! aX = Some (FloatMat X) → h !! ay = Some (FloatVec y) →
  select_best E s k_inner random_seed continuous_col_ixs search_space aX ay h
  = Ok (best, h') →
  ∃ combos b,
    gen_combinations search_space = Ok combos
    ∧ best = Some b ∧ b ∈ combos
    ∧ (2 ≤ k_inner)%Z ∧ Z.to_nat k_inner ≤ length X
    ∧ ∀ c, c ∈ combos →
        ∃ ces, heldout_ces E s k_inner random_seed continuous_col_ixs c X y = Ok ces
          ∧ length ces = Z.to_nat k_inner.
Proof.
  intros HX Hy Hrun.
  destruct (run_Ok_inv _ _ _
              (select_best_run E s k_inner random_seed continuous_col_ixs search_space
                 h aX ay X y (conj HX Hy)) _ _ Hrun) as [Href _].
  unfold select_on_values in Href.
  apply result_bind_Ok in Href as (combos & Hcombos & Href).
  apply result_bind_Ok in Href as (st & Hfold & Href). injection Href as <-.
  destruct (select_fold_Ok
              (λ c, heldout_ces E s k_inner random_seed continuous_col_ixs c X y)
              combos [] (None, None) st Hfold) as [Hall Hseen]; [by left|].
  simpl in Hseen. destruct Hseen as [[-> _]|(q & b & -> & Hb)].
  { by apply gen_combinations_nonempty in Hcombos. }
  assert (∀ c, c ∈ combos →
            ∃ ces, heldout_ces E s k_inner random_seed continuous_col_ixs c X y = Ok ces
              ∧ (2 ≤ k_inner)%Z ∧ Z.to_nat k_inner ≤ length X
              ∧ length ces = Z.to_nat k_inner) as Hall'.
  { intros c Hc. destruct (Hall c Hc) as [ces Hces]. exists ces. split; [done|].
    unfold heldout_ces in Hces. apply result_bind_Ok in Hces as (folds & Hfolds & Hces).
    apply KFold_split_Ok in Hfolds as (? & ? & Hlen). apply result_mapM_length in Hces.
    split_and!; [done..|congruence]. }
  destruct (Hall' b Hb) as (_ & _ & Hk & HR & _).
  exists combos, b. split_and!; [done..|].
  intros c Hc. destruct (Hall' c Hc) as (ces & ? & _ & _ & ?). eauto.
Qed.

(** X17.  Lines 60-62 and 96-98 of the cancer script.  When every column of the
    table is categorical, [continuous_col_ixs] is empty, the scaler is fit on
    an array without columns, and every fold raises [ValueError]: the cancer
    script needs a continuous column. *)
Theorem no_continuous_column_raises (E : Externals) (random_seed : Z) (df : DataFrame)
    (cfg : Config) (fold : list nat * list nat)
    (h : store) (aX ay : loc) (X_train : Matrix) (y_train : list Q) :
  (∀ c, c ∈ df_columns df → c ∈ categorical_variables) →
  h !! aX = Some (FloatMat X_train) → h !! ay = Some (FloatVec y_train) →
  length y_train = length X_train →
  (∀ i, i ∈ fold.1 ++ fold.2 → i < length X_train) →
  continuous_columns df = []
  ∧ cancer_fold E Cancer random_seed (continuous_columns df) cfg aX ay fold h
    = Err ValueError.
Proof.
  intros Hcat HX Hy Hlen Hix.
  assert (continuous_columns df = []) as Hnone.
  { unfold continuous_columns.
    assert (filter (.∉ categorical_variables) (df_columns df) = []) as ->; [|done].
    induction (df_columns df) as [|c cols IH]; [done|].
    rewrite filter_cons_False by (intros Hn; apply Hn, Hcat; left).
    apply IH. intros c' Hc'. apply Hcat. by right. }
  split; [done|]. rewrite Hnone.
  pose proof (cancer_fold_run E random_seed [] h aX ay X_train y_train cfg fold HX Hy)
    as Hrun.
  assert (heldout_ce E Cancer random_seed [] cfg X_train y_train fold = Err ValueError)
    as Href; [|by rewrite Href in Hrun].
  unfold heldout_ce.
  destruct (take_rows_Ok X_train fold.1) as (Xk & -> & _).
  { intros i Hi. apply Hix, elem_of_app. by left. }
  destruct (take_rows_Ok X_train fold.2) as (Xv & -> & _).
  { intros i Hi. apply Hix, elem_of_app. by right. }
  destruct (take_rows_Ok y_train fold.1) as (yk & -> & _).
  { intros i Hi. rewrite Hlen. apply Hix, elem_of_app. by left. }
  destruct (take_rows_Ok y_train fold.2) as (yv & -> & _).
  { intros i Hi. rewrite Hlen. apply Hix, elem_of_app. by right. }
  simpl. unfold fit_scaler, take_cols.
  assert (mapM (λ row : list Q, mapM (row !!.) ([] : list nat)) Xk
          = Some ((λ _, []) <$> Xk)) as ->.
  { apply mapM_Some_2, Forall2_fmap_r, Forall_Forall2_diag, Forall_forall. done. }
  simpl. unfold StandardScaler_fit. rewrite decide_True; [done|].
  right. unfold ncols. by destruct Xk.
Qed.

(** ** Centred training columns *)

Lemma Qsum_standardize (l : list Q) (m s : Q) :
  (Qsum ((λ x, standardize x m s) <$> l)
   == (Qsum l - inject_Z (Z.of_nat (length l)) * m) / s)%Q.
Proof.
  induction l as [|x l IH].
  - simpl. unfold Qdiv. ring.
  - cbn [fmap list_fmap Qsum foldr length]. fold (Qsum ((λ x, standardize x m s) <$> l)).
    fold (Qsum l). rewrite IH. unfold standardize, Qdiv.
    rewrite Nat2Z.inj_succ, <-Z.add_1_r, inject_Z_plus. ring.
Qed.

(** Standardizing a column with its own mean centres it. *)
Lemma np_mean_standardize (l : list Q) (s : Q) :
  (np_mean ((λ x, standardize x (np_mean l) s) <$> l) == 0)%Q.
Proof.
  unfold np_mean at 1. rewrite Qsum_standardize, length_fmap.
  destruct l as [|x l].
  - simpl. unfold Qdiv. ring.
  - assert (¬ (inject_Z (Z.of_nat (length (x :: l))) == 0)%Q) as Hn.
    { change 0%Q with (inject_Z 0). rewrite inject_Z_injective. simpl. lia. }
    unfold np_mean. set (n := inject_Z (Z.of_nat (length (x :: l)))) in *.
    set (S := Qsum (x :: l)).
    assert (S - n * (S / n) == 0)%Q as -> by (field; done).
    unfold Qdiv. ring.
Qed.

Lemma column_standardized (j : nat) (P P' : Matrix) (m s : Q) :
  length P' = length P →
  (∀ r row, P !! r = Some row →
     ∃ x row', row !! j = Some x ∧ P' !! r = Some row'
       ∧ row' !! j = Some (standardize x m s)) →
  column j P' = (λ x, standardize x m s) <$> column j P.
Proof.
  intros Hlen Hrows. apply list_eq. intros r. unfold column.
  rewrite !list_lookup_fmap. destruct (P !! r) as [row|] eqn:Hrow; simpl.
  - destruct (Hrows r row Hrow) as (x & row' & Hx & -> & Hx'). simpl.
    by rewrite Hx, Hx'.
  - apply lookup_ge_None in Hrow. rewrite <-Hlen in Hrow.
    apply lookup_ge_None in Hrow. by rewrite Hrow.
Qed.

(** X18.  Lines 96-101 and 119-123 (cancer), 73-74 and 90-92 (sepsis).  Scaling
    the rows the scaler was fit on centres them: after
    [X_ktrain[:, C] = scaler.transform(X_ktrain[:, C])] every continuous
    column of [X_ktrain] has mean 0, and in the sepsis script every column of
    the transformed training array has. *)
Theorem training_columns_centred (E : Externals) (C : list nat) (P : Matrix)
    (h : store) (a : loc) :
  h !! a = Some (FloatMat P) →
  (∀ sc h',
     NoDup C → fit_scaler E Cancer C P = Ok sc →
     assign_scaled C sc a a h = Ok (tt, h') →
     ∃ P', h' !! a = Some (FloatMat P')
       ∧ ∀ j, j ∈ C → (np_mean (column j P') == 0)%Q)
  ∧ (∀ sc h1 a' h',
       scaler_fit E a h = Ok (sc, h1) → scaler_transform sc a h1 = Ok (a', h') →
       ∃ P', h' !! a' = Some (FloatMat P')
         ∧ ∀ j, j < ncols P → (np_mean (column j P') == 0)%Q).
Proof.
  intros Ha. split.
  - intros sc h' Hnd Hfit Hrun.
    pose proof (assign_scaled_run C sc h a P Ha) as Hrun'.
    destruct (apply_scaler Cancer C sc P) as [P'|e] eqn:Happly; [|congruence].
    destruct Hrun' as [extras Hrun']. rewrite Hrun' in Hrun. injection Hrun as <-.
    exists P'. split.
    { apply lookup_app_l_Some, list_lookup_insert_eq. by eapply lookup_lt_Some. }
    intros j Hj.
    destruct (apply_scaler_entries E C P sc P P' Hnd Hfit Happly) as [Hlen Hrows].
    rewrite (column_standardized j P P' (np_mean (column j P))
               (column_scale E (column j P)) Hlen); [apply np_mean_standardize|].
    intros r row Hrow. destruct (Hrows r row Hrow) as (row' & Hrow' & _ & Hentries).
    assert (is_Some (row !! j)) as [x Hx].
    { unfold fit_scaler in Hfit. apply result_bind_Ok in Hfit as (sel & Hsel & _).
      apply take_cols_rows in Hsel as [_ Hsel].
      destruct (Hsel r row Hrow) as (srow & _ & [Hl HM]%mapM_lookup_at).
      apply list_elem_of_lookup in Hj as [k Hk]. rewrite <-(HM k j Hk).
      apply lookup_lt_is_Some_2. rewrite Hl. by eapply lookup_lt_Some. }
    exists x, row'. split_and!; [done..|]. rewrite (Hentries j x Hx). by rewrite decide_True.
  - intros sc h1 a' h' Hfit Htr.
    rewrite (scaler_fit_run E h a P Ha) in Hfit.
    destruct (StandardScaler_fit E P) as [sc'|] eqn:Hsc; [|done]. injection Hfit as <- <-.
    rewrite <-(app_nil_r h) in Htr.
    rewrite (scaler_transform_run h [] sc' a P) in Htr by (by rewrite app_nil_r).
    destruct (StandardScaler_transform sc' P) as [T|] eqn:HT; [|done].
    injection Htr as <- <-. exists T. split.
    { simpl. rewrite Nat.add_0_r. by apply list_lookup_middle. }
    intros j Hj.
    unfold StandardScaler_fit in Hsc. case_decide; [done|]. injection Hsc as <-.
    unfold StandardScaler_transform in HT. case_decide; [done|].
    case_decide as Hwidth; [|done]. injection HT as <-. simpl in Hwidth.
    assert (length (np_mean <$> columns P) = ncols P) as Hlm
      by (unfold columns; by rewrite !length_fmap, length_seq).
    rewrite (column_standardized j P _ (np_mean (column j P))
               (column_scale E (column j P)));
      [apply np_mean_standardize|by rewrite length_fmap|].
    intros r row Hrow.
    assert (length row = ncols P) as Hrl.
    { rewrite <-Hlm. apply (proj1 (Forall_forall _ _) Hwidth).
      by apply list_elem_of_lookup_2 with r. }
    destruct (lookup_lt_is_Some_2 row j) as [x Hx]; [lia|].
    exists x, (scale_row {| mean_ := np_mean <$> columns P;
                            scale_ := column_scale E <$> columns P |} row).
    split_and!; [done|by rewrite list_lookup_fmap, Hrow|].
    apply scale_row_lookup; [done|..]; simpl; unfold columns;
      rewrite list_lookup_fmap, list_lookup_fmap, lookup_seq_lt by done; done.
Qed.

(** ** The additional properties on the small instance *)

Ltac by_computation := apply (bool_decide_unpack _); vm_compute; exact I.

Example toy_label_first :
  continuous_columns Toy.label_first_df = [2]
  ∧ (features_and_labels Cancer Toy.label_first_df ≫= λ Xy, take_cols Xy.1 [2])
    = Err IndexError.
Proof. split; vm_compute; reflexivity. Qed.

(** The continuous columns of a table whose label comes first. *)
Lemma continuous_columns_positions_witness :
  (∀ j, j ∈ continuous_columns Toy.label_first_df
        ↔ ∃ c, df_columns Toy.label_first_df !! j = Some c ∧ c ∉ categorical_variables)
  ∧ StronglySorted lt (continuous_columns Toy.label_first_df)
  ∧ NoDup (continuous_columns Toy.label_first_df)
  ∧ (∀ X y p j, features_and_labels Cancer Toy.label_first_df = Ok (X, y) →
       df_columns Toy.label_first_df !! p = Some (label_column Cancer) →
       j ∈ continuous_columns Toy.label_first_df →
       j ≠ p
       ∧ column j X
         = column (if decide (j < p) then j else S j) (df_rows Toy.label_first_df)).
Proof. apply (continuous_columns_positions Toy.label_first_df). by_computation. Defined.

(** A fold on the six rows, with the column positions of that table. *)
Lemma continuous_index_beyond_features_witness :
  cancer_fold Toy.toy Cancer 42 (continuous_columns Toy.label_first_df)
    [("C"%string, HNum (1 # 10))] 0 1 ([3; 4; 5], [0; 1; 2]) Toy.h6
  = Err IndexError.
Proof.
  apply (continuous_index_beyond_features Toy.toy 42 Toy.label_first_df "age"
           [("C"%string, HNum (1 # 10))] ([3; 4; 5], [0; 1; 2]) Toy.h6 0 1 Toy.X6 Toy.y6).
  - by_computation.
  - reflexivity.
  - by_computation.
  - reflexivity.
  - reflexivity.
  - reflexivity.
  - repeat constructor.
  - simpl. discriminate.
  - intros i Hi. simpl in Hi.
    repeat (apply elem_of_cons in Hi as [->|Hi]); [simpl; lia..|by apply elem_of_nil in Hi].
Defined.

(** The split of the twenty rows of the cancer table. *)
Lemma holdout_keeps_labels_with_rows_witness :
  ∃ test_ix mask X_test y_test X_dev y_dev σ1 m Xt yt Xd yd,
    holdout_split Toy.toy 0 1 Toy.sigma20
    = Ok ((test_ix, mask, (X_test, y_test), (X_dev, y_dev)), σ1)
    ∧ heap σ1 !! X_test = Some (FloatMat Xt) ∧ heap σ1 !! y_test = Some (FloatVec yt)
    ∧ heap σ1 !! X_dev = Some (FloatMat Xd) ∧ heap σ1 !! y_dev = Some (FloatVec yd)
    ∧ heap σ1 !! mask = Some (BoolVec m)
    ∧ take_rows (zip Toy.X20 Toy.y20) test_ix = Ok (zip Xt yt) ∧ length yt = length Xt
    ∧ take_rows (zip Toy.X20 Toy.y20) (flatnonzero m) = Ok (zip Xd yd)
    ∧ length yd = length Xd
    ∧ (∀ i, i ∈ flatnonzero m ↔ i < length Toy.X20 ∧ i ∉ test_ix)
    ∧ StronglySorted lt (flatnonzero m).
Proof.
  apply (holdout_keeps_labels_with_rows Toy.toy toy_ok Toy.sigma20 0 1 Toy.X20 Toy.y20);
    reflexivity.
Defined.

(** The split of the twenty rows followed by the draw of half the pool. *)
Lemma training_rows_outside_holdout_witness :
  ∃ test_ix mask X_test y_test X_dev y_dev σ1 train_ix X_train y_train σ2 Xtr ytr rows_ix,
    holdout_split Toy.toy 0 1 Toy.sigma20
    = Ok ((test_ix, mask, (X_test, y_test), (X_dev, y_dev)), σ1)
    ∧ draw_subsample Toy.toy X_dev y_dev (1 # 2) σ1 = Ok ((train_ix, X_train, y_train), σ2)
    ∧ heap σ2 !! X_train = Some (FloatMat Xtr) ∧ heap σ2 !! y_train = Some (FloatVec ytr)
    ∧ length ytr = length Xtr
    ∧ take_rows (zip Toy.X20 Toy.y20) rows_ix = Ok (zip Xtr ytr)
    ∧ NoDup rows_ix
    ∧ (∀ i, i ∈ rows_ix → i < length Toy.X20 ∧ i ∉ test_ix).
Proof.
  apply (training_rows_outside_holdout Toy.toy toy_ok Toy.sigma20 0 1 Toy.X20 Toy.y20
           (1 # 2)).
  - reflexivity.
  - reflexivity.
  - reflexivity.
  - by vm_compute.
  - by vm_compute.
Defined.

Example toy_training_rows :
  fst <$> (r ← holdout_split Toy.toy 0 1 Toy.sigma20;
           draw_subsample Toy.toy r.1.2.1 r.1.2.2 (1 # 2) r.2)
  = Ok ([4; 5; 6; 7; 8; 9; 10; 11; 12], 7, 8).
Proof. vm_compute. reflexivity. Qed.

(** A sweep of two fractions. *)
Lemma sweep_ends_with_whole_pool_witness :
  (∀ k1 k2 f1 f2 M, k1 ≤ k2 →
     fractions 2 !! k1 = Some f1 → fractions 2 !! k2 = Some f2 →
     sample_size f1 M ≤ sample_size f2 M)
  ∧ ∃ f, last (fractions 2) = Some f
      ∧ ∀ (σ : State Toy.toy) X_dev y_dev Xd yd,
          heap σ !! X_dev = Some (FloatMat Xd) → heap σ !! y_dev = Some (FloatVec yd) →
          length yd = length Xd →
          ∃ train_ix X_train y_train σ' Xtr ytr,
            draw_subsample Toy.toy X_dev y_dev f σ = Ok ((train_ix, X_train, y_train), σ')
            ∧ train_ix ≡ₚ seq 0 (length Xd)
            ∧ heap σ' !! X_train = Some (FloatMat Xtr)
            ∧ heap σ' !! y_train = Some (FloatVec ytr)
            ∧ length ytr = length Xtr
            ∧ zip Xtr ytr ≡ₚ zip Xd yd.
Proof. apply (sweep_ends_with_whole_pool Toy.toy toy_ok 2). lia. Defined.

Example toy_whole_pool :
  (λ r, r.1.1.1) <$> draw_subsample Toy.toy 0 1 (2 # 2) Toy.sigma20
  = Ok [3; 4; 5; 6; 7; 8; 9; 10; 11; 12; 13; 14; 15; 16; 17; 18; 19; 0; 1; 2].
Proof. vm_compute. reflexivity. Qed.

Example toy_fraction_completes :
  match fraction_body Toy.toy Cancer 2 42 [0] 2 Toy.space3 0 5 6 2 3 (1 # 2)
          Toy.sigma20_split with
  | Ok _ => true
  | Err _ => false
  end = true.
Proof. vm_compute. reflexivity. Qed.

(** The fraction 1/2 of the first repetition on the twenty rows. *)
Lemma recorded_cross_entropy_of_selected_model_witness :
  ∃ train_ix Xtr ytr cfg sc Xtr' Xt' m P ce recs,
    take_rows Toy.Xd20 train_ix = Ok Xtr ∧ take_rows Toy.yd20 train_ix = Ok ytr
    ∧ select_on_values Toy.toy Cancer 2 42 [0] Toy.space3 Xtr ytr = Ok (Some cfg)
    ∧ fit_scaler Toy.toy Cancer [0] Xtr = Ok sc
    ∧ apply_scaler Cancer [0] sc Xtr = Ok Xtr'
    ∧ clf_fit Toy.toy Cancer cfg 42 Xtr' ytr = Ok m
    ∧ apply_scaler Cancer [0] sc Toy.Xt20 = Ok Xt'
    ∧ clf_predict_proba Toy.toy m Xt' = Ok P
    ∧ cross_entropy_of Toy.toy Cancer Toy.yt20 P = Ok ce
    ∧ results Toy.sigma20_half = results Toy.sigma20_split ++ recs
    ∧ record_key <$> recs = fraction_keys Cancer 0 (1 # 2)
    ∧ recs !! 0 = Some {| rec_rep := 0; rec_fraction := 1 # 2;
                          rec_method := method_name Cancer;
                          rec_metric := "cross_entropy"; rec_value := ce |}.
Proof.
  apply (recorded_cross_entropy_of_selected_model Toy.toy toy_ok Cancer 2 42 [0] 2
           Toy.space3 0 5 6 2 3 (1 # 2) Toy.Xd20 Toy.Xt20 Toy.yd20 Toy.yt20
           Toy.sigma20_split Toy.sigma20_half tt).
  - vm_compute. reflexivity.
  - vm_compute. reflexivity.
  - vm_compute. reflexivity.
  - vm_compute. reflexivity.
  - vm_compute. reflexivity.
  - by vm_compute.
  - by vm_compute.
  - pose proof toy_fraction_completes as Hok. unfold Toy.sigma20_half.
    destruct (fraction_body _ _ _ _ _ _ _ _ _ _ _ _ _ _) as [[[] σ]|e];
      [reflexivity|discriminate].
Defined.

(** Twenty inner folds on nine training rows. *)
Lemma too_few_rows_for_folds_witness :
  run_loops Toy.toy Sepsis Toy.argv_many_folds Toy.sepsis_df = Err ValueError
  ∧ ∀ time_string fs,
      read_csv (dataset_path Sepsis Toy.argv_many_folds) fs = Ok Toy.sepsis_df →
      main Toy.toy Sepsis time_string Toy.argv_many_folds fs = (Err ValueError, fs).
Proof.
  apply (too_few_rows_for_folds Toy.toy toy_ok Sepsis Toy.argv_many_folds Toy.sepsis_df).
  - by_computation.
  - simpl. lia.
  - simpl. lia.
  - right. vm_compute. lia.
Defined.

(** Six rows. *)
Lemma small_dataset_never_scores_witness :
  (∃ e, run_loops Toy.toy Cancer Toy.argv2 Toy.small_df = Err e)
  ∧ ∀ time_string fs, read_csv (dataset_path Cancer Toy.argv2) fs = Ok Toy.small_df →
      ∃ e, main Toy.toy Cancer time_string Toy.argv2 fs = (Err e, fs).
Proof.
  apply (small_dataset_never_scores Toy.toy toy_ok Cancer Toy.argv2 Toy.small_df).
  - vm_compute. lia.
  - simpl. lia.
  - simpl. lia.
Defined.

Example toy_small_dataset :
  (main Toy.toy Cancer "20240101-000000" Toy.argv2
     {| dirs := dirs (Toy.fs_of Cancer);
        files := {[ dataset_path Cancer Toy.argv2 := DatasetCsv Toy.small_df ]} |}).1
  = Err ValueError.
Proof. vm_compute. reflexivity. Qed.

(** No repetition. *)
Lemma nonpositive_counts_give_empty_table_witness :
  ∃ σ, run_loops Toy.toy Cancer Toy.argv_no_repetition Toy.cancer_df = Ok σ
    ∧ results σ = []
    ∧ length (draws σ) = Z.to_nat (arg_k_outer Toy.argv_no_repetition)
    ∧ ∀ time_string fs fs' u,
        read_csv (dataset_path Cancer Toy.argv_no_repetition) fs = Ok Toy.cancer_df →
        main Toy.toy Cancer time_string Toy.argv_no_repetition fs = (Ok u, fs') →
        files fs' !! outfile_path Cancer time_string Toy.argv_no_repetition
        = Some (ResultsCsv []).
Proof.
  apply (nonpositive_counts_give_empty_table Toy.toy toy_ok Cancer Toy.argv_no_repetition
           Toy.cancer_df).
  - by_computation.
  - left. simpl. lia.
Defined.

Example toy_empty_table :
  (main Toy.toy Cancer "20240101-000000" Toy.argv_no_repetition (Toy.fs_of Cancer)).1 = Ok tt
  ∧ files (main Toy.toy Cancer "20240101-000000" Toy.argv_no_repetition (Toy.fs_of Cancer)).2
      !! outfile_path Cancer "20240101-000000" Toy.argv_no_repetition
    = Some (ResultsCsv []).
Proof. split; vm_compute; reflexivity. Qed.

Example toy_row_count :
  (λ σ, length (results σ)) <$> run_loops Toy.toy Cancer Toy.argv2 Toy.cancer_df = Ok 8
  ∧ (λ σ, length (results σ)) <$> run_loops Toy.toy Sepsis Toy.argv2 Toy.sepsis_df = Ok 4.
Proof. split; vm_compute; reflexivity. Qed.

(** A run of the sepsis script on the twenty rows. *)
Lemma dataset_arrays_never_modified_witness :
  (∀ k_inner continuous_col_ixs num_classes search_space rep X_dev y_dev X_test y_test f
      Xd Xt yd yt (σ σ' : State Toy.toy) u,
     heap σ !! X_dev = Some (FloatMat Xd) → heap σ !! y_dev = Some (FloatVec yd) →
     length yd = length Xd →
     heap σ !! X_test = Some (FloatMat Xt) → heap σ !! y_test = Some (FloatVec yt) →
     (0 <= f)%Q → (f <= 1)%Q →
     fraction_body Toy.toy Sepsis k_inner (arg_random_seed Toy.argv2) continuous_col_ixs
       num_classes search_space rep X_dev y_dev X_test y_test f σ = Ok (u, σ') →
     heap σ `prefix_of` heap σ')
  ∧ (∀ k_inner continuous_col_ixs num_classes search_space rep X y Xm ym
        (σ σ' : State Toy.toy) u,
       heap σ !! X = Some (FloatMat Xm) → heap σ !! y = Some (FloatVec ym) →
       length ym = length Xm →
       repetition Toy.toy Sepsis k_inner (arg_random_seed Toy.argv2)
         (arg_num_subsamples Toy.argv2) continuous_col_ixs num_classes search_space
         X y rep σ = Ok (u, σ') →
       heap σ `prefix_of` heap σ')
  ∧ (∀ X y σ, features_and_labels Sepsis Toy.sepsis_df = Ok (X, y) →
       run_loops Toy.toy Sepsis Toy.argv2 Toy.sepsis_df = Ok σ →
       heap σ !! 0 = Some (FloatMat X) ∧ heap σ !! 1 = Some (FloatVec y)).
Proof.
  apply (dataset_arrays_never_modified Toy.toy toy_ok Sepsis Toy.argv2 Toy.sepsis_df).
Defined.

(** The selection on the six rows. *)
Lemma selection_scores_every_configuration_witness :
  ∃ combos b,
    gen_combinations Toy.space3 = Ok combos
    ∧ Some [("C"%string, HNum (1 # 10)); ("penalty"%string, HStr "l2")] = Some b
    ∧ b ∈ combos
    ∧ (2 ≤ 2)%Z ∧ Z.to_nat 2 ≤ length Toy.X6
    ∧ ∀ c, c ∈ combos →
        ∃ ces, heldout_ces Toy.toy Cancer 2 42 [0] c Toy.X6 Toy.y6 = Ok ces
          ∧ length ces = Z.to_nat 2.
Proof.
  apply (selection_scores_every_configuration Toy.toy Cancer 2 42 [0] Toy.space3
           Toy.h6 Toy.h6_selected 0 1 Toy.X6 Toy.y6
           (Some [("C"%string, HNum (1 # 10)); ("penalty"%string, HStr "l2")])).
  - reflexivity.
  - reflexivity.
  - vm_compute. reflexivity.
Defined.

(** A fold on the six rows, with the column positions of a table of flags. *)
Lemma no_continuous_column_raises_witness :
  continuous_columns Toy.flags_df = []
  ∧ cancer_fold Toy.toy Cancer 42 (continuous_columns Toy.flags_df)
      [("C"%string, HNum (1 # 10))] 0 1 ([3; 4; 5], [0; 1; 2]) Toy.h6
    = Err ValueError.
Proof.
  apply (no_continuous_column_raises Toy.toy 42 Toy.flags_df
           [("C"%string, HNum (1 # 10))] ([3; 4; 5], [0; 1; 2]) Toy.h6 0 1 Toy.X6 Toy.y6).
  - intros c Hc. simpl in Hc.
    repeat (apply elem_of_cons in Hc as [->|Hc]); [by_computation..|by apply elem_of_nil in Hc].
  - reflexivity.
  - reflexivity.
  - reflexivity.
  - intros i Hi. simpl in Hi.
    repeat (apply elem_of_cons in Hi as [->|Hi]); [simpl; lia..|by apply elem_of_nil in Hi].
Defined.

Example toy_table_split :
  (λ Xy, (take 2 Xy.1, take 2 Xy.2)) <$> features_and_labels Cancer Toy.cancer_df
  = Ok ([[0; 0]; [7; 1]]%Q, [0; 0]%Q)
  ∧ features_and_labels Sepsis Toy.cancer_df = Err ValueError.
Proof. split; vm_compute; reflexivity. Qed.

(** Saving on the toy file system: into a missing directory of an existing
    parent; below a missing parent; below the dataset file, and deeper below
    it; where the dataset file has the name of the results directory; and
    where a directory has the name of the table. *)
Example toy_save_results :
  (save_results [] ["results"; "cancer_diagnosis"] "t" (Toy.fs_of Cancer)).1 = Ok tt
  ∧ (save_results [] ["nowhere"; "cancer_diagnosis"] "t" (Toy.fs_of Cancer)).1
    = Err FileNotFoundError
  ∧ (save_results [] (dataset_path Cancer Toy.argv2 ++ ["cancer_diagnosis"]) "t"
       (Toy.fs_of Cancer)).1
    = Err NotADirectoryError
  ∧ (save_results [] (dataset_path Cancer Toy.argv2 ++ ["results"; "cancer_diagnosis"]) "t"
       (Toy.fs_of Cancer)).1
    = Err NotADirectoryError
  ∧ (save_results [] (dataset_path Cancer Toy.argv2) "t" (Toy.fs_of Cancer)).1
    = Err FileExistsError
  ∧ (save_results [] ["results"; "cancer_diagnosis"] "t"
       {| dirs := {[ ["results"] ]} ∪ {[ ["results"; "cancer_diagnosis"] ]}
                  ∪ {[ ["results"; "cancer_diagnosis"; "t.csv"] ]};
          files := ∅ |}).1
    = Err IsADirectoryError.
Proof. split_and!; vm_compute; reflexivity. Qed.

(** The first column of the six rows, and all their columns. *)
Lemma training_columns_centred_witness :
  (∀ sc h',
     NoDup [0] → fit_scaler Toy.toy Cancer [0] Toy.X6 = Ok sc →
     assign_scaled [0] sc 0 0 Toy.h6 = Ok (tt, h') →
     ∃ P', h' !! 0 = Some (FloatMat P')
       ∧ ∀ j, j ∈ [0] → (np_mean (column j P') == 0)%Q)
  ∧ (∀ sc h1 a' h',
       scaler_fit Toy.toy 0 Toy.h6 = Ok (sc, h1) → scaler_transform sc 0 h1 = Ok (a', h') →
       ∃ P', h' !! a' = Some (FloatMat P')
         ∧ ∀ j, j < ncols Toy.X6 → (np_mean (column j P') == 0)%Q).
Proof. apply (training_columns_centred Toy.toy [0] Toy.X6 Toy.h6 0). reflexivity. Defined.

Example toy_centred :
  (np_mean (column 0%nat (Toy.matrix_at Toy.h6_scaled 0%nat)) == 0)%Q
  ∧ ¬ (np_mean (column 1%nat (Toy.matrix_at Toy.h6_scaled 0%nat)) == 0)%Q.
Proof. split; by vm_compute. Qed.
